(** * LKHZ: estimating the tick frequency of a running Linux kernel

    A shallow embedding of [lkhz.py] (class [LKHZ]) and the properties of
    its offset tracker, rolling estimator and jiffies-to-timestamp
    conversion.

    Modelling conventions.
    - A Python [int] is a [Z].
    - A Python [float] is modelled by the rational number it denotes ([Q]),
      and two floats are equal when the rationals are ([Qeq]).  In the
      methods of the object every arithmetic operation is exact and
      [round(x, 8)] is decimal rounding, ties to even: this is the model
      for what depends on the control flow, the integers, the list and the
      order of the values.  What depends on the rounding of binary64
      arithmetic, the offset tracker of lines 100-108 and the estimate of
      line 130, is stated on the module [Binary64], where every operation
      rounds to the nearest double.
    - [str] and [bytes] are ASCII texts ([string]); the files under /proc
      and the kernel configuration are ASCII.
    - A call that can raise returns a [result]; a method of the object
      threads the object's attributes through the monad [M], which keeps
      the attributes as they are at the moment an exception is raised.
    - What the operating system returns (file contents, the output of
      [cat]) is an argument of the function that reads it. *)

From Stdlib Require Import ZArith QArith Qround Qabs Qpower List String Ascii Bool Lia Lqa.
From Stdlib Require Uint63 Floats.
Import ListNotations.

Set Implicit Arguments.

(** ** The Python primitives the program uses *)

Module Py.

(** The exceptions the modelled code can raise. *)
Inductive exn : Type :=
| AttributeError
| TypeError
| ValueError
| IndexError
| ZeroDivisionError
| UnboundLocalError.

(** [inl e]: the call raised [e]; [inr v]: it returned [v]. *)
Definition result (A : Type) : Type := (exn + A)%type.

Section Strings.
Local Open Scope string_scope.

(** [s.startswith(p)] *)
Definition startswith (s p : string) : bool := String.prefix p s.

(** [s.endswith(p)] *)
Definition endswith (s p : string) : bool :=
  let n := String.length s in
  let m := String.length p in
  if (m <=? n)%nat then String.eqb (String.substring (n - m) m s) p
  else false.

(** Whitespace of [str.strip()], in the ASCII range: tab, line feed,
    vertical tab, form feed, carriage return, the separators 0x1c to 0x1f
    and the space. *)
Definition isspace (c : ascii) : bool :=
  let n := nat_of_ascii c in
  ((9 <=? n) && (n <=? 13) || (28 <=? n) && (n <=? 32))%nat.

Fixpoint lstrip (s : string) : string :=
  match s with
  | EmptyString => EmptyString
  | String c s' => if isspace c then lstrip s' else s
  end.

Fixpoint rstrip (s : string) : string :=
  match s with
  | EmptyString => EmptyString
  | String c s' =>
      match rstrip s' with
      | EmptyString => if isspace c then EmptyString else String c EmptyString
      | r => String c r
      end
  end.

(** [s.strip()] *)
Definition strip (s : string) : string := rstrip (lstrip s).

(** The scan of [s.split(sep)] for a non-empty [sep]: the field under
    construction and the fields after it.  [skip] counts the characters
    of a separator occurrence still to be passed over. *)
Fixpoint split_scan (sep : string) (skip : nat) (s : string)
  : string * list string :=
  match s with
  | EmptyString => (EmptyString, [])
  | String c s' =>
      match skip with
      | S k => split_scan sep k s'
      | O =>
          if String.prefix sep s then
            let (f, r) := split_scan sep (String.length sep - 1) s' in
            (EmptyString, f :: r)
          else
            let (f, r) := split_scan sep 0 s' in
            (String c f, r)
      end
  end.

(** [s.split(sep)], [sep] not empty (the program only splits on the
    literals [' '], ['='] and [': ']). *)
Definition split (s sep : string) : list string :=
  let (f, r) := split_scan sep 0 s in f :: r.

Definition is_digit (c : ascii) : bool :=
  let n := nat_of_ascii c in ((48 <=? n) && (n <=? 57))%nat.

Definition digit_value (c : ascii) : Z := Z.of_nat (nat_of_ascii c) - 48.

(** Decimal digits with single underscores between digits.
    [seen] tells that the previous character was a digit. *)
Fixpoint parse_digits (acc : Z) (seen : bool) (s : string) : option Z :=
  match s with
  | EmptyString => if seen then Some acc else None
  | String c s' =>
      if is_digit c then parse_digits (10 * acc + digit_value c) true s'
      else if Ascii.eqb c "_" then
             if seen then parse_digits acc false s' else None
      else None
  end.

(** Whitespace of [int()] on an ASCII text: tab, line feed, vertical tab,
    form feed, carriage return and the space.  The separators 0x1c to
    0x1f, which [str.strip()] removes, are no whitespace here. *)
Definition isspace_int (c : ascii) : bool :=
  let n := nat_of_ascii c in
  ((9 <=? n) && (n <=? 13) || (n =? 32))%nat.

Fixpoint lstrip_int (s : string) : string :=
  match s with
  | EmptyString => EmptyString
  | String c s' => if isspace_int c then lstrip_int s' else s
  end.

Fixpoint rstrip_int (s : string) : string :=
  match s with
  | EmptyString => EmptyString
  | String c s' =>
      match rstrip_int s' with
      | EmptyString => if isspace_int c then EmptyString else String c EmptyString
      | r => String c r
      end
  end.

(** [int(s)] for a text: surrounding whitespace, an optional sign,
    decimal digits.  (The limit on the number of digits that recent
    interpreters put on the conversion is not modelled.) *)
Definition int (s : string) : result Z :=
  let t := rstrip_int (lstrip_int s) in
  let (neg, body) :=
    match t with
    | String "-" r => (true, r)
    | String "+" r => (false, r)
    | _ => (false, t)
    end in
  match parse_digits 0 false body with
  | Some v => inr (if neg then - v else v)%Z
  | None => inl ValueError
  end.

(** [b.decode()] on ASCII bytes. *)
Definition decode (b : string) : string := b.

End Strings.

Section Sequences.
Variable A : Type.

(** [l[i]], negative indices counting from the end. *)
Definition index (l : list A) (i : Z) : result A :=
  let n := Z.of_nat (List.length l) in
  let j := if (i <? 0)%Z then (i + n)%Z else i in
  if ((j <? 0) || (n <=? j))%Z then inl IndexError
  else match nth_error l (Z.to_nat j) with
       | Some x => inr x
       | None => inl IndexError
       end.

(** [l[start:]] *)
Definition slice_from (l : list A) (start : Z) : list A :=
  let n := Z.of_nat (List.length l) in
  let s := if (start <? 0)%Z then Z.max 0 (start + n) else Z.min start n in
  skipn (Z.to_nat s) l.

End Sequences.

Section Floats.
Local Open Scope Q_scope.

(** [x < y] on floats. *)
Definition Qltb (x y : Q) : bool := negb (Qle_bool y x).

(** [int(x)]: truncation towards zero. *)
Definition int_of_float (x : Q) : Z := Z.quot (Qnum x) (Zpos (Qden x)).

(** The nearest integer, ties to the even one. *)
Definition round_half_even (x : Q) : Z :=
  let f := Qfloor x in
  let r := x - inject_Z f in
  if Qltb r (1 # 2) then f
  else if Qltb (1 # 2) r then (f + 1)%Z
  else if Z.even f then f else (f + 1)%Z.

Definition pow10 (n : nat) : positive := Nat.iter n (Pos.mul 10) 1%positive.

(** [round(x, ndigits)] *)
Definition round (x : Q) (ndigits : nat) : Q :=
  Qmake (round_half_even (x * inject_Z (Zpos (pow10 ndigits)))) (pow10 ndigits).

(** [sum(l)] *)
Definition sum (l : list Q) : Q := fold_left Qplus l 0.

(** [min] and [max] keep the first of equal elements; on an empty
    sequence they raise ValueError. *)
Definition min (l : list Q) : result Q :=
  match l with
  | [] => inl ValueError
  | x :: r => inr (fold_left (fun m y => if Qltb y m then y else m) r x)
  end.

Definition max (l : list Q) : result Q :=
  match l with
  | [] => inl ValueError
  | x :: r => inr (fold_left (fun m y => if Qltb m y then y else m) r x)
  end.

(** [a / b] with a float result. *)
Definition truediv (a b : Q) : result Q :=
  if Qeq_bool b 0 then inl ZeroDivisionError else inr (a / b).

End Floats.

End Py.

(** ** The object and its methods *)

Import Py.

Local Open Scope string_scope.
Local Open Scope Z_scope.

(** The line feed that ends the lines [readlines()] returns. *)
Definition nl : string := String (ascii_of_nat 10) EmptyString.

(** The attributes of an [LKHZ] object.  The attributes that [__init__]
    does not create ([_start] to [_delta]) are options: [None] says that
    the object has no such attribute yet, and reading it raises
    AttributeError.  [config_hz] exists from [__init__] on; its [None] is
    Python's [None], the value [_read_kernel_config_gz] returns for a
    configuration without a [CONFIG_HZ=] line. *)
Record LKHZ : Type := mkLKHZ {
  _hz : list Q;
  _count : Z;
  config_hz : option Z;
  offset : Q;
  last_since_boot : Q;
  _oavg : Q;
  _start : option Z;
  since_boot : option Q;
  jiffies : option Z;
  HZ : option Q;
  _avg : option Q;
  _min : option Q;
  _max : option Q;
  _delta : option Q
}.

(** What the operating system returns during one call of [_gv]:
    [cat_out] is the decoded output of [cat /proc/uptime /proc/timer_list]
    split at line feeds; [uptime] is the number that
    [float(_[0].split(' ')[0])] reads in its first field, or the ValueError
    of a text that is no number (the parsing of the numeral is not
    modelled); [timer_list] is what
    [readlines()] gives on /proc/timer_list when [cpu0_offset] opens it. *)
Record reads : Type := mkReads {
  uptime : result Q;
  cat_out : list string;
  timer_list : list string
}.

(** Methods: the attributes go in and come out, with the value returned or
    the exception raised. *)
Definition M (A : Type) : Type := LKHZ -> result A * LKHZ.

Class Monad (m : Type -> Type) : Type := {
  ret : forall {A : Type}, A -> m A;
  bind : forall {A B : Type}, m A -> (A -> m B) -> m B
}.

#[export] Instance Monad_result : Monad result := {
  ret := fun A (a : A) => inr a;
  bind := fun A B (r : result A) (k : A -> result B) =>
            match r with
            | inl e => inl e
            | inr a => k a
            end
}.

#[export] Instance Monad_M : Monad M := {
  ret := fun A (a : A) (s : LKHZ) => (inr a, s);
  bind := fun A B (m : M A) (k : A -> M B) (s : LKHZ) =>
            match m s with
            | (inl e, s') => (inl e, s')
            | (inr a, s') => k a s'
            end
}.

Declare Scope monad_scope.
Delimit Scope monad_scope with monad.
Notation "x <- c1 ;; c2" := (bind c1 (fun x => c2))
  (at level 61, c1 at next level, right associativity) : monad_scope.
Notation "c1 ;; c2" := (bind c1 (fun _ => c2))
  (at level 61, right associativity) : monad_scope.
Local Open Scope monad_scope.

Definition raise {A : Type} (e : exn) : M A := fun s => (inl e, s).

(** A call that can raise, made from a method. *)
Definition call {A : Type} (r : result A) : M A := fun s => (r, s).

(** Reading an attribute that [__init__] creates. *)
Definition read {A : Type} (f : LKHZ -> A) : M A := fun s => (inr (f s), s).

(** Reading an attribute that may not exist yet. *)
Definition getattr {A : Type} (f : LKHZ -> option A) : M A :=
  fun s => match f s with
           | Some a => (inr a, s)
           | None => (inl AttributeError, s)
           end.

Definition modify (f : LKHZ -> LKHZ) : M unit := fun s => (inr tt, f s).

Definition with_hz (v : list Q) (s : LKHZ) : LKHZ :=
  mkLKHZ v (_count s) (config_hz s) (offset s) (last_since_boot s) (_oavg s)
    (_start s) (since_boot s) (jiffies s) (HZ s) (_avg s) (_min s) (_max s)
    (_delta s).
Definition with_offset (v : Q) (s : LKHZ) : LKHZ :=
  mkLKHZ (_hz s) (_count s) (config_hz s) v (last_since_boot s) (_oavg s)
    (_start s) (since_boot s) (jiffies s) (HZ s) (_avg s) (_min s) (_max s)
    (_delta s).
Definition with_last_since_boot (v : Q) (s : LKHZ) : LKHZ :=
  mkLKHZ (_hz s) (_count s) (config_hz s) (offset s) v (_oavg s)
    (_start s) (since_boot s) (jiffies s) (HZ s) (_avg s) (_min s) (_max s)
    (_delta s).
Definition with_oavg (v : Q) (s : LKHZ) : LKHZ :=
  mkLKHZ (_hz s) (_count s) (config_hz s) (offset s) (last_since_boot s) v
    (_start s) (since_boot s) (jiffies s) (HZ s) (_avg s) (_min s) (_max s)
    (_delta s).
Definition with_start (v : Z) (s : LKHZ) : LKHZ :=
  mkLKHZ (_hz s) (_count s) (config_hz s) (offset s) (last_since_boot s) (_oavg s)
    (Some v) (since_boot s) (jiffies s) (HZ s) (_avg s) (_min s) (_max s)
    (_delta s).
Definition with_since_boot (v : Q) (s : LKHZ) : LKHZ :=
  mkLKHZ (_hz s) (_count s) (config_hz s) (offset s) (last_since_boot s) (_oavg s)
    (_start s) (Some v) (jiffies s) (HZ s) (_avg s) (_min s) (_max s)
    (_delta s).
Definition with_jiffies (v : Z) (s : LKHZ) : LKHZ :=
  mkLKHZ (_hz s) (_count s) (config_hz s) (offset s) (last_since_boot s) (_oavg s)
    (_start s) (since_boot s) (Some v) (HZ s) (_avg s) (_min s) (_max s)
    (_delta s).
Definition with_HZ (v : Q) (s : LKHZ) : LKHZ :=
  mkLKHZ (_hz s) (_count s) (config_hz s) (offset s) (last_since_boot s) (_oavg s)
    (_start s) (since_boot s) (jiffies s) (Some v) (_avg s) (_min s) (_max s)
    (_delta s).
Definition with_avg (v : Q) (s : LKHZ) : LKHZ :=
  mkLKHZ (_hz s) (_count s) (config_hz s) (offset s) (last_since_boot s) (_oavg s)
    (_start s) (since_boot s) (jiffies s) (HZ s) (Some v) (_min s) (_max s)
    (_delta s).
Definition with_min (v : Q) (s : LKHZ) : LKHZ :=
  mkLKHZ (_hz s) (_count s) (config_hz s) (offset s) (last_since_boot s) (_oavg s)
    (_start s) (since_boot s) (jiffies s) (HZ s) (_avg s) (Some v) (_max s)
    (_delta s).
Definition with_max (v : Q) (s : LKHZ) : LKHZ :=
  mkLKHZ (_hz s) (_count s) (config_hz s) (offset s) (last_since_boot s) (_oavg s)
    (_start s) (since_boot s) (jiffies s) (HZ s) (_avg s) (_min s) (Some v)
    (_delta s).
Definition with_delta (v : Q) (s : LKHZ) : LKHZ :=
  mkLKHZ (_hz s) (_count s) (config_hz s) (offset s) (last_since_boot s) (_oavg s)
    (_start s) (since_boot s) (jiffies s) (HZ s) (_avg s) (_min s) (_max s)
    (Some v).

(** *** [_read_kernel_config_gz] (lines 26-35)

    [f] holds the lines of the decompressed /proc/config.gz.  The result
    is Python's [None] when the loop ends without a match. *)
Fixpoint _read_kernel_config_gz (f : list string) : result (option Z) :=
  match f with
  | [] => ret None
  | ln :: rest =>
      if startswith ln "CONFIG_HZ=" then
        _hz <- index (split (decode ln) "=") 1 ;;
        _hz <- int _hz ;;
        ret (Some _hz)
      else _read_kernel_config_gz rest
  end.

(** *** [cpu0_offset] (lines 50-73)

    The loop over the lines of /proc/timer_list, with its two variables
    [go] and [offset]; [if not go: break] ends it. *)
Fixpoint cpu0_offset_loop (go offset : Z) (lines : list string) : result Z :=
  match lines with
  | [] => ret offset
  | line :: rest =>
      if go =? 2 then
        let go := if endswith line ("ktime_get_boottime" ++ nl) then go - 1 else go in
        if go =? 0 then ret offset else cpu0_offset_loop go offset rest
      else if go =? 1 then
        field <- index (split (strip line) " ") (-2) ;;
        offset <- int field ;;
        ret offset
      else
        if go =? 0 then ret offset else cpu0_offset_loop go offset rest
  end.

Definition cpu0_offset (timer_list : list string) : result Q :=
  offset <- cpu0_offset_loop 2 0 timer_list ;;
  truediv (inject_Z offset) (inject_Z 1000000000).

(** *** [__init__] (lines 17-24) *)
Definition __init__ (config_gz timer_list : list string) : result LKHZ :=
  config_hz <- _read_kernel_config_gz config_gz ;;
  offset <- cpu0_offset timer_list ;;
  ret (mkLKHZ [] 100 config_hz offset offset 0 None None None None None None
         None None).

(** *** [user_hz] (lines 44-48)

    [int(self.HZ+2 // 50*50)]: [//] and [*] bind tighter than [+]. *)
Definition user_hz : M Z :=
  HZ <- getattr HZ ;;
  ret (int_of_float (HZ + inject_Z (2 / 50 * 50))%Q).

(** *** [_gv] (lines 95-140) *)

(** Lines 100-108: the seconds since boot, and the new offset after a
    suspend or resume. *)
Definition _gv_since_boot (os : reads) : M unit :=
  r <- call (uptime os) ;;
  o <- read offset ;;
  modify (with_since_boot (r - o)%Q) ;;
  sb <- getattr since_boot ;;
  last <- read last_since_boot ;;
  (if Qltb 1 (Qabs (sb - last))
   then
     sb <- getattr since_boot ;;
     o <- read offset ;;
     modify (with_since_boot (sb + o)%Q) ;;
     o <- call (cpu0_offset (timer_list os)) ;;
     modify (with_offset o) ;;
     sb <- getattr since_boot ;;
     o <- read offset ;;
     modify (with_since_boot (sb - o)%Q)
   else ret tt) ;;
  sb <- getattr since_boot ;;
  modify (with_last_since_boot sb).

(** Lines 116-119: the first line that starts with [jiffies:]. *)
Fixpoint _gv_jiffies (lines : list string) : M unit :=
  match lines with
  | [] => ret tt
  | ln :: rest =>
      if startswith ln "jiffies:" then
        field <- call (index (split ln ": ") 1) ;;
        j <- call (int field) ;;
        modify (with_jiffies j)
      else _gv_jiffies rest
  end.

(** Lines 126-128 on the values read from the object. *)
Definition adj_jiffies (jiffies config_hz : Z) (since_boot : Q) : Z :=
  let adj := jiffies + 300 * config_hz in
  if Qltb 300 since_boot then adj - Z.shiftl 1 32 else adj.

Definition _gv_adj_jiffies : M Z :=
  j <- getattr jiffies ;;
  c <- read config_hz ;;
  match c with
  | None => raise TypeError
  | Some c =>
      sb <- getattr since_boot ;;
      ret (adj_jiffies j c sb)
  end.

(** Line 130. *)
Definition _gv_HZ (adj : Z) : M unit :=
  sb <- getattr since_boot ;;
  q <- call (truediv (inject_Z adj) sb) ;;
  modify (with_HZ (round q 8)).

(** Lines 131-133: the list after the append and the slice, and its mean. *)
Definition _gv_avg : M unit :=
  h <- getattr HZ ;;
  w <- read _hz ;;
  modify (with_hz (w ++ [h])) ;;
  w <- read _hz ;;
  n <- read _count ;;
  modify (with_hz (slice_from w (-1 * n))) ;;
  w <- read _hz ;;
  a <- call (truediv (sum w) (inject_Z (Z.of_nat (List.length w)))) ;;
  modify (with_avg (round a 8)).

(** Lines 134-140. *)
Definition _gv_minmax : M unit :=
  has <- read (fun s => match _min s with Some _ => true | None => false end) ;;
  (if has : bool
   then
     m <- getattr _min ;;
     w <- read _hz ;;
     modify (with_hz (w ++ [m])) ;;
     x <- getattr _max ;;
     w <- read _hz ;;
     modify (with_hz (w ++ [x]))
   else ret tt) ;;
  w <- read _hz ;;
  m <- call (min w) ;;
  modify (with_min (round m 8)) ;;
  w <- read _hz ;;
  x <- call (max w) ;;
  modify (with_max (round x 8)) ;;
  x <- getattr _max ;;
  m <- getattr _min ;;
  modify (with_delta (x - m)%Q).

Definition _gv (os : reads) : M unit :=
  _gv_since_boot os ;;
  _gv_jiffies (cat_out os) ;;
  adj <- _gv_adj_jiffies ;;
  _gv_HZ adj ;;
  _gv_avg ;;
  _gv_minmax.

(** Successive calls of [_gv], as the loops of [calibrate] and [analyze]
    make them: an exception ends the run.  [oss] holds what the operating
    system returns in each call. *)
Fixpoint _gv_each (oss : list reads) : M unit :=
  match oss with
  | [] => ret tt
  | os :: rest => _gv os ;; _gv_each rest
  end.

(** *** [calibrate] (lines 37-42)

    [os i] is what the operating system returns in iteration [i] of
    [for i in range(self._count)]; [now] is [int(time.time())]. *)
Definition calibrate (os : nat -> reads) (now : Z) : M unit :=
  n <- read _count ;;
  _gv_each (map os (seq 0 (Z.to_nat n))) ;;
  a <- getattr _avg ;;
  modify (with_oavg a) ;;
  modify (with_start now).

(** *** [jiffies_to_datetime] (lines 75-93) *)

(** Lines 77-79; [timer_list] is /proc/timer_list as [cpu0_offset] reads it. *)
Definition jiffies_to_datetime_adj (jiffies : Z) (timer_list : list string) : M Z :=
  u <- user_hz ;;
  let adj := jiffies + 300 * u in
  sb <- getattr since_boot ;;
  o <- call (cpu0_offset timer_list) ;;
  ret (if Qltb 300 (sb + o) then adj - Z.shiftl 1 32 else adj).

(** Lines 85-88: the last line of /proc/stat that starts with [btime]
    wins; [btime] is unbound when there is none. *)
Fixpoint btime_loop (btime : option Z) (lines : list string) : result (option Z) :=
  match lines with
  | [] => ret btime
  | line :: rest =>
      if startswith line "btime" then
        field <- index (split (strip line) " ") 1 ;;
        b <- int field ;;
        btime_loop (Some b) rest
      else btime_loop btime rest
  end.

(** The result is the argument of [datetime.datetime.fromtimestamp], in
    seconds since the epoch; the conversion to a local calendar time is not
    modelled. *)
Definition jiffies_to_datetime (jiffies : Z) (timer_list stat : list string) : M Q :=
  adj <- jiffies_to_datetime_adj jiffies timer_list ;;
  c <- read config_hz ;;
  match c with
  | None => raise TypeError
  | Some c =>
      secs <- call (truediv (inject_Z adj) (inject_Z c)) ;;
      btime <- call (btime_loop None stat) ;;
      match btime with
      | None => raise UnboundLocalError
      | Some btime => ret (secs + inject_Z btime)%Q
      end
  end.

(** ** Lines 100-108 and 130 in binary64

    The difference of two floats that line 100 stores, the threshold test
    of line 103 and the quotient of line 130 depend on how binary64
    arithmetic rounds.  In this module a float is still the rational it
    denotes, and every operation rounds its exact result to the nearest
    double, ties to the even significand: 53 bits, with the subnormal
    numbers below [2^-1022].  Magnitudes of [2^1024] and more, which are
    [inf] or an OverflowError in Python, and [nan] have no counterpart
    here; no value the program reads from /proc reaches them. *)
Module Binary64.

Section Rounding.
Local Open Scope Q_scope.

(** [floor(log2 q)] for a positive [q]. *)
Definition ilog2 (q : Q) : Z :=
  let c := (Z.log2 (Qnum q) - Z.log2 (Zpos (Qden q)))%Z in
  if Qle_bool (2 ^ c) q then c else (c - 1)%Z.

(** The exponent of the last bit of the significand of the doubles around
    [q]: 52 below the exponent of [q], and -1074 for the subnormal
    numbers. *)
Definition ulp_exponent (q : Q) : Z :=
  (Z.max (ilog2 (Qabs q)) (-1022) - 52)%Z.

(** The double nearest to [q], ties to the even significand. *)
Definition b64 (q : Q) : Q :=
  let k := ulp_exponent q in
  inject_Z (round_half_even (q / 2 ^ k)) * 2 ^ k.

(** The doubles: a significand of at most 53 bits at an exponent from
    -1074 on. *)
Definition is_double (x : Q) : Prop :=
  exists m k : Z,
    (Z.abs m <= 2 ^ 53)%Z /\ (-1074 <= k)%Z /\ x == inject_Z m * 2 ^ k.

(** [x] is a double, and no double is nearer to [q]. *)
Definition nearest_double (q x : Q) : Prop :=
  is_double x /\ forall y, is_double y -> Qabs (x - q) <= Qabs (y - q).

(** [float(text)], for the decimal number [q] that the text denotes. *)
Definition float (q : Q) : Q := b64 q.

(** The conversion of an [int] operand to a float. *)
Definition float_of_int (n : Z) : Q := b64 (inject_Z n).

(** [x + y] and [x - y] on floats. *)
Definition add (x y : Q) : Q := b64 (x + y).

Definition sub (x y : Q) : Q := b64 (x - y).

(** [a / b] on two ints or on two floats: the quotient, rounded once. *)
Definition truediv (a b : Q) : result Q :=
  if Qeq_bool b 0 then inl ZeroDivisionError else inr (b64 (a / b)).

(** [round(x, ndigits)] on a float: the decimal numeral with [ndigits]
    digits nearest to the double [x], ties to even, read back as a
    double. *)
Definition round (x : Q) (ndigits : nat) : Q := b64 (Py.round x ndigits).

End Rounding.

(** [cpu0_offset] (lines 50-73), with the quotient of line 73 rounded. *)
Definition cpu0_offset (timer_list : list string) : result Q :=
  offset <- cpu0_offset_loop 2 0 timer_list ;;
  truediv (inject_Z offset) (inject_Z 1000000000).

(** Lines 100-108.  [uptime os] is the number in the first field of
    /proc/uptime; [float] makes a double of it. *)
Definition _gv_since_boot (os : reads) : M unit :=
  r <- call (uptime os) ;;
  o <- read offset ;;
  modify (with_since_boot (sub (float r) o)) ;;
  sb <- getattr since_boot ;;
  last <- read last_since_boot ;;
  (if Qltb 1 (Qabs (sub sb last))
   then
     sb <- getattr since_boot ;;
     o <- read offset ;;
     modify (with_since_boot (add sb o)) ;;
     o <- call (cpu0_offset (timer_list os)) ;;
     modify (with_offset o) ;;
     sb <- getattr since_boot ;;
     o <- read offset ;;
     modify (with_since_boot (sub sb o))
   else ret tt) ;;
  sb <- getattr since_boot ;;
  modify (with_last_since_boot sb).

(** Line 130: the int [adj_jiffies] is converted, the quotient is rounded
    to a double, and [round] rounds that double. *)
Definition _gv_HZ (adj : Z) : M unit :=
  sb <- getattr since_boot ;;
  q <- call (truediv (float_of_int adj) sb) ;;
  modify (with_HZ (round q 8)).

End Binary64.

(** The entries that lines 134-136 append to the list: the minimum and
    maximum that the previous call left, when there are any. *)
Definition reinserted (s : LKHZ) : list Q :=
  match _min s, _max s with
  | Some m, Some x => [m; x]
  | _, _ => []
  end.

(** The attributes of the rolling window, which lines 100-130 leave alone. *)
Definition same_window (s s' : LKHZ) : Prop :=
  _hz s' = _hz s /\ _count s' = _count s /\ _min s' = _min s /\ _max s' = _max s.

(** The objects after each call of a run of [_gv] that returned; the run
    ends with the first call that raises. *)
Fixpoint states_after (oss : list reads) (s : LKHZ) : list LKHZ :=
  match oss with
  | [] => []
  | os :: rest =>
      match _gv os s with
      | (inr _, s') => s' :: states_after rest s'
      | (inl _, _) => []
      end
  end.

(** The instantaneous values the calls of a run computed, in order. *)
Definition hz_values (states : list LKHZ) : list Q :=
  flat_map (fun s => match HZ s with Some h => [h] | None => [] end) states.

(** ** What the specification says, where it is compared with the code *)

(** USER_HZ as the specification derives it: floor((HZ + 2) / 50) * 50. *)
Definition spec_user_hz (h : Q) : Z := Qfloor ((h + 2) / 50) * 50.

(** The average as the specification describes it: the mean, rounded to 8
    digits, of the at most [n] most recent instantaneous values. *)
Definition spec_average (n : nat) (hzs : list Q) : Q :=
  let recent := skipn (List.length hzs - n) hzs in
  round (sum recent / inject_Z (Z.of_nat (List.length recent))) 8.

(** A run in which every average is the specification's average of the
    instantaneous values computed so far. *)
Definition averages_recent_values (oss : list reads) (s0 : LKHZ) : Prop :=
  forall (k : nat) (s : LKHZ),
    nth_error (states_after oss s0) k = Some s ->
    exists a, _avg s = Some a /\
              (a == spec_average (Z.to_nat (_count s0))
                      (hz_values (firstn (S k) (states_after oss s0))))%Q.

(** ** Texts and objects used in the examples *)

(** A decimal numeral, from its digits. *)
Definition digit_char (d : nat) : ascii := ascii_of_nat (48 + d).

Definition numeral (ds : list nat) : string :=
  fold_right (fun d s => String (digit_char d) s) EmptyString ds.

Definition numeral_value (ds : list nat) : Z :=
  fold_left (fun a d => 10 * a + Z.of_nat d) ds 0.

(** /proc/timer_list with a boot-time clock whose offset is 0. *)
Definition timer_list_0 : list string :=
  [ "Timer List Version: v0.9" ++ nl;
    "HRTIMER_MAX_CLOCK_BASES: 8" ++ nl;
    "now at 400000000000 nsecs" ++ nl;
    nl;
    "cpu: 0" ++ nl;
    " clock 2:" ++ nl;
    "  .base:       00000000d4b5f5a2" ++ nl;
    "  .index:      2" ++ nl;
    "  .resolution: 1 nsecs" ++ nl;
    "  .get_time:   ktime_get_boottime" ++ nl;
    "  .offset:     0 nsecs" ++ nl;
    "active timers:" ++ nl ].

(** /proc/timer_list of a kernel that names no boot-time clock. *)
Definition timer_list_without_boottime : list string :=
  [ "Timer List Version: v0.9" ++ nl;
    "cpu: 0" ++ nl;
    " clock 0:" ++ nl;
    "  .get_time:   ktime_get" ++ nl;
    "  .offset:     0 nsecs" ++ nl;
    "active timers:" ++ nl ].

Definition config_100 : list string :=
  [ "# CONFIG_HZ_PERIODIC is not set" ++ nl;
    "CONFIG_HZ_100=y" ++ nl;
    "# CONFIG_HZ_250 is not set" ++ nl;
    "CONFIG_HZ=100" ++ nl ].

(** A configuration without a [CONFIG_HZ=] line. *)
Definition config_without_hz : list string :=
  [ "CONFIG_NO_HZ_COMMON=y" ++ nl;
    "CONFIG_HZ_250=y" ++ nl;
    "CONFIG_LOCALVERSION=" ++ nl ].

(** The object [__init__] builds from [config_100] and [timer_list_0]. *)
Definition booted : LKHZ :=
  mkLKHZ [] 100 (Some 100) (inject_Z 0 / inject_Z 1000000000)
    (inject_Z 0 / inject_Z 1000000000) 0 None None None None None None None None.

(** Three polls, 400, 500 and 600 seconds after boot, of a kernel that
    ticked 40000, 51000 and 62400 times. *)
Definition poll (seconds : Q) (uptime_line jiffies_line : string) : reads :=
  mkReads (inr seconds)
    [ uptime_line; "Timer List Version: v0.9"; "HRTIMER_MAX_CLOCK_BASES: 8";
      "now at 0 nsecs"; ""; "cpu: 0"; jiffies_line; "" ]
    timer_list_0.

Definition poll_1 : reads := poll 400 "400.00 1200.00" "jiffies: 4294977296".
Definition poll_2 : reads := poll 500 "500.00 1500.00" "jiffies: 4294988296".
Definition poll_3 : reads := poll 600 "600.00 1800.00" "jiffies: 4294999696".


(** An object of a kernel configured at 250 Hz, 4100 seconds after boot,
    whose last estimate is 250. *)
Definition at_4100_seconds : LKHZ :=
  mkLKHZ [250%Q] 100 (Some 250) 0 4100 0 None (Some 4100%Q) (Some 1000000)
    (Some 250%Q) (Some 250%Q) (Some 250%Q) (Some 250%Q) (Some 0%Q).

(** A poll at the very moment of boot: 0 seconds of uptime. *)
Definition poll_at_boot : reads := poll 0 "0.00 0.00" "jiffies: 4294937296".

(** A poll whose output has no [jiffies:] line. *)
Definition poll_without_jiffies : reads :=
  mkReads (inr 400%Q) ["400.00 1200.00"; "Timer List Version: v0.9"; ""]
    timer_list_0.

(** The object [__init__] builds from [config_without_hz]. *)
Definition unconfigured : LKHZ :=
  mkLKHZ [] 100 None (inject_Z 0 / inject_Z 1000000000)
    (inject_Z 0 / inject_Z 1000000000) 0 None None None None None None None None.

(** /proc/timer_list after a suspend of 16967.908 seconds. *)
Definition timer_list_resumed : list string :=
  [ "cpu: 0" ++ nl;
    " clock 2:" ++ nl;
    "  .get_time:   ktime_get_boottime" ++ nl;
    "  .offset:     16967908000000 nsecs" ++ nl;
    "active timers:" ++ nl;
    "cpu: 1" ++ nl;
    " clock 2:" ++ nl;
    "  .get_time:   ktime_get_boottime" ++ nl;
    "  .offset:     5 nsecs" ++ nl ].


(** /proc/stat without a boot time, and with two. *)
Definition stat_without_btime : list string :=
  [ "cpu  4705 150 1120 1688892 986 0 58 0 0 0" ++ nl;
    "ctxt 1990473" ++ nl;
    "processes 2915" ++ nl ].

Definition stat_with_two_btimes : list string :=
  [ "btime 1600000000" ++ nl;
    "ctxt 1990473" ++ nl;
    "btime " ++ numeral [1; 7; 0; 0; 0; 0; 0; 0; 0; 0]%nat ++ nl;
    "processes 2915" ++ nl ].

(** An object that has been suspended for 13587.215253701 seconds and was
    last polled at the uptime 14337.42. *)
Definition resumed_once : LKHZ :=
  let o := Binary64.b64 (13587215253701 # 1000000000) in
  let v := Binary64.sub (Binary64.float (1433742 # 100)) o in
  mkLKHZ [] 100 (Some 100) o v 0 None (Some v) None None None None None None.

(** /proc/timer_list after a second suspend, of 49216.542151710 seconds. *)
Definition timer_list_resumed_twice : list string :=
  [ "cpu: 0" ++ nl;
    " clock 2:" ++ nl;
    "  .get_time:   ktime_get_boottime" ++ nl;
    "  .offset:     62803757405411 nsecs" ++ nl;
    "active timers:" ++ nl ].

(** A poll half a second after the last one of [resumed_once], and one
    after the second suspend. *)
Definition poll_half_later : reads :=
  mkReads (inr (1433792 # 100)%Q) ["14337.92 40020.11"; "jiffies: 4295042316"; ""]
    timer_list_resumed_twice.

Definition poll_resumed_twice : reads :=
  mkReads (inr (6355398 # 100)%Q) ["63553.98 40100.37"; "jiffies: 4295042318"; ""]
    timer_list_resumed_twice.

(** An object with the offset 0.3, last polled at the uptime 511.50, and a
    poll one second later. *)
Definition offset_three_tenths : LKHZ :=
  let o := Binary64.b64 (3 # 10) in
  let v := Binary64.sub (Binary64.float (51150 # 100)) o in
  mkLKHZ [] 100 (Some 100) o v 0 None (Some v) None None None None None None.

Definition poll_one_second_later : reads :=
  mkReads (inr (51250 # 100)%Q) ["512.50 1500.00"; "jiffies: 4294988546"; ""]
    timer_list_0.

(** The rational a float of the kernel's binary64 arithmetic denotes. *)
Definition Q_of_float (x : PrimFloat.float) : option Q :=
  match FloatOps.Prim2SF x with
  | SpecFloat.S754_zero _ => Some 0%Q
  | SpecFloat.S754_finite s m e =>
      Some ((if s then -1 else 1) * inject_Z (Zpos m) * 2 ^ e)%Q
  | _ => None
  end.

(** The float of an integer from 0 to [2^53], which is exact. *)
Definition float_of_Z (n : Z) : PrimFloat.float :=
  PrimFloat.of_uint63 (Uint63.of_Z n).

(** The float [x] denotes the rational [q]. *)
Definition denotes (x : PrimFloat.float) (q : Q) : bool :=
  match Q_of_float x with
  | Some v => Qeq_bool v q
  | None => false
  end.

(** *** [analyze] (lines 142-164) and the main program (lines 167-171)

    What [analyze] prints, without the layout: the two values of the
    heading (lines 143-146) and, for each turn of the loop, the values of
    lines 158-163. *)
Record row : Type := mkRow {
  row_jiffies : Z;
  row_since_boot : Q;
  row_HZ : Q;
  row_min : Q;
  row_avg : Q;
  row_max : Q;
  row_delta : Q;
  row_drift : Q;
  row_age : Z;
  row_offset : Q
}.

Inductive printed : Type :=
| Heading (config_hz : option Z) (count : Z)
| Estimate (r : row).

(** One turn of [while True] (lines 154-163); [now] is [int(time.time())].
    The three [print] calls are one row here: the attributes they format
    are all assigned by the [_gv] of the turn, so none of them can be
    missing once line 156 is passed.  [time.sleep] has no counterpart. *)
Definition analyze_turn (os : reads) (now : Z) : M row :=
  _gv os ;;
  a <- getattr _avg ;;
  oavg <- read _oavg ;;
  let _drift := (a - oavg)%Q in
  start <- getattr _start ;;
  let _age := now - start in
  j <- getattr jiffies ;;
  sb <- getattr since_boot ;;
  h <- getattr HZ ;;
  m <- getattr _min ;;
  a <- getattr _avg ;;
  x <- getattr _max ;;
  d <- getattr _delta ;;
  o <- read offset ;;
  ret (mkRow j sb h m a x d _drift _age o).

(** The loop ends with an exception only.  [polls] holds what the operating
    system and the clock return in its first turns; the result is the rows
    printed in these turns, and either the exception that ended the loop or
    [inr tt] for a loop that is still running after them. *)
Fixpoint analyze_loop (polls : list (reads * Z)) (s : LKHZ)
  : list row * (result unit * LKHZ) :=
  match polls with
  | [] => ([], (inr tt, s))
  | (os, now) :: rest =>
      match analyze_turn os now s with
      | (inl e, s') => ([], (inl e, s'))
      | (inr r, s') =>
          let (rows, out) := analyze_loop rest s' in (r :: rows, out)
      end
  end.

Definition analyze (polls : list (reads * Z)) (s : LKHZ)
  : list printed * (result unit * LKHZ) :=
  let (rows, out) := analyze_loop polls s in
  (Heading (config_hz s) (_count s) :: map Estimate rows, out).

(** [hz = LKHZ(); hz.analyze()] *)
Definition main (config_gz timer_list : list string) (polls : list (reads * Z))
  : list printed * result unit :=
  match __init__ config_gz timer_list with
  | inl e => ([], inl e)
  | inr hz => let (out, end_) := analyze polls hz in (out, fst end_)
  end.

(** ** Which attributes a step leaves alone *)

(** The attributes no call of [_gv] assigns. *)
Definition same_setup (s s' : LKHZ) : Prop :=
  config_hz s' = config_hz s /\ _count s' = _count s /\
  _oavg s' = _oavg s /\ _start s' = _start s.

(** The estimate and the rolling statistics. *)
Definition same_statistics (s s' : LKHZ) : Prop :=
  _hz s' = _hz s /\ HZ s' = HZ s /\ _avg s' = _avg s /\
  _min s' = _min s /\ _max s' = _max s /\ _delta s' = _delta s.

(** The offset tracker. *)
Definition same_clock (s s' : LKHZ) : Prop :=
  offset s' = offset s /\ last_since_boot s' = last_since_boot s /\
  since_boot s' = since_boot s.

(** A text without the character [c]. *)
Definition no_char (c : ascii) (s : string) : bool :=
  forallb (fun a => negb (Ascii.eqb a c)) (list_ascii_of_string s).

Unset Implicit Arguments.

(** * Properties *)

(** ** The primitives on the texts the program meets *)

Example split_offset_line :
  split (strip ("  .offset:     16967908000000 nsecs" ++ nl)) " " =
  [".offset:"; ""; ""; ""; ""; "16967908000000"; "nsecs"].
Proof. reflexivity. Qed.

Example split_jiffies_line :
  split "jiffies: 4294977296" ": " = ["jiffies"; "4294977296"].
Proof. reflexivity. Qed.

Example int_examples :
  int ("250" ++ nl) = inr 250 /\ int " -1_000 " = inr (-1000) /\
  int "" = inl ValueError /\ int "1__0" = inl ValueError /\
  int "- 1" = inl ValueError /\ int "y" = inl ValueError /\
  int (String (ascii_of_nat 28) "250") = inl ValueError /\
  strip (String (ascii_of_nat 28) "250") = "250".
Proof. repeat split. Qed.

Example index_examples :
  index [1; 2; 3] (-2) = inr 2 /\ index [1] (-2) = inl IndexError /\
  index [1; 2; 3] 3 = inl IndexError.
Proof. repeat split. Qed.

Example slice_from_examples :
  slice_from [1; 2; 3; 4; 5] (-2) = [4; 5] /\
  slice_from [1; 2; 3] (-100) = [1; 2; 3] /\
  slice_from [1; 2; 3] 0 = [1; 2; 3].
Proof. repeat split. Qed.

Example round_examples :
  round (5 # 2) 0 = 2%Q /\ round (7 # 2) 0 = 4%Q /\ round (-5 # 2) 0 = (-2)%Q /\
  round (1012345678951 # 10000000000) 8 = (10123456790 # 100000000)%Q.
Proof. repeat split. Qed.

Example cpu0_offset_examples :
  cpu0_offset timer_list_0 = inr (0 # 1000000000)%Q /\
  cpu0_offset ["  .get_time:   ktime_get_boottime" ++ nl;
               "  .offset:     16967908000000 nsecs" ++ nl] =
  inr (16967908000000 # 1000000000)%Q /\
  cpu0_offset ["  .get_time:   ktime_get_boottime" ++ nl; "nsecs" ++ nl] =
  inl IndexError.
Proof. repeat split. Qed.

(** ** Comparisons and rounding *)

Lemma Qltb_lt (x y : Q) : Qltb x y = true <-> (x < y)%Q.
Proof.
  unfold Qltb. rewrite negb_true_iff. split; intro H.
  - apply Qnot_le_lt. intro L. apply Qle_bool_iff in L. congruence.
  - destruct (Qle_bool y x) eqn:E; [|reflexivity].
    apply Qle_bool_iff in E. exfalso. apply (Qlt_not_le _ _ H E).
Qed.

Lemma Qltb_ge (x y : Q) : Qltb x y = false <-> (y <= x)%Q.
Proof.
  unfold Qltb. rewrite negb_false_iff. apply Qle_bool_iff.
Qed.

Lemma Qltb_compat (x x' y y' : Q) :
  (x == x')%Q -> (y == y')%Q -> Qltb x y = Qltb x' y'.
Proof.
  intros Hx Hy.
  destruct (Qltb x y) eqn:E1, (Qltb x' y') eqn:E2; try reflexivity.
  - apply Qltb_lt in E1. apply Qltb_ge in E2. rewrite Hx, Hy in E1.
    exfalso. apply (Qlt_not_le _ _ E1 E2).
  - apply Qltb_ge in E1. apply Qltb_lt in E2. rewrite Hx, Hy in E1.
    exfalso. apply (Qlt_not_le _ _ E2 E1).
Qed.

Lemma Qfloor_compat (x y : Q) : (x == y)%Q -> Qfloor x = Qfloor y.
Proof.
  intro H. apply Z.le_antisymm; apply Qfloor_resp_le; rewrite H; apply Qle_refl.
Qed.

Lemma round_half_even_compat (x y : Q) :
  (x == y)%Q -> round_half_even x = round_half_even y.
Proof.
  intro H. unfold round_half_even.
  rewrite (Qfloor_compat _ _ H).
  assert (E : (x - inject_Z (Qfloor y) == y - inject_Z (Qfloor y))%Q)
    by (rewrite H; reflexivity).
  rewrite (Qltb_compat _ _ _ _ E (Qeq_refl (1 # 2))).
  rewrite (Qltb_compat _ _ _ _ (Qeq_refl (1 # 2)) E).
  reflexivity.
Qed.

Lemma round_half_even_Z (z : Z) : round_half_even (inject_Z z) = z.
Proof.
  unfold round_half_even. rewrite Qfloor_Z.
  assert (E : Qltb (inject_Z z - inject_Z z) (1 # 2) = true).
  { apply Qltb_lt. setoid_replace (inject_Z z - inject_Z z)%Q with 0%Q by ring.
    reflexivity. }
  rewrite E. reflexivity.
Qed.

Lemma round_half_even_bounds (x : Q) :
  round_half_even x = Qfloor x \/ round_half_even x = Qfloor x + 1.
Proof.
  unfold round_half_even.
  destruct (Qltb _ _); [now left|].
  destruct (Qltb _ _); [now right|].
  destruct (Z.even _); [now left | now right].
Qed.

Lemma round_half_even_mono (x y : Q) :
  (x <= y)%Q -> round_half_even x <= round_half_even y.
Proof.
  intro H.
  pose proof (Qfloor_resp_le _ _ H) as Hf.
  destruct (Z.eq_dec (Qfloor x) (Qfloor y)) as [E|N].
  - assert (Hr : (x - inject_Z (Qfloor x) <= y - inject_Z (Qfloor y))%Q).
    { rewrite E. unfold Qminus. apply Qplus_le_compat; [exact H | apply Qle_refl]. }
    unfold round_half_even. rewrite <- E.
    rewrite <- E in Hr.
    set (rx := (x - inject_Z (Qfloor x))%Q) in *.
    set (ry := (y - inject_Z (Qfloor x))%Q) in *.
    destruct (Qltb rx (1 # 2)) eqn:X1.
    + destruct (Qltb ry (1 # 2)); [lia|].
      destruct (Qltb (1 # 2) ry); [lia|].
      destruct (Z.even (Qfloor x)); lia.
    + apply Qltb_ge in X1.
      assert (Y1 : Qltb ry (1 # 2) = false).
      { apply Qltb_ge. apply Qle_trans with rx; assumption. }
      rewrite Y1.
      destruct (Qltb (1 # 2) rx) eqn:X2.
      * apply Qltb_lt in X2.
        assert (Y2 : Qltb (1 # 2) ry = true).
        { apply Qltb_lt. apply Qlt_le_trans with rx; assumption. }
        rewrite Y2. lia.
      * destruct (Qltb (1 # 2) ry); [destruct (Z.even (Qfloor x)); lia|].
        destruct (Z.even (Qfloor x)); lia.
  - destruct (round_half_even_bounds x), (round_half_even_bounds y); lia.
Qed.

Lemma round_mono (x y : Q) (n : nat) : (x <= y)%Q -> (round x n <= round y n)%Q.
Proof.
  intro H. unfold round, Qle. cbn [Qnum Qden].
  apply Z.mul_le_mono_nonneg_r; [lia|].
  apply round_half_even_mono.
  apply Qmult_le_compat_r; [exact H|].
  unfold Qle; cbn; lia.
Qed.

Lemma round_fixed (z : Z) (n : nat) : round (z # pow10 n) n = (z # pow10 n)%Q.
Proof.
  unfold round. f_equal.
  rewrite (round_half_even_compat _ (inject_Z z)).
  - apply round_half_even_Z.
  - unfold Qeq, Qmult, inject_Z; cbn [Qnum Qden]. lia.
Qed.

Lemma round_idem (x : Q) (n : nat) : round (round x n) n = round x n.
Proof. unfold round at 2 3. apply round_fixed. Qed.

Lemma round_nonneg (x : Q) (n : nat) : (0 <= x)%Q -> (0 <= round x n)%Q.
Proof.
  intro H. apply Qle_trans with (round 0 n).
  - unfold round, Qle; cbn. lia.
  - apply round_mono. exact H.
Qed.

(** ** Rounding to binary64 *)

(** Known doubles: 0.1 and -1/3; ties go to the even significand
    ([2^53 + 1] down, [2^53 + 3] up); below [2^-1022] the spacing is
    [2^-1074], and 2.5 and 1.5 times that both give 2 times. *)
Example b64_examples :
  (Binary64.b64 (1 # 10) == 3602879701896397 # 36028797018963968)%Q /\
  (Binary64.b64 (-1 # 3) == -6004799503160661 # 18014398509481984)%Q /\
  (Binary64.b64 (inject_Z (2 ^ 53 + 1)) == inject_Z (2 ^ 53))%Q /\
  (Binary64.b64 (inject_Z (2 ^ 53 + 3)) == inject_Z (2 ^ 53 + 4))%Q /\
  (Binary64.b64 (5 * 2 ^ (-1075)) == 2 * 2 ^ (-1074))%Q /\
  (Binary64.b64 (3 * 2 ^ (-1075)) == 2 * 2 ^ (-1074))%Q /\
  (Binary64.b64 0 == 0)%Q.
Proof. vm_compute. repeat split. Qed.

(** The same doubles in the binary64 arithmetic of the kernel of the proof
    assistant. *)
Example b64_in_hardware_floats :
  denotes (PrimFloat.div (float_of_Z 1) (float_of_Z 10))
          (Binary64.b64 (1 # 10)) = true /\
  denotes (PrimFloat.opp (PrimFloat.div (float_of_Z 1) (float_of_Z 3)))
          (Binary64.b64 (-1 # 3)) = true /\
  denotes (PrimFloat.add (float_of_Z (2 ^ 53)) (float_of_Z 1))
          (Binary64.b64 (inject_Z (2 ^ 53 + 1))) = true /\
  denotes (PrimFloat.add (float_of_Z (2 ^ 53 + 2)) (float_of_Z 1))
          (Binary64.b64 (inject_Z (2 ^ 53 + 3))) = true.
Proof. vm_compute. repeat split. Qed.

Lemma two_neq_0 : ~ (2 == 0)%Q.
Proof. discriminate. Qed.

Lemma pow2_pos (k : Z) : (0 < 2 ^ k)%Q.
Proof. apply Qpower_0_lt. reflexivity. Qed.

Lemma pow2_succ (k : Z) : (2 ^ (k + 1) == 2 * 2 ^ k)%Q.
Proof. rewrite Qpower_plus by exact two_neq_0. rewrite Qpower_1_r. ring. Qed.

Lemma pow2_pred (k : Z) : (2 ^ (k - 1) == 2 ^ k * (1 # 2))%Q.
Proof.
  rewrite Qpower_minus by exact two_neq_0. rewrite Qpower_1_r.
  unfold Qdiv. reflexivity.
Qed.

Lemma pow2_Z (n : Z) : 0 <= n -> (inject_Z (2 ^ n) == 2 ^ n)%Q.
Proof. intro H. exact (Zpower_Qpower 2 n H). Qed.

Lemma pow2_le (a b : Z) : a <= b -> (2 ^ a <= 2 ^ b)%Q.
Proof. intro H. apply Qpower_le_compat_l; [exact H | discriminate]. Qed.

Lemma Qmake_inject (n : Z) (d : positive) :
  (n # d == inject_Z n / inject_Z (Zpos d))%Q.
Proof. rewrite Qmake_Qdiv. reflexivity. Qed.

(** [2 ^ Binary64.ilog2 q <= q < 2 ^ (Binary64.ilog2 q + 1)] for a positive [q]. *)
Lemma ilog2_spec (q : Q) :
  (0 < q)%Q -> (2 ^ Binary64.ilog2 q <= q)%Q /\ (q < 2 ^ (Binary64.ilog2 q + 1))%Q.
Proof.
  intro Hq. destruct q as [n d].
  assert (Hn : 0 < n) by (unfold Qlt in Hq; cbn in Hq; lia).
  unfold Binary64.ilog2. cbn [Qnum Qden].
  destruct (Z.log2_spec n Hn) as [Ln Un].
  destruct (Z.log2_spec (Zpos d) (Pos2Z.is_pos d)) as [Ld Ud].
  pose proof (Z.log2_nonneg n) as Nn. pose proof (Z.log2_nonneg (Zpos d)) as Nd.
  set (a := Z.log2 n) in *. set (b := Z.log2 (Zpos d)) in *.
  assert (Qn : (2 ^ a <= inject_Z n)%Q /\ (inject_Z n < 2 ^ (a + 1))%Q).
  { rewrite <- !pow2_Z by lia. rewrite <- Zle_Qle, <- Zlt_Qlt.
    replace (a + 1) with (Z.succ a) by lia. split; assumption. }
  assert (Qd : (2 ^ b <= inject_Z (Zpos d))%Q /\ (inject_Z (Zpos d) < 2 ^ (b + 1))%Q).
  { rewrite <- !pow2_Z by lia. rewrite <- Zle_Qle, <- Zlt_Qlt.
    replace (b + 1) with (Z.succ b) by lia. split; assumption. }
  assert (Pd : (0 < inject_Z (Zpos d))%Q) by reflexivity.
  assert (E : (n # d == inject_Z n / inject_Z (Zpos d))%Q) by apply Qmake_inject.
  destruct Qn as [Qn1 Qn2]. destruct Qd as [Qd1 Qd2].
  pose proof (pow2_pos (a - b)) as P0.
  assert (Eab : (2 ^ a == 2 ^ (a - b) * 2 ^ b)%Q).
  { rewrite <- Qpower_plus by exact two_neq_0. replace (a - b + b) with a by lia.
    reflexivity. }
  pose proof (pow2_pos b) as Pb.
  destruct (Qle_bool (2 ^ (a - b)) (n # d)) eqn:T.
  - apply Qle_bool_iff in T. split; [exact T|].
    rewrite E. apply Qlt_shift_div_r; [exact Pd|].
    rewrite pow2_succ.
    apply Qlt_le_trans with (2 ^ (a + 1))%Q; [exact Qn2|].
    rewrite pow2_succ, Eab. nra.
  - assert (T' : (n # d < 2 ^ (a - b))%Q).
    { apply Qnot_le_lt. intro L. apply Qle_bool_iff in L. congruence. }
    replace (a - b - 1 + 1) with (a - b) by lia. split; [|exact T'].
    rewrite E. apply Qle_shift_div_l; [exact Pd|].
    rewrite pow2_pred. rewrite pow2_succ in Qd2. nra.
Qed.

Lemma Qabs_le_iff (x y : Q) : (Qabs x <= y)%Q <-> (- y <= x)%Q /\ (x <= y)%Q.
Proof. apply Qabs_Qle_condition. Qed.

Lemma Qabs_cases (x : Q) :
  ((0 <= x)%Q /\ (Qabs x == x)%Q) \/ ((x <= 0)%Q /\ (Qabs x == - x)%Q).
Proof.
  destruct (Qlt_le_dec x 0) as [N|P].
  - right. split; [apply Qlt_le_weak, N|]. apply Qabs_neg. apply Qlt_le_weak, N.
  - left. split; [exact P|]. apply Qabs_pos, P.
Qed.

(** The integer [round_half_even] picks is at least as near as any other,
    and at most one half away. *)
Lemma round_half_even_nearest (t : Q) (j : Z) :
  (Qabs (inject_Z (round_half_even t) - t) <= Qabs (inject_Z j - t))%Q.
Proof.
  pose proof (Qfloor_le t) as F1. pose proof (Qlt_floor t) as F2.
  set (f := Qfloor t) in *.
  assert (F3 : (inject_Z (f + 1) == inject_Z f + 1)%Q) by (rewrite inject_Z_plus; reflexivity).
  rewrite F3 in F2.
  assert (J : (inject_Z j <= inject_Z f)%Q \/ (inject_Z f + 1 <= inject_Z j)%Q).
  { destruct (Z_le_gt_dec j f) as [L|G].
    - left. rewrite <- Zle_Qle. exact L.
    - right. rewrite <- F3, <- Zle_Qle. lia. }
  unfold round_half_even. fold f.
  destruct (Qltb (t - inject_Z f) (1 # 2)) eqn:A.
  - apply Qltb_lt in A.
    destruct (Qabs_cases (inject_Z f - t)) as [[S1 ->]|[S1 ->]],
             (Qabs_cases (inject_Z j - t)) as [[S2 ->]|[S2 ->]], J; lra.
  - apply Qltb_ge in A.
    destruct (Qltb (1 # 2) (t - inject_Z f)) eqn:B.
    + apply Qltb_lt in B. rewrite F3.
      destruct (Qabs_cases (inject_Z f + 1 - t)) as [[S1 ->]|[S1 ->]],
               (Qabs_cases (inject_Z j - t)) as [[S2 ->]|[S2 ->]], J; lra.
    + apply Qltb_ge in B.
      destruct (Z.even f); rewrite ?F3.
      * destruct (Qabs_cases (inject_Z f - t)) as [[S1 ->]|[S1 ->]],
                 (Qabs_cases (inject_Z j - t)) as [[S2 ->]|[S2 ->]], J; lra.
      * destruct (Qabs_cases (inject_Z f + 1 - t)) as [[S1 ->]|[S1 ->]],
                 (Qabs_cases (inject_Z j - t)) as [[S2 ->]|[S2 ->]], J; lra.
Qed.

Lemma round_half_even_half (t : Q) :
  (Qabs (inject_Z (round_half_even t) - t) <= 1 # 2)%Q.
Proof.
  pose proof (Qfloor_le t) as F1. pose proof (Qlt_floor t) as F2.
  set (f := Qfloor t) in *.
  assert (F3 : (inject_Z (f + 1) == inject_Z f + 1)%Q) by (rewrite inject_Z_plus; reflexivity).
  rewrite F3 in F2.
  unfold round_half_even. fold f.
  destruct (Qltb (t - inject_Z f) (1 # 2)) eqn:A.
  - apply Qltb_lt in A.
    destruct (Qabs_cases (inject_Z f - t)) as [[S1 ->]|[S1 ->]]; lra.
  - apply Qltb_ge in A.
    destruct (Qltb (1 # 2) (t - inject_Z f)) eqn:B.
    + apply Qltb_lt in B. rewrite F3.
      destruct (Qabs_cases (inject_Z f + 1 - t)) as [[S1 ->]|[S1 ->]]; lra.
    + apply Qltb_ge in B.
      destruct (Z.even f); rewrite ?F3.
      * destruct (Qabs_cases (inject_Z f - t)) as [[S1 ->]|[S1 ->]]; lra.
      * destruct (Qabs_cases (inject_Z f + 1 - t)) as [[S1 ->]|[S1 ->]]; lra.
Qed.

(** Scaling: distances between multiples of [2 ^ k] and [q]. *)
Lemma scaled_distance (j : Z) (q : Q) (k : Z) :
  (Qabs (inject_Z j * 2 ^ k - q) == Qabs (inject_Z j - q / 2 ^ k) * 2 ^ k)%Q.
Proof.
  pose proof (pow2_pos k) as P.
  rewrite <- (Qabs_pos (2 ^ k)) at 3 by (apply Qlt_le_weak, P).
  rewrite <- Qabs_Qmult. apply Qabs_wd. field.
  intro Z. rewrite Z in P. discriminate P.
Qed.

(** [Binary64.b64 q] is at least as near to [q] as any multiple of its unit. *)
Lemma b64_nearest_multiple (q : Q) (j : Z) :
  (Qabs (Binary64.b64 q - q) <= Qabs (inject_Z j * 2 ^ Binary64.ulp_exponent q - q))%Q.
Proof.
  unfold Binary64.b64. cbv zeta. rewrite !scaled_distance.
  apply Qmult_le_compat_r; [apply round_half_even_nearest|].
  apply Qlt_le_weak, pow2_pos.
Qed.

Lemma b64_half_ulp (q : Q) :
  (Qabs (Binary64.b64 q - q) <= 2 ^ (Binary64.ulp_exponent q - 1))%Q.
Proof.
  unfold Binary64.b64. cbv zeta. rewrite scaled_distance, pow2_pred.
  rewrite (Qmult_comm (2 ^ Binary64.ulp_exponent q)).
  apply Qmult_le_compat_r; [apply round_half_even_half|].
  apply Qlt_le_weak, pow2_pos.
Qed.

Lemma b64_0 (q : Q) : (q == 0)%Q -> (Binary64.b64 q == 0)%Q.
Proof.
  intro H. unfold Binary64.b64. cbv zeta.
  generalize (Binary64.ulp_exponent q). intro k.
  rewrite (round_half_even_compat _ (inject_Z 0)).
  - rewrite round_half_even_Z. ring.
  - rewrite H. unfold Qdiv. ring.
Qed.

Lemma Qabs_pos_lt (q : Q) : ~ (q == 0)%Q -> (0 < Qabs q)%Q.
Proof.
  intro H. destruct (Qabs_cases q) as [[S E]|[S E]]; rewrite E.
  - destruct (Qle_lt_or_eq _ _ S) as [L|L]; [exact L|]. exfalso. apply H. symmetry. exact L.
  - destruct (Qle_lt_or_eq _ _ S) as [L|L]; [lra|]. exfalso. apply H. exact L.
Qed.

(** The scaled value of [q] is below [2^53] in magnitude. *)
Lemma scaled_bound (q : Q) :
  (Qabs (q / 2 ^ Binary64.ulp_exponent q) <= 2 ^ 53)%Q.
Proof.
  pose proof (pow2_pos (Binary64.ulp_exponent q)) as P.
  assert (N : ~ (2 ^ Binary64.ulp_exponent q == 0)%Q) by (intro Z; rewrite Z in P; discriminate P).
  unfold Qdiv. rewrite Qabs_Qmult. rewrite (Qabs_pos (/ _)).
  2:{ apply Qlt_le_weak, Qinv_lt_0_compat, P. }
  apply Qle_shift_div_r; [exact P|].
  rewrite <- Qpower_plus by exact two_neq_0.
  destruct (Qeq_dec q 0) as [Z|NZ].
  - apply Qle_trans with 0%Q; [|apply Qlt_le_weak, pow2_pos].
    rewrite (Qabs_wd _ _ Z). apply Qle_refl.
  - destruct (ilog2_spec (Qabs q) (Qabs_pos_lt q NZ)) as [_ U].
    apply Qlt_le_weak. apply Qlt_le_trans with (1 := U).
    apply pow2_le. unfold Binary64.ulp_exponent. lia.
Qed.

Lemma b64_is_double (q : Q) : Binary64.is_double (Binary64.b64 q).
Proof.
  exists (round_half_even (q / 2 ^ Binary64.ulp_exponent q)), (Binary64.ulp_exponent q).
  split; [|split; [unfold Binary64.ulp_exponent; lia | reflexivity]].
  pose proof (scaled_bound q) as B. apply Qabs_le_iff in B. destruct B as [B1 B2].
  rewrite <- (pow2_Z 53) in B1, B2 by lia.
  rewrite <- inject_Z_opp in B1.
  apply round_half_even_mono in B1. apply round_half_even_mono in B2.
  rewrite round_half_even_Z in B1, B2. lia.
Qed.

Lemma ulp_exponent_normal (q : Q) :
  ~ (q == 0)%Q ->
  -1074 < Binary64.ulp_exponent q ->
  Binary64.ulp_exponent q = Binary64.ilog2 (Qabs q) - 52 /\
  (2 ^ (Binary64.ulp_exponent q + 52) <= Qabs q)%Q.
Proof.
  intros NZ K. unfold Binary64.ulp_exponent in *.
  destruct (ilog2_spec (Qabs q) (Qabs_pos_lt q NZ)) as [L _].
  assert (E : Z.max (Binary64.ilog2 (Qabs q)) (-1022) = Binary64.ilog2 (Qabs q)) by lia.
  rewrite E. split; [reflexivity|].
  replace (Binary64.ilog2 (Qabs q) - 52 + 52) with (Binary64.ilog2 (Qabs q)) by lia. exact L.
Qed.

Lemma double_bound (m k : Z) :
  Z.abs m <= 2 ^ 53 -> (Qabs (inject_Z m * 2 ^ k) <= 2 ^ (k + 53))%Q.
Proof.
  intro H. rewrite Qabs_Qmult, (Qabs_pos (2 ^ k)) by (apply Qlt_le_weak, pow2_pos).
  rewrite Qpower_plus by exact two_neq_0. rewrite (Qmult_comm (2 ^ k)).
  apply Qmult_le_compat_r; [|apply Qlt_le_weak, pow2_pos].
  rewrite <- (pow2_Z 53) by lia.
  unfold Qabs, inject_Z, Qle. cbn [Qnum Qden]. lia.
Qed.

(** [Binary64.b64 q] is a double nearest to [q]. *)
Lemma b64_nearest (q y : Q) :
  Binary64.is_double y -> (Qabs (Binary64.b64 q - q) <= Qabs (y - q))%Q.
Proof.
  intros (m & k' & Hm & Hk & Ey).
  destruct (Z_le_gt_dec (Binary64.ulp_exponent q) k') as [L|G].
  - pose proof (b64_nearest_multiple q (m * 2 ^ (k' - Binary64.ulp_exponent q))) as N.
    apply Qle_trans with (1 := N). apply Qle_lteq. right. apply Qabs_wd.
    rewrite Ey, inject_Z_mult, pow2_Z by lia.
    rewrite <- Qmult_assoc, <- Qpower_plus by exact two_neq_0.
    replace (k' - Binary64.ulp_exponent q + Binary64.ulp_exponent q) with k' by lia. reflexivity.
  - destruct (Qeq_dec q 0) as [Z|NZ].
    + apply Qle_trans with 0%Q; [|apply Qabs_nonneg].
      assert (E : (Binary64.b64 q - q == 0)%Q) by (rewrite (b64_0 q Z), Z; reflexivity).
      rewrite (Qabs_wd _ _ E). apply Qle_refl.
    + destruct (ulp_exponent_normal q NZ) as [_ B]; [lia|].
      pose proof (double_bound m k' Hm) as Y. rewrite <- Ey in Y.
      assert (Y' : (Qabs y <= 2 ^ (Binary64.ulp_exponent q + 52))%Q).
      { apply Qle_trans with (1 := Y). apply pow2_le. lia. }
      set (k := Binary64.ulp_exponent q) in *.
      assert (P : (inject_Z (2 ^ 52) * 2 ^ k == 2 ^ (k + 52))%Q).
      { rewrite pow2_Z by lia. rewrite <- Qpower_plus by exact two_neq_0.
        replace (52 + k) with (k + 52) by lia. reflexivity. }
      apply Qabs_le_iff in Y'. destruct Y' as [Y1 Y2].
      destruct (Qabs_cases q) as [[S E]|[S E]]; rewrite E in B.
      * pose proof (b64_nearest_multiple q (2 ^ 52)) as N. fold k in N.
        apply Qle_trans with (1 := N).
        rewrite (Qabs_wd _ (2 ^ (k + 52) - q)) by (rewrite P; reflexivity).
        destruct (Qabs_cases (2 ^ (k + 52) - q)) as [[S1 ->]|[S1 ->]],
                 (Qabs_cases (y - q)) as [[S2 ->]|[S2 ->]]; lra.
      * pose proof (b64_nearest_multiple q (- 2 ^ 52)) as N. fold k in N.
        apply Qle_trans with (1 := N).
        rewrite (Qabs_wd _ (- 2 ^ (k + 52) - q)).
        2:{ rewrite inject_Z_opp. rewrite <- P. ring. }
        destruct (Qabs_cases (- 2 ^ (k + 52) - q)) as [[S1 ->]|[S1 ->]],
                 (Qabs_cases (y - q)) as [[S2 ->]|[S2 ->]]; lra.
Qed.

Lemma b64_nearest_double (q : Q) : Binary64.nearest_double q (Binary64.b64 q).
Proof. split; [apply b64_is_double | intros y Hy; apply b64_nearest, Hy]. Qed.

(** A double is its own rounding. *)
Lemma b64_exact (x : Q) : Binary64.is_double x -> (Binary64.b64 x == x)%Q.
Proof.
  intro H. pose proof (b64_nearest x x H) as N.
  assert (E : (x - x == 0)%Q) by ring.
  rewrite (Qabs_wd _ _ E) in N. cbn [Qabs Z.abs Qnum Qden] in N.
  destruct (Qabs_cases (Binary64.b64 x - x)) as [[S E']|[S E']]; rewrite E' in N; lra.
Qed.

(** The rounding error: relative [2^-53], or half the spacing of the
    subnormal numbers. *)
Lemma b64_error (q : Q) :
  (Qabs (Binary64.b64 q - q) <= Qabs q * 2 ^ (-53) + 2 ^ (-1075))%Q.
Proof.
  pose proof (pow2_pos (-1075)) as P1. pose proof (pow2_pos (-53)) as P2.
  pose proof (Qabs_nonneg q) as A.
  destruct (Qeq_dec q 0) as [Z|NZ].
  - assert (E : (Binary64.b64 q - q == 0)%Q) by (rewrite (b64_0 q Z), Z; reflexivity).
    rewrite (Qabs_wd _ _ E). cbn [Qabs Z.abs Qnum Qden]. nra.
  - apply Qle_trans with (1 := b64_half_ulp q).
    destruct (Z_le_gt_dec (Binary64.ulp_exponent q) (-1074)) as [L|G].
    + assert (E : Binary64.ulp_exponent q = -1074) by (unfold Binary64.ulp_exponent in *; lia).
      rewrite E. change (-1074 - 1) with (-1075). nra.
    + destruct (ulp_exponent_normal q NZ) as [_ B]; [lia|].
      assert (E : (2 ^ (Binary64.ulp_exponent q - 1) == 2 ^ (Binary64.ulp_exponent q + 52) * 2 ^ (-53))%Q).
      { rewrite <- Qpower_plus by exact two_neq_0.
        replace (Binary64.ulp_exponent q + 52 + -53) with (Binary64.ulp_exponent q - 1) by lia.
        reflexivity. }
      rewrite E. nra.
Qed.

Lemma round_half_even_nonneg (t : Q) : (0 <= t)%Q -> 0 <= round_half_even t.
Proof.
  intro H. change 0%Q with (inject_Z 0) in H.
  apply round_half_even_mono in H. rewrite round_half_even_Z in H. exact H.
Qed.

Lemma b64_nonneg (q : Q) : (0 <= q)%Q -> (0 <= Binary64.b64 q)%Q.
Proof.
  intro H. unfold Binary64.b64. cbv zeta.
  pose proof (pow2_pos (Binary64.ulp_exponent q)) as P.
  apply Qmult_le_0_compat; [|apply Qlt_le_weak, P].
  change 0%Q with (inject_Z 0). rewrite <- Zle_Qle.
  apply round_half_even_nonneg. apply Qle_shift_div_l; [exact P|]. lra.
Qed.

(** ** [min] and [max] *)

Lemma fold_min_spec (r : list Q) (x : Q) :
  let m := fold_left (fun m y => if Qltb y m then y else m) r x in
  In m (x :: r) /\ (m <= x)%Q /\ forall y, In y r -> (m <= y)%Q.
Proof.
  revert x. induction r as [|a r IH]; intro x; cbn [fold_left].
  - split; [now left|]. split; [apply Qle_refl | intros y []].
  - destruct (Qltb a x) eqn:E.
    + apply Qltb_lt in E. destruct (IH a) as (Hin & Hle & Hall).
      split; [right; exact Hin|]. split.
      * apply Qle_trans with a; [exact Hle | apply Qlt_le_weak, E].
      * intros y [<-|Hy]; [exact Hle | apply Hall, Hy].
    + apply Qltb_ge in E. destruct (IH x) as (Hin & Hle & Hall).
      split; [destruct Hin as [<-|Hin]; [now left | right; right; exact Hin]|].
      split; [exact Hle|].
      intros y [<-|Hy]; [apply Qle_trans with x; assumption | apply Hall, Hy].
Qed.

Lemma fold_max_spec (r : list Q) (x : Q) :
  let m := fold_left (fun m y => if Qltb m y then y else m) r x in
  In m (x :: r) /\ (x <= m)%Q /\ forall y, In y r -> (y <= m)%Q.
Proof.
  revert x. induction r as [|a r IH]; intro x; cbn [fold_left].
  - split; [now left|]. split; [apply Qle_refl | intros y []].
  - destruct (Qltb x a) eqn:E.
    + apply Qltb_lt in E. destruct (IH a) as (Hin & Hle & Hall).
      split; [right; exact Hin|]. split.
      * apply Qle_trans with a; [apply Qlt_le_weak, E | exact Hle].
      * intros y [<-|Hy]; [exact Hle | apply Hall, Hy].
    + apply Qltb_ge in E. destruct (IH x) as (Hin & Hle & Hall).
      split; [destruct Hin as [<-|Hin]; [now left | right; right; exact Hin]|].
      split; [exact Hle|].
      intros y [<-|Hy]; [apply Qle_trans with x; assumption | apply Hall, Hy].
Qed.

Lemma min_spec (l : list Q) (m : Q) :
  min l = inr m -> In m l /\ forall y, In y l -> (m <= y)%Q.
Proof.
  destruct l as [|x r]; cbn; [discriminate|].
  intro H. injection H as <-.
  destruct (fold_min_spec r x) as (Hin & Hle & Hall).
  split; [exact Hin|]. intros y [<-|Hy]; [exact Hle | apply Hall, Hy].
Qed.

Lemma max_spec (l : list Q) (m : Q) :
  max l = inr m -> In m l /\ forall y, In y l -> (y <= m)%Q.
Proof.
  destruct l as [|x r]; cbn; [discriminate|].
  intro H. injection H as <-.
  destruct (fold_max_spec r x) as (Hin & Hle & Hall).
  split; [exact Hin|]. intros y [<-|Hy]; [exact Hle | apply Hall, Hy].
Qed.

Lemma min_le_max (l : list Q) (m x : Q) :
  min l = inr m -> max l = inr x -> (m <= x)%Q.
Proof.
  intros Hm Hx. apply min_spec in Hm. apply max_spec in Hx.
  apply Hx. apply Hm.
Qed.

(** ** Slices *)

Lemma slice_from_length (A : Type) (l : list A) (n : Z) :
  1 <= n -> Z.of_nat (List.length (slice_from l (-1 * n))) <= n.
Proof.
  intro H. unfold slice_from.
  assert (E : (-1 * n <? 0) = true) by (apply Z.ltb_lt; lia).
  rewrite E. rewrite length_skipn. lia.
Qed.

Lemma slice_from_keeps_last (A : Type) (l t : list A) (n : Z) :
  Z.of_nat (List.length t) <= n ->
  exists pre, slice_from (l ++ t) (-1 * n) = (pre ++ t)%list.
Proof.
  intro H. unfold slice_from.
  destruct (-1 * n <? 0) eqn:E.
  - rewrite length_app.
    set (k := Z.to_nat (Z.max 0 (-1 * n + Z.of_nat (List.length l + List.length t)))).
    assert (Hk : (k <= List.length l)%nat) by (unfold k; lia).
    rewrite skipn_app.
    replace (k - List.length l)%nat with 0%nat by lia.
    cbn [skipn]. eauto.
  - apply Z.ltb_ge in E.
    assert (Hn : n = 0) by lia. subst n.
    assert (Ht : List.length t = 0%nat) by lia.
    destruct t; [|discriminate].
    eexists. symmetry. apply app_nil_r.
Qed.

(** ** Running the methods *)

Ltac run_M :=
  cbv beta iota delta [bind ret Monad_M Monad_result read getattr modify call raise];
  cbn [fst snd _hz _count config_hz offset last_since_boot _oavg _start
       since_boot jiffies HZ _avg _min _max _delta
       with_hz with_offset with_last_since_boot with_oavg with_start
       with_since_boot with_jiffies with_HZ with_avg with_min with_max
       with_delta].

Lemma bind_M_inv (A B : Type) (m : M A) (k : A -> M B) (s s' : LKHZ) (r : result B) :
  bind m k s = (r, s') ->
  (exists e, m s = (inl e, s') /\ r = inl e) \/
  (exists a s1, m s = (inr a, s1) /\ k a s1 = (r, s')).
Proof.
  run_M. destruct (m s) as [[e|a] s1]; intro H.
  - left. exists e. injection H as <- <-. auto.
  - right. eauto.
Qed.

Lemma bind_M_ok (A B : Type) (m : M A) (k : A -> M B) (s s' : LKHZ) (b : B) :
  bind m k s = (inr b, s') ->
  exists a s1, m s = (inr a, s1) /\ k a s1 = (inr b, s').
Proof.
  intro H. apply bind_M_inv in H. destruct H as [(e & _ & E)|H]; [discriminate|exact H].
Qed.

Lemma same_window_refl (s : LKHZ) : same_window s s.
Proof. repeat split. Qed.

Lemma same_window_trans (s1 s2 s3 : LKHZ) :
  same_window s1 s2 -> same_window s2 s3 -> same_window s1 s3.
Proof.
  unfold same_window. intros (A1 & B1 & C1 & D1) (A2 & B2 & C2 & D2).
  repeat split; congruence.
Qed.

(** *** Lines 100-108 *)

Lemma _gv_since_boot_no_number (os : reads) (s : LKHZ) (e : exn) :
  uptime os = inl e -> _gv_since_boot os s = (inl e, s).
Proof.
  intro H. unfold _gv_since_boot. run_M. rewrite H. reflexivity.
Qed.

Lemma _gv_since_boot_steady (os : reads) (s : LKHZ) (r : Q) :
  uptime os = inr r ->
  Qltb 1 (Qabs (r - offset s - last_since_boot s)) = false ->
  _gv_since_boot os s =
  (inr tt, with_last_since_boot (r - offset s)
             (with_since_boot (r - offset s) s)).
Proof.
  intros Hr H. unfold _gv_since_boot. run_M. rewrite Hr, H. reflexivity.
Qed.

Lemma _gv_since_boot_resumed (os : reads) (s : LKHZ) (r : Q) :
  uptime os = inr r ->
  Qltb 1 (Qabs (r - offset s - last_since_boot s)) = true ->
  _gv_since_boot os s =
  let unapplied := with_since_boot (r - offset s + offset s)
                     (with_since_boot (r - offset s) s) in
  match cpu0_offset (timer_list os) with
  | inl e => (inl e, unapplied)
  | inr o =>
      let v := (r - offset s + offset s - o)%Q in
      (inr tt, with_last_since_boot v
                 (with_since_boot v (with_offset o unapplied)))
  end.
Proof.
  intros Hr H. unfold _gv_since_boot. run_M. rewrite Hr, H. run_M.
  destruct (cpu0_offset (timer_list os)); reflexivity.
Qed.

Lemma _gv_since_boot_frame (os : reads) (s s' : LKHZ) (r : result unit) :
  _gv_since_boot os s = (r, s') -> same_window s s'.
Proof.
  destruct (uptime os) as [e|u] eqn:Eu.
  { rewrite (_gv_since_boot_no_number _ _ _ Eu). intro H.
    apply pair_equal_spec in H. destruct H as [_ <-]. apply same_window_refl. }
  destruct (Qltb 1 (Qabs (u - offset s - last_since_boot s))) eqn:E.
  - rewrite (_gv_since_boot_resumed _ _ _ Eu E).
    destruct (cpu0_offset (timer_list os)); cbv zeta; intro H;
      apply pair_equal_spec in H; destruct H as [_ <-]; repeat split.
  - rewrite (_gv_since_boot_steady _ _ _ Eu E). intro H.
    apply pair_equal_spec in H; destruct H as [_ <-]; repeat split.
Qed.

(** *** Lines 116-130 *)

Lemma _gv_jiffies_frame (lines : list string) (s s' : LKHZ) (r : result unit) :
  _gv_jiffies lines s = (r, s') ->
  same_window s s' /\ since_boot s' = since_boot s /\ config_hz s' = config_hz s.
Proof.
  induction lines as [|ln rest IH]; cbn [_gv_jiffies].
  - run_M. intro H. injection H as <- <-. repeat split.
  - destruct (startswith ln "jiffies:"); [|exact IH].
    run_M. destruct (index (split ln ": ") 1) as [e|f].
    + intro H. injection H as <- <-. repeat split.
    + destruct (int f) as [e|j]; intro H; injection H as <- <-; repeat split.
Qed.

Lemma _gv_adj_jiffies_value (s s' : LKHZ) (adj : Z) :
  _gv_adj_jiffies s = (inr adj, s') ->
  s' = s /\
  exists j c sb, jiffies s = Some j /\ config_hz s = Some c /\
                 since_boot s = Some sb /\ adj = adj_jiffies j c sb.
Proof.
  unfold _gv_adj_jiffies. run_M.
  destruct (jiffies s) as [j|]; [|discriminate].
  destruct (config_hz s) as [c|]; run_M; [|discriminate].
  destruct (since_boot s) as [sb|]; [|discriminate].
  intro H. injection H as <- <-. split; [reflexivity|].
  exists j, c, sb. auto.
Qed.

Lemma _gv_HZ_value (adj : Z) (s s' : LKHZ) :
  _gv_HZ adj s = (inr tt, s') ->
  exists sb q, since_boot s = Some sb /\ truediv (inject_Z adj) sb = inr q /\
               s' = with_HZ (round q 8) s.
Proof.
  unfold _gv_HZ. run_M.
  destruct (since_boot s) as [sb|]; [|discriminate].
  destruct (truediv (inject_Z adj) sb) as [e|q] eqn:E; [discriminate|].
  intro H. injection H as <-. exists sb, q. auto.
Qed.

Lemma _gv_HZ_frame (adj : Z) (s s' : LKHZ) (r : result unit) :
  _gv_HZ adj s = (r, s') -> same_window s s'.
Proof.
  unfold _gv_HZ. run_M.
  destruct (since_boot s) as [sb|].
  - destruct (truediv (inject_Z adj) sb); intro H; injection H as <- <-; repeat split.
  - intro H; injection H as <- <-; repeat split.
Qed.

Lemma _gv_adj_jiffies_frame (s s' : LKHZ) (r : result Z) :
  _gv_adj_jiffies s = (r, s') -> s' = s.
Proof.
  unfold _gv_adj_jiffies. run_M.
  destruct (jiffies s) as [j|]; [| intro H; injection H as <- <-; reflexivity].
  destruct (config_hz s) as [c|]; run_M;
    [| intro H; injection H as <- <-; reflexivity].
  destruct (since_boot s) as [sb|]; intro H; injection H as <- <-; reflexivity.
Qed.

(** *** Lines 131-140 *)

Lemma _gv_avg_run (s : LKHZ) (h : Q) :
  HZ s = Some h ->
  let w := slice_from (_hz s ++ [h]) (-1 * _count s) in
  _gv_avg s =
  match truediv (sum w) (inject_Z (Z.of_nat (List.length w))) with
  | inl e => (inl e, with_hz w s)
  | inr a => (inr tt, with_avg (round a 8) (with_hz w s))
  end.
Proof.
  intro H. unfold _gv_avg. run_M. rewrite H.
  destruct (truediv _ _); reflexivity.
Qed.

Lemma truediv_length (x : Q) (A : Type) (w : list A) :
  w <> [] ->
  truediv x (inject_Z (Z.of_nat (List.length w))) =
  inr (x / inject_Z (Z.of_nat (List.length w)))%Q.
Proof.
  intro H. unfold truediv.
  destruct (Qeq_bool _ 0) eqn:E; [|reflexivity].
  apply Qeq_bool_eq in E. unfold Qeq, inject_Z in E. cbn in E.
  destruct w; [congruence | cbn in E; lia].
Qed.

Lemma truediv_length_nil (x : Q) (A : Type) :
  truediv x (inject_Z (Z.of_nat (List.length (@nil A)))) = inl ZeroDivisionError.
Proof. reflexivity. Qed.

Lemma _gv_minmax_run (s : LKHZ) :
  _gv_minmax s =
  match _min s, _max s with
  | Some m0, None => (inl AttributeError, with_hz (_hz s ++ [m0]) s)
  | _, _ =>
      let s1 := with_hz (_hz s ++ reinserted s) s in
      match min (_hz s1) with
      | inl e => (inl e, s1)
      | inr m =>
          match max (_hz s1) with
          | inl e => (inl e, with_min (round m 8) s1)
          | inr x =>
              (inr tt, with_delta (round x 8 - round m 8)
                         (with_max (round x 8) (with_min (round m 8) s1)))
          end
      end
  end.
Proof.
  unfold _gv_minmax, reinserted. run_M.
  destruct s as [hz c ch o l oa st sb j h a mn mx d]; cbn.
  destruct mn as [m0|]; cbn.
  - destruct mx as [x0|]; cbn; [|reflexivity].
    rewrite <- app_assoc. cbn [app].
    destruct (min (hz ++ [m0; x0])); [reflexivity|].
    destruct (max (hz ++ [m0; x0])); reflexivity.
  - rewrite app_nil_r.
    destruct mx; destruct (min hz); try reflexivity; destruct (max hz); reflexivity.
Qed.

(** What a call of [_gv] that returns leaves in the object. *)
Lemma _gv_ok (os : reads) (s s' : LKHZ) :
  _gv os s = (inr tt, s') ->
  exists h m x,
    let w := slice_from (_hz s ++ [h]) (-1 * _count s) in
    HZ s' = Some h /\
    w <> [] /\
    _avg s' = Some (round (sum w / inject_Z (Z.of_nat (List.length w))) 8) /\
    _hz s' = (w ++ reinserted s)%list /\
    min (_hz s') = inr m /\ max (_hz s') = inr x /\
    _min s' = Some (round m 8) /\ _max s' = Some (round x 8) /\
    _delta s' = Some (round x 8 - round m 8)%Q /\
    _count s' = _count s.
Proof.
  unfold _gv. intro H.
  apply bind_M_ok in H. destruct H as ([] & s1 & H1 & H).
  apply bind_M_ok in H. destruct H as ([] & s2 & H2 & H).
  apply bind_M_ok in H. destruct H as (adj & s3 & H3 & H).
  apply bind_M_ok in H. destruct H as ([] & s4 & H4 & H).
  apply bind_M_ok in H. destruct H as ([] & s5 & H5 & H).
  apply _gv_since_boot_frame in H1.
  apply _gv_jiffies_frame in H2. destruct H2 as (H2 & _).
  apply _gv_adj_jiffies_frame in H3. subst s3.
  pose proof (_gv_HZ_frame _ _ _ _ H4) as F4.
  apply _gv_HZ_value in H4. destruct H4 as (sb & q & _ & _ & E4).
  pose proof (same_window_trans _ _ _ H1 (same_window_trans _ _ _ H2 F4))
    as (Fhz & Fc & Fmin & Fmax).
  assert (Hh : HZ s4 = Some (round q 8)) by (subst s4; reflexivity).
  rewrite (_gv_avg_run _ _ Hh) in H5. cbv zeta in H5.
  rewrite Fhz, Fc in H5.
  set (w := slice_from (_hz s ++ [round q 8]) (-1 * _count s)) in *.
  destruct w as [|a0 w0] eqn:Ew.
  { rewrite truediv_length_nil in H5. discriminate. }
  rewrite <- Ew in *.
  assert (Hne : w <> []) by (rewrite Ew; discriminate).
  rewrite (truediv_length _ _ _ Hne) in H5. injection H5 as <-.
  rewrite _gv_minmax_run in H.
  unfold reinserted in *.
  cbn [_min _max _hz with_avg with_hz] in H.
  rewrite Fmin, Fmax in H.
  exists (round q 8).
  destruct (_min s) as [m0|], (_max s) as [x0|]; try discriminate;
    cbv zeta in H; cbn [_hz with_hz] in H;
    match type of H with
    | match min ?l with _ => _ end = _ =>
        destruct (min l) as [e|m] eqn:Em; [discriminate|];
        destruct (max l) as [e|x] eqn:Ex; [discriminate|];
        injection H as <-; exists m, x; cbn; repeat split; auto
    end.
Qed.

Lemma reinserted_length (s : LKHZ) : (List.length (reinserted s) <= 2)%nat.
Proof. unfold reinserted. destruct (_min s), (_max s); cbn; lia. Qed.

Lemma _gv_minmax_bound (s s' : LKHZ) (r : result unit) :
  _gv_minmax s = (r, s') ->
  _count s' = _count s /\
  (List.length (_hz s') <= List.length (_hz s) + 2)%nat.
Proof.
  rewrite _gv_minmax_run.
  pose proof (reinserted_length s) as L.
  assert (G : forall t, _hz (with_hz (_hz s ++ reinserted s) s) = t ->
                        (List.length t <= List.length (_hz s) + 2)%nat).
  { intros t <-. cbn. rewrite length_app. lia. }
  destruct (_min s) as [m0|], (_max s) as [x0|]; cbv zeta;
    try (intro H; injection H as <- <-; cbn; rewrite length_app; cbn; lia);
    match goal with
    | |- match min ?l with _ => _ end = _ -> _ =>
        destruct (min l); [|destruct (max l)];
        intro H; injection H as <- <-; cbn; split; auto
    end.
Qed.

Lemma _gv_avg_bound (s s' : LKHZ) (r : result unit) :
  1 <= _count s ->
  Z.of_nat (List.length (_hz s)) <= _count s + 2 ->
  _gv_avg s = (r, s') ->
  _count s' = _count s /\
  (r = inr tt -> Z.of_nat (List.length (_hz s')) <= _count s) /\
  Z.of_nat (List.length (_hz s')) <= _count s + 2.
Proof.
  intros Hc Hl.
  destruct (HZ s) as [h|] eqn:Eh.
  - rewrite (_gv_avg_run _ _ Eh). cbv zeta.
    pose proof (slice_from_length _ (_hz s ++ [h]) _ Hc) as L.
    destruct (truediv _ _); intro H; apply pair_equal_spec in H;
      destruct H as [<- <-]; cbn [_hz _count with_hz with_avg];
      (split; [reflexivity | split; [intros _|]]); lia.
  - unfold _gv_avg. run_M. rewrite Eh. intro H; injection H as <- <-.
    split; [reflexivity|]. split; [discriminate|exact Hl].
Qed.

(** Whatever a call of [_gv] does, it leaves at most [_count + 2] entries
    in the list. *)
Lemma _gv_window_bound (os : reads) (s s' : LKHZ) (r : result unit) :
  1 <= _count s ->
  Z.of_nat (List.length (_hz s)) <= _count s + 2 ->
  _gv os s = (r, s') ->
  _count s' = _count s /\ Z.of_nat (List.length (_hz s')) <= _count s + 2.
Proof.
  intros Hc Hl. unfold _gv. intro H.
  assert (K : forall t, same_window s t ->
               _count t = _count s /\ Z.of_nat (List.length (_hz t)) <= _count s + 2).
  { intros t (A & B & _). rewrite A, B. auto. }
  apply bind_M_inv in H. destruct H as [(e & H1 & _)|([] & s1 & H1 & H)];
    apply _gv_since_boot_frame in H1; [exact (K _ H1)|].
  apply bind_M_inv in H. destruct H as [(e & H2 & _)|([] & s2 & H2 & H)];
    apply _gv_jiffies_frame in H2; destruct H2 as (H2 & _);
    pose proof (same_window_trans _ _ _ H1 H2) as F2; [exact (K _ F2)|].
  apply bind_M_inv in H. destruct H as [(e & H3 & _)|(adj & s3 & H3 & H)];
    apply _gv_adj_jiffies_frame in H3; subst; [exact (K _ F2)|].
  apply bind_M_inv in H. destruct H as [(e & H4 & _)|([] & s4 & H4 & H)];
    apply _gv_HZ_frame in H4;
    pose proof (same_window_trans _ _ _ F2 H4) as F4; [exact (K _ F4)|].
  destruct (K _ F4) as (Kc & Kl).
  apply bind_M_inv in H. destruct H as [(e & H5 & _)|([] & s5 & H5 & H)];
    apply _gv_avg_bound in H5; try lia; destruct H5 as (C5 & L5 & L5').
  apply _gv_minmax_bound in H. destruct H as (C6 & L6).
  specialize (L5 eq_refl). split; lia.
Qed.

Lemma _gv_each_window_bound (oss : list reads) (s s' : LKHZ) (r : result unit) :
  1 <= _count s ->
  Z.of_nat (List.length (_hz s)) <= _count s + 2 ->
  _gv_each oss s = (r, s') ->
  _count s' = _count s /\ Z.of_nat (List.length (_hz s')) <= _count s + 2.
Proof.
  revert s. induction oss as [|os rest IH]; intros s Hc Hl; cbn [_gv_each].
  - run_M. intro H. injection H as <- <-. auto.
  - intro H. apply bind_M_inv in H.
    destruct H as [(e & H1 & _)|([] & s1 & H1 & H)];
      apply (_gv_window_bound _ _ _ _ Hc Hl) in H1; destruct H1 as (C1 & L1); [auto|].
    rewrite <- C1 in *. apply (IH s1); auto.
Qed.

(** ** Tick-bias correction (lines 126-128) *)

Lemma _gv_adj_jiffies_run (s : LKHZ) (t c : Z) (e : Q) :
  jiffies s = Some t -> config_hz s = Some c -> since_boot s = Some e ->
  _gv_adj_jiffies s = (inr (adj_jiffies t c e), s).
Proof.
  intros Hj Hc He. unfold _gv_adj_jiffies. run_M.
  rewrite Hj, Hc. run_M. rewrite He. reflexivity.
Qed.

(** C1. With raw ticks [t], configured frequency [c] and corrected elapsed
    seconds [e > 0] in the object, the adjusted tick count of [_gv] is
    [t + 300*c] when [e <= 300] and [t + 300*c - 2^32] when [e > 300],
    however large [e] is. *)
Theorem adj_jiffies_bias_correction (s : LKHZ) (t c : Z) (e : Q) :
  jiffies s = Some t -> config_hz s = Some c -> since_boot s = Some e ->
  (0 < e)%Q ->
  ((e <= 300)%Q -> _gv_adj_jiffies s = (inr (t + 300 * c), s)) /\
  ((300 < e)%Q -> _gv_adj_jiffies s = (inr (t + 300 * c - 2 ^ 32), s)).
Proof.
  intros Hj Hc He _.
  rewrite (_gv_adj_jiffies_run s t c e Hj Hc He). unfold adj_jiffies.
  split; intro H.
  - apply Qltb_ge in H. rewrite H. reflexivity.
  - apply Qltb_lt in H. rewrite H. reflexivity.
Qed.

Lemma adj_jiffies_bias_correction_witness :
  let s := with_since_boot 4100 (with_jiffies 1000000 booted) in
  (jiffies s = Some 1000000 /\ config_hz s = Some 100 /\
   since_boot s = Some 4100%Q /\ (0 < 4100)%Q) /\
  (((4100 <= 300)%Q -> _gv_adj_jiffies s = (inr (1000000 + 300 * 100), s)) /\
   ((300 < 4100)%Q ->
    _gv_adj_jiffies s = (inr (1000000 + 300 * 100 - 2 ^ 32), s))).
Proof.
  intro s. split.
  - repeat split.
  - apply (adj_jiffies_bias_correction s 1000000 100 4100); reflexivity.
Defined.

(** ** USER_HZ (lines 44-48) *)

Lemma user_hz_run (s : LKHZ) (h : Q) :
  HZ s = Some h -> user_hz s = (inr (int_of_float h), s).
Proof.
  intro H. unfold user_hz. run_M. rewrite H.
  change (2 / 50 * 50) with 0.
  destruct h as [n d]. unfold int_of_float, Qplus, inject_Z. cbn [Qnum Qden].
  rewrite Z.mul_1_r, Z.mul_0_l, Z.add_0_r, Pos.mul_1_r. reflexivity.
Qed.

(** C2. Where the specification derives USER_HZ as
    floor((HZ + 2) / 50) * 50, a multiple of 50, [user_hz] returns [int(HZ)]:
    for the estimate 249.99999999 it returns 249, the specification's value
    is 250, and 249 is no multiple of 50. *)
Theorem user_hz_of_249_99999999 (s : LKHZ) :
  let h := (24999999999 # 100000000)%Q in
  user_hz (with_HZ h s) = (inr 249, with_HZ h s) /\
  spec_user_hz h = 250 /\
  249 mod 50 <> 0.
Proof.
  cbv zeta. split; [|split].
  - rewrite (user_hz_run _ (24999999999 # 100000000)%Q); reflexivity.
  - reflexivity.
  - discriminate.
Qed.

Example __init___booted : __init__ config_100 timer_list_0 = inr booted.
Proof. vm_compute. reflexivity. Qed.

(** ** The offset tracker (lines 100-108) *)

Lemma _gv_since_boot_64_steady (os : reads) (s : LKHZ) (t : Q) :
  uptime os = inr t ->
  let a := Binary64.sub (Binary64.float t) (offset s) in
  Qltb 1 (Qabs (Binary64.sub a (last_since_boot s))) = false ->
  Binary64._gv_since_boot os s =
  (inr tt, with_last_since_boot a (with_since_boot a s)).
Proof.
  intros Hr a H. unfold Binary64._gv_since_boot. run_M. rewrite Hr. fold a.
  rewrite H. reflexivity.
Qed.

Lemma _gv_since_boot_64_resumed (os : reads) (s : LKHZ) (t : Q) :
  uptime os = inr t ->
  let a := Binary64.sub (Binary64.float t) (offset s) in
  let b := Binary64.add a (offset s) in
  Qltb 1 (Qabs (Binary64.sub a (last_since_boot s))) = true ->
  Binary64._gv_since_boot os s =
  let unapplied := with_since_boot b (with_since_boot a s) in
  match Binary64.cpu0_offset (timer_list os) with
  | inl e => (inl e, unapplied)
  | inr o' =>
      let v := Binary64.sub b o' in
      (inr tt, with_last_since_boot v
                 (with_since_boot v (with_offset o' unapplied)))
  end.
Proof.
  intros Hr a b H. unfold Binary64._gv_since_boot. run_M. rewrite Hr. fold a.
  rewrite H. run_M. fold b.
  destruct (Binary64.cpu0_offset (timer_list os)); reflexivity.
Qed.

(** Three roundings lie between the value stored after a new offset and
    the difference of the uptime and that offset. *)
Lemma three_roundings (r o o' : Q) :
  let a := Binary64.sub r o in
  let b := Binary64.add a o in
  let v := Binary64.sub b o' in
  (Qabs (v - (r - o')) <=
   (Qabs (r - o) + Qabs (a + o) + Qabs (b - o')) * 2 ^ (-53) + 3 * 2 ^ (-1075))%Q.
Proof.
  intros a b v.
  pose proof (b64_error (r - o)) as E1. fold (Binary64.sub r o) in E1. fold a in E1.
  pose proof (b64_error (a + o)) as E2. fold (Binary64.add a o) in E2. fold b in E2.
  pose proof (b64_error (b - o')) as E3. fold (Binary64.sub b o') in E3. fold v in E3.
  assert (S : (v - (r - o') == (v - (b - o')) + ((b - (a + o)) + (a - (r - o))))%Q)
    by ring.
  rewrite (Qabs_wd _ _ S).
  pose proof (Qabs_triangle (v - (b - o')) ((b - (a + o)) + (a - (r - o)))) as T1.
  pose proof (Qabs_triangle (b - (a + o)) (a - (r - o))) as T2.
  lra.
Qed.

(** C4.  In binary64, with the uptime [r] read as a double, the offset
    [o] and the last corrected value [l] of the object: line 100 stores
    [a], a double nearest to [r - o], and line 103 tests [d], a double
    nearest to [a - l].  A new offset is taken exactly when [|d| > 1].
    Without a discontinuity /proc/timer_list is not looked at, the offset
    is kept and [a] is the result.  With one, the current offset is added
    back, which gives [b], a double nearest to [a + o]; when the read of
    the reference offset returns [o'] the new offset is [o'] and the
    result is [v], a double nearest to [b - o'], which is within three
    rounding errors of [r - o']; when the read raises, the exception
    leaves the object with the old offset and the un-applied value [b]. *)
Theorem since_boot_recalibration (os : reads) (s : LKHZ) (t : Q) :
  uptime os = inr t ->
  let r := Binary64.float t in
  let o := offset s in
  let l := last_since_boot s in
  let a := Binary64.sub r o in
  let d := Binary64.sub a l in
  let b := Binary64.add a o in
  Binary64.nearest_double (r - o) a /\
  Binary64.nearest_double (a - l) d /\
  (~ (1 < Qabs d)%Q ->
   exists s', Binary64._gv_since_boot os s = (inr tt, s') /\
              offset s' = o /\
              since_boot s' = Some a /\
              last_since_boot s' = a) /\
  ((1 < Qabs d)%Q ->
   Binary64.nearest_double (a + o) b /\
   match Binary64.cpu0_offset (timer_list os) with
   | inr o' =>
       let v := Binary64.sub b o' in
       Binary64.nearest_double (b - o') v /\
       (Qabs (v - (r - o')) <=
        (Qabs (r - o) + Qabs (a + o) + Qabs (b - o')) * 2 ^ (-53)
        + 3 * 2 ^ (-1075))%Q /\
       exists s', Binary64._gv_since_boot os s = (inr tt, s') /\
                  offset s' = o' /\
                  since_boot s' = Some v /\
                  last_since_boot s' = v
   | inl e =>
       exists s', Binary64._gv_since_boot os s = (inl e, s') /\
                  offset s' = o /\
                  since_boot s' = Some b /\
                  last_since_boot s' = l
   end).
Proof.
  intros Hr r o l a d b.
  split; [apply b64_nearest_double|]. split; [apply b64_nearest_double|].
  split; intro H.
  - assert (E : Qltb 1 (Qabs d) = false).
    { apply Qltb_ge. apply Qnot_lt_le. exact H. }
    rewrite (_gv_since_boot_64_steady os s t Hr E).
    eexists. split; [reflexivity|]. repeat split.
  - split; [apply b64_nearest_double|].
    apply Qltb_lt in H.
    rewrite (_gv_since_boot_64_resumed os s t Hr H). cbv zeta.
    destruct (Binary64.cpu0_offset (timer_list os)) as [e|o'].
    + eexists. split; [reflexivity|]. repeat split.
    + split; [apply b64_nearest_double|].
      split; [apply three_roundings|].
      eexists. split; [reflexivity|]. repeat split.
Qed.

Lemma since_boot_recalibration_witness :
  (uptime poll_half_later = inr (1433792 # 100)%Q /\
   let a := Binary64.sub (Binary64.float (1433792 # 100)) (offset resumed_once) in
   ~ (1 < Qabs (Binary64.sub a (last_since_boot resumed_once)))%Q /\
   exists s', Binary64._gv_since_boot poll_half_later resumed_once = (inr tt, s') /\
              offset s' = offset resumed_once /\
              since_boot s' = Some a /\
              last_since_boot s' = a) /\
  (uptime poll_resumed_twice = inr (6355398 # 100)%Q /\
   Binary64.cpu0_offset (timer_list poll_resumed_twice) =
   inr (Binary64.b64 (inject_Z 62803757405411 / inject_Z 1000000000)) /\
   let r := Binary64.float (6355398 # 100) in
   let o := offset resumed_once in
   let o' := Binary64.b64 (inject_Z 62803757405411 / inject_Z 1000000000) in
   let a := Binary64.sub r o in
   let b := Binary64.add a o in
   let v := Binary64.sub b o' in
   (1 < Qabs (Binary64.sub a (last_since_boot resumed_once)))%Q /\
   (Qabs (v - (r - o')) <=
    (Qabs (r - o) + Qabs (a + o) + Qabs (b - o')) * 2 ^ (-53)
    + 3 * 2 ^ (-1075))%Q /\
   exists s', Binary64._gv_since_boot poll_resumed_twice resumed_once = (inr tt, s') /\
              offset s' = o' /\
              since_boot s' = Some v /\
              last_since_boot s' = v).
Proof.
  split.
  - split; [reflexivity|]. cbv zeta.
    assert (N : ~ (1 < Qabs (Binary64.sub
                   (Binary64.sub (Binary64.float (1433792 # 100)) (offset resumed_once))
                   (last_since_boot resumed_once)))%Q)
      by (vm_compute; discriminate).
    split; [exact N|].
    exact (proj1 (proj2 (proj2
             (since_boot_recalibration poll_half_later resumed_once
                (1433792 # 100) eq_refl))) N).
  - split; [reflexivity|]. split; [reflexivity|]. cbv zeta.
    assert (J : (1 < Qabs (Binary64.sub
                   (Binary64.sub (Binary64.float (6355398 # 100)) (offset resumed_once))
                   (last_since_boot resumed_once)))%Q)
      by (vm_compute; reflexivity).
    split; [exact J|].
    pose proof (proj2 (proj2 (proj2 (proj2
             (since_boot_recalibration poll_resumed_twice resumed_once
                (6355398 # 100) eq_refl))) J)) as W.
    change (Binary64.cpu0_offset (timer_list poll_resumed_twice))
      with (@inr exn Q (Binary64.b64 (inject_Z 62803757405411 / inject_Z 1000000000)))
      in W.
    cbv zeta in W. exact (proj2 W).
Defined.

(** The value stored after the second resume is not the difference of
    the uptime read and the new offset, neither the exact one nor the one
    binary64 subtraction gives: the current offset has been subtracted and
    added back in between.  The uptime is 63553.98, the offset goes from
    13587.215253701 to 62803.757405411, the result is 750.222594588995 and
    the difference is 750.2225945890023. *)
Lemma recalibration_is_not_uptime_minus_new_offset :
  let r := Binary64.float (6355398 # 100) in
  exists (o' : Q) (s' : LKHZ) (v : Q),
    uptime poll_resumed_twice = inr (6355398 # 100)%Q /\
    Binary64.cpu0_offset (timer_list poll_resumed_twice) = inr o' /\
    Binary64._gv_since_boot poll_resumed_twice resumed_once = (inr tt, s') /\
    offset s' = o' /\
    since_boot s' = Some v /\
    (v == 25173293035 # 33554432)%Q /\
    (Binary64.sub r o' == 103109808271361 # 137438953472)%Q /\
    ~ (v == Binary64.sub r o')%Q /\
    ~ (v == r - o')%Q.
Proof.
  intro r.
  destruct (Binary64._gv_since_boot poll_resumed_twice resumed_once) as [res s'] eqn:E.
  exists (Binary64.b64 (inject_Z 62803757405411 / inject_Z 1000000000)), s'.
  vm_compute in E. apply pair_equal_spec in E. destruct E as [<- <-].
  eexists. split; [reflexivity|]. split; [reflexivity|]. split; [reflexivity|].
  split; [vm_compute; reflexivity|]. split; [reflexivity|].
  split; [vm_compute; reflexivity|]. split; [vm_compute; reflexivity|].
  split; vm_compute; discriminate.
Qed.

(** The same subtraction, addition and subtraction in the binary64
    arithmetic of the kernel of the proof assistant give the same doubles. *)
Example recalibration_in_hardware_floats :
  let r := PrimFloat.div (float_of_Z 6355398) (float_of_Z 100) in
  let o := PrimFloat.div (float_of_Z 13587215253701) (float_of_Z 1000000000) in
  let o' := PrimFloat.div (float_of_Z 62803757405411) (float_of_Z 1000000000) in
  let v := PrimFloat.sub (PrimFloat.add (PrimFloat.sub r o) o) o' in
  denotes r (Binary64.float (6355398 # 100)) = true /\
  denotes o (offset resumed_once) = true /\
  denotes (PrimFloat.add (PrimFloat.sub r o) o)
          (Binary64.add (Binary64.sub (Binary64.float (6355398 # 100))
                           (offset resumed_once)) (offset resumed_once)) = true /\
  denotes v (25173293035 # 33554432) = true /\
  denotes (PrimFloat.sub r o') (103109808271361 # 137438953472) = true /\
  PrimFloat.eqb v (PrimFloat.sub r o') = false.
Proof. vm_compute. repeat split. Qed.

(** A step of one second can count as a discontinuity: with the offset
    0.3 the corrected values of the uptimes 511.50 and 512.50 are
    1.0000000000000568 apart, and the offset is read again (here from a
    listing whose offset is 0). *)
Example one_second_step_recalibrates :
  let a := Binary64.sub (Binary64.float (51250 # 100)) (offset offset_three_tenths) in
  let d := Binary64.sub a (last_since_boot offset_three_tenths) in
  (d == 17592186044417 # 17592186044416)%Q /\
  (1 < Qabs d)%Q /\
  ((51250 # 100) - (51150 # 100) == 1)%Q /\
  ~ (offset offset_three_tenths == 0)%Q /\
  (offset (snd (Binary64._gv_since_boot poll_one_second_later offset_three_tenths))
   == 0)%Q.
Proof.
  split; [vm_compute; reflexivity|]. split; [vm_compute; reflexivity|].
  split; [reflexivity|]. split; [vm_compute; discriminate|].
  vm_compute. reflexivity.
Qed.

(** ** The reference offset (lines 50-73) *)

Lemma cpu0_offset_loop_no_match (lines : list string) (offset : Z) :
  (forall line, In line lines ->
                endswith line ("ktime_get_boottime" ++ nl) = false) ->
  cpu0_offset_loop 2 offset lines = inr offset.
Proof.
  induction lines as [|line rest IH]; intro H; cbn [cpu0_offset_loop].
  - reflexivity.
  - change (2 =? 2) with true. cbv iota.
    rewrite (H line (or_introl eq_refl)).
    change (2 =? 0) with false. cbv iota.
    apply IH. intros l Hl. apply H. right. exact Hl.
Qed.

(** C5, as the code has it.  When no line of the listing ends with
    [ktime_get_boottime], [cpu0_offset] raises nothing: it returns the
    initial value of [offset], 0 nanoseconds, as 0.0 seconds. *)
Theorem cpu0_offset_without_boottime (timer_list : list string) :
  (forall line, In line timer_list ->
                endswith line ("ktime_get_boottime" ++ nl) = false) ->
  exists o, cpu0_offset timer_list = inr o /\ (o == 0)%Q.
Proof.
  intro H. unfold cpu0_offset.
  rewrite (cpu0_offset_loop_no_match timer_list 0 H).
  eexists. split; [reflexivity|]. reflexivity.
Qed.

Lemma timer_list_without_boottime_no_match (line : string) :
  In line timer_list_without_boottime ->
  endswith line ("ktime_get_boottime" ++ nl) = false.
Proof.
  unfold timer_list_without_boottime. cbn [In].
  intros [<-|[<-|[<-|[<-|[<-|[<-|[]]]]]]]; reflexivity.
Qed.

Lemma cpu0_offset_without_boottime_witness :
  (forall line, In line timer_list_without_boottime ->
                endswith line ("ktime_get_boottime" ++ nl) = false) /\
  exists o, cpu0_offset timer_list_without_boottime = inr o /\ (o == 0)%Q.
Proof.
  split.
  - exact timer_list_without_boottime_no_match.
  - exact (cpu0_offset_without_boottime timer_list_without_boottime
             timer_list_without_boottime_no_match).
Defined.

(** C5 as stated fails: here is a listing without the identifier on which
    [cpu0_offset] returns a number instead of raising. *)
Lemma cpu0_offset_returns_a_fallback :
  ~ (forall timer_list : list string,
       (forall line, In line timer_list ->
                     endswith line ("ktime_get_boottime" ++ nl) = false) ->
       exists e, cpu0_offset timer_list = inl e).
Proof.
  intro H.
  destruct (H timer_list_without_boottime timer_list_without_boottime_no_match)
    as (e & He).
  vm_compute in He. discriminate He.
Qed.

(** ** The configured frequency (lines 26-35) *)


(** The first line that starts with [CONFIG_HZ=] decides the result. *)
Lemma _read_kernel_config_gz_first_match (pre : list string) (ln : string)
      (post : list string) :
  (forall l, In l pre -> startswith l "CONFIG_HZ=" = false) ->
  startswith ln "CONFIG_HZ=" = true ->
  _read_kernel_config_gz (pre ++ ln :: post) =
  (_hz <- index (split (decode ln) "=") 1 ;; _hz <- int _hz ;; ret (Some _hz)).
Proof.
  intros Hpre Hln. induction pre as [|l pre IH]; cbn [app _read_kernel_config_gz].
  - rewrite Hln. reflexivity.
  - rewrite (Hpre l (or_introl eq_refl)). apply IH.
    intros l' Hl'. apply Hpre. right. exact Hl'.
Qed.

Lemma digit_char_facts (d : nat) :
  (d < 10)%nat ->
  let c := digit_char d in
  is_digit c = true /\ digit_value c = Z.of_nat d /\ isspace c = false /\
  Ascii.eqb c "=" = false /\ Ascii.eqb c "-" = false /\ Ascii.eqb c "+" = false.
Proof.
  intro H.
  do 10 (destruct d as [|d]; [cbv; repeat split|]).
  lia.
Qed.

Lemma parse_digits_numeral (ds : list nat) (acc : Z) (seen : bool) :
  Forall (fun d => (d < 10)%nat) ds ->
  ds <> [] \/ seen = true ->
  parse_digits acc seen (numeral ds) =
  Some (fold_left (fun a d => 10 * a + Z.of_nat d) ds acc).
Proof.
  intro F. revert acc seen. induction F as [|d ds Hd F IH]; intros acc seen H.
  - destruct H as [H|H]; [congruence|]. subst seen. reflexivity.
  - cbn [numeral fold_right fold_left parse_digits].
    destruct (digit_char_facts d Hd) as (D1 & D2 & _).
    fold (digit_char d). rewrite D1, D2. apply IH. now right.
Qed.

Lemma digit_char_isspace_int (d : nat) :
  (d < 10)%nat -> isspace_int (digit_char d) = false.
Proof.
  intro H.
  do 10 (destruct d as [|d]; [reflexivity|]).
  lia.
Qed.


Lemma rstrip_int_numeral (ds : list nat) :
  Forall (fun d => (d < 10)%nat) ds -> rstrip_int (numeral ds) = numeral ds.
Proof.
  induction 1 as [|d ds Hd F IH]; [reflexivity|].
  cbn [numeral fold_right rstrip_int]. fold (numeral ds). rewrite IH.
  rewrite (digit_char_isspace_int d Hd).
  destruct (numeral ds); reflexivity.
Qed.

Lemma rstrip_numeral_nl (ds : list nat) :
  Forall (fun d => (d < 10)%nat) ds ->
  rstrip (numeral ds ++ nl) = numeral ds.
Proof.
  induction 1 as [|d ds Hd F IH].
  - reflexivity.
  - cbn [numeral fold_right String.append rstrip].
    fold (numeral ds). rewrite IH.
    destruct (digit_char_facts d Hd) as (_ & _ & D3 & _).
    fold (digit_char d). rewrite D3.
    destruct (numeral ds); reflexivity.
Qed.






Lemma config_without_hz_no_match (ln : string) :
  In ln config_without_hz -> startswith ln "CONFIG_HZ=" = false.
Proof.
  unfold config_without_hz. cbn [In].
  intros [<-|[<-|[<-|[]]]]; reflexivity.
Qed.



(** ** The instantaneous estimate (line 130) *)

Lemma pow10_8 : pow10 8 = 100000000%positive.
Proof. reflexivity. Qed.

(** [Py.round x 8] is a numeral with 8 digits nearest to [x]. *)
Lemma round_8_nearest (x : Q) :
  (Qabs ((round_half_even (x * inject_Z 100000000) # 100000000) - x)
   <= 1 # 200000000)%Q.
Proof.
  pose proof (round_half_even_half (x * inject_Z 100000000)) as H.
  set (z := round_half_even (x * inject_Z 100000000)) in *.
  assert (E : ((z # 100000000) - x ==
               (inject_Z z - x * inject_Z 100000000) * (1 # 100000000))%Q).
  { rewrite (Qmake_Qdiv z 100000000). field. }
  rewrite (Qabs_wd _ _ E), Qabs_Qmult.
  change (Qabs (1 # 100000000)) with (1 # 100000000)%Q.
  change (1 # 200000000)%Q with ((1 # 2) * (1 # 100000000))%Q.
  apply Qmult_le_compat_r; [exact H | discriminate].
Qed.

(** C8.  In binary64, with the corrected elapsed seconds [e] in the
    object: when [e] is 0 the division raises ZeroDivisionError and [HZ]
    is not assigned, so no infinity and no NaN is stored.  When [e > 0]
    the method stores [h], obtained in four steps: [a] is a double nearest
    to the int [adj], [x] a double nearest to the quotient [a / e],
    [z / 10^8] a numeral with 8 decimal digits nearest to [x], and [h] a
    double nearest to that numeral; [h] is not negative when [adj] is
    not. *)
Theorem instantaneous_HZ (s : LKHZ) (adj : Z) (e : Q) :
  since_boot s = Some e ->
  ((e == 0)%Q -> Binary64._gv_HZ adj s = (inl ZeroDivisionError, s)) /\
  ((0 < e)%Q ->
   let a := Binary64.float_of_int adj in
   let x := Binary64.b64 (a / e) in
   let z := round_half_even (x * inject_Z 100000000) in
   let h := Binary64.b64 (z # 100000000) in
   Binary64._gv_HZ adj s = (inr tt, with_HZ h s) /\
   Binary64.nearest_double (inject_Z adj) a /\
   Binary64.nearest_double (a / e) x /\
   (Qabs ((z # 100000000) - x) <= 1 # 200000000)%Q /\
   Binary64.nearest_double (z # 100000000) h /\
   (0 <= adj -> (0 <= h)%Q)).
Proof.
  intro He. unfold Binary64._gv_HZ, Binary64.truediv. run_M. rewrite He.
  split; intro H.
  - apply Qeq_bool_iff in H. rewrite H. reflexivity.
  - assert (N : Qeq_bool e 0 = false).
    { destruct (Qeq_bool e 0) eqn:E; [|reflexivity].
      apply Qeq_bool_iff in E. rewrite E in H. discriminate H. }
    rewrite N. cbv zeta.
    split; [reflexivity|].
    split; [apply b64_nearest_double|]. split; [apply b64_nearest_double|].
    split; [apply round_8_nearest|]. split; [apply b64_nearest_double|].
    intro Hadj. apply b64_nonneg.
    change (0 <= round (Binary64.b64 (Binary64.float_of_int adj / e)) 8)%Q.
    apply round_nonneg, b64_nonneg.
    apply Qle_shift_div_l; [exact H|]. rewrite Qmult_0_l.
    apply b64_nonneg. unfold Qle; cbn. lia.
Qed.

Lemma instantaneous_HZ_witness :
  let s := with_since_boot 3 booted in
  since_boot s = Some 3%Q /\
  (0 < 3)%Q /\
  let a := Binary64.float_of_int 1000 in
  let x := Binary64.b64 (a / 3) in
  let z := round_half_even (x * inject_Z 100000000) in
  let h := Binary64.b64 (z # 100000000) in
  Binary64._gv_HZ 1000 s = (inr tt, with_HZ h s) /\
  Binary64.nearest_double (inject_Z 1000) a /\
  Binary64.nearest_double (a / 3) x /\
  (Qabs ((z # 100000000) - x) <= 1 # 200000000)%Q /\
  Binary64.nearest_double (z # 100000000) h /\
  (0 <= 1000 -> (0 <= h)%Q).
Proof.
  intro s. split; [reflexivity|]. split; [reflexivity|].
  exact (proj2 (instantaneous_HZ s 1000 3 eq_refl) eq_refl).
Defined.

(** 1000 ticks in 3 seconds: the quotient is the double nearest to
    1000/3, the numeral is 333.33333333, and the estimate is the double
    nearest to that numeral. *)
Example _gv_HZ_of_a_third :
  let x := Binary64.b64 (Binary64.float_of_int 1000 / 3) in
  (x == 5864062014805333 # 17592186044416)%Q /\
  round_half_even (x * inject_Z 100000000) = 33333333333 /\
  exists h, HZ (snd (Binary64._gv_HZ 1000 (with_since_boot 3 booted))) = Some h /\
            (h == 5864062014746693 # 17592186044416)%Q.
Proof.
  split; [vm_compute; reflexivity|]. split; [vm_compute; reflexivity|].
  eexists. split; [reflexivity|]. vm_compute. reflexivity.
Qed.

(** The double is rounded, not the exact quotient: 256003 ticks in 2560
    seconds are 100.001171875 per second, a tie between two numerals; the
    double nearest to it lies below, so the estimate is 100.00117187,
    where the rounding of the exact quotient gives 100.00117188. *)
Example _gv_HZ_below_a_tie :
  let s := with_since_boot 2560 booted in
  (exists h, HZ (snd (Binary64._gv_HZ 256003 s)) = Some h /\
             (h == Binary64.b64 (10000117187 # 100000000))%Q) /\
  HZ (snd (_gv_HZ 256003 s)) = Some (10000117188 # 100000000)%Q.
Proof.
  split; [|vm_compute; reflexivity].
  eexists. split; [reflexivity|]. vm_compute. reflexivity.
Qed.

(** The quotient and the estimate of [_gv_HZ_of_a_third] in the binary64
    arithmetic of the kernel of the proof assistant. *)
Example quotient_in_hardware_floats :
  denotes (PrimFloat.div (float_of_Z 1000) (float_of_Z 3))
          (Binary64.b64 (Binary64.float_of_int 1000 / 3)) = true /\
  denotes (PrimFloat.div (float_of_Z 33333333333) (float_of_Z 100000000))
          (Binary64.b64 (33333333333 # 100000000)) = true.
Proof. vm_compute. repeat split. Qed.

(** The whole call raises when the corrected elapsed time is 0: here the
    uptime equals the offset. *)
Example _gv_zero_elapsed :
  fst (_gv (poll 0 "0.00 0.00" "jiffies: 4294937296") booted) =
  inl ZeroDivisionError.
Proof. vm_compute. reflexivity. Qed.

(** ** Ticks to timestamps (lines 75-93) *)




(** ** The rolling window (lines 131-140) *)

(** C9.  In every run of [_gv] from an object whose list holds at most
    [_count + 2] entries (it is empty after [__init__]) and whose capacity
    [_count] is at least 1 (it is 100 after [__init__]): however the run
    [oss] went and whatever the next call does, the list holds at most
    [_count + 2] entries afterwards, and when the call returns, the entries
    it averaged are at least 1 and at most [_count], and the list its
    minimum and maximum are taken from is these entries followed by the at
    most two re-inserted extremes. *)
Theorem window_capacity (s0 : LKHZ) (oss : list reads) (os : reads)
        (r r' : result unit) (s s' : LKHZ) :
  1 <= _count s0 ->
  Z.of_nat (List.length (_hz s0)) <= _count s0 + 2 ->
  _gv_each oss s0 = (r, s) ->
  _gv os s = (r', s') ->
  _count s' = _count s0 /\
  Z.of_nat (List.length (_hz s')) <= _count s0 + 2 /\
  (r' = inr tt ->
   exists h w,
     HZ s' = Some h /\
     w = slice_from (_hz s ++ [h]) (-1 * _count s0) /\
     _avg s' = Some (round (sum w / inject_Z (Z.of_nat (List.length w))) 8) /\
     1 <= Z.of_nat (List.length w) <= _count s0 /\
     _hz s' = (w ++ reinserted s)%list /\
     (List.length (reinserted s) <= 2)%nat /\
     exists m x,
       min (_hz s') = inr m /\ _min s' = Some (round m 8) /\
       max (_hz s') = inr x /\ _max s' = Some (round x 8)).
Proof.
  intros Hc Hl Hrun Hstep.
  destruct (_gv_each_window_bound oss s0 s r Hc Hl Hrun) as (Cs & Ls).
  rewrite <- Cs in Hc, Ls.
  destruct (_gv_window_bound os s s' r' Hc Ls Hstep) as (Cs' & Ls').
  rewrite Cs in *.
  split; [exact Cs'|]. split; [exact Ls'|].
  intros ->. destruct (_gv_ok os s s' Hstep)
    as (h & m & x & Hh & Hne & Havg & Hhz & Hm & Hx & Emin & Emax & _).
  rewrite Cs in *.
  exists h, (slice_from (_hz s ++ [h]) (-1 * _count s0)).
  split; [exact Hh|]. split; [reflexivity|]. split; [exact Havg|].
  split; [|split; [exact Hhz | split; [apply reinserted_length|]]].
  - split.
    + destruct (slice_from (_hz s ++ [h]) (-1 * _count s0));
        [congruence | cbn; lia].
    + apply slice_from_length. exact Hc.
  - exists m, x. auto.
Qed.

Lemma window_capacity_witness :
  let s := snd (_gv_each [poll_1; poll_2] booted) in
  let s' := snd (_gv poll_3 s) in
  (1 <= _count booted /\
   Z.of_nat (List.length (_hz booted)) <= _count booted + 2 /\
   _gv_each [poll_1; poll_2] booted = (inr tt, s) /\
   _gv poll_3 s = (inr tt, s')) /\
  _count s' = _count booted /\
  Z.of_nat (List.length (_hz s')) <= _count booted + 2 /\
  (@inr exn unit tt = inr tt ->
   exists h w,
     HZ s' = Some h /\
     w = slice_from (_hz s ++ [h]) (-1 * _count booted) /\
     _avg s' = Some (round (sum w / inject_Z (Z.of_nat (List.length w))) 8) /\
     1 <= Z.of_nat (List.length w) <= _count booted /\
     _hz s' = (w ++ reinserted s)%list /\
     (List.length (reinserted s) <= 2)%nat /\
     exists m x,
       min (_hz s') = inr m /\ _min s' = Some (round m 8) /\
       max (_hz s') = inr x /\ _max s' = Some (round x 8)).
Proof.
  intros s s'.
  assert (H1 : 1 <= _count booted) by (cbn; lia).
  assert (H2 : Z.of_nat (List.length (_hz booted)) <= _count booted + 2)
    by (cbn; lia).
  assert (H3 : _gv_each [poll_1; poll_2] booted = (inr tt, s))
    by (vm_compute; reflexivity).
  assert (H4 : _gv poll_3 s = (inr tt, s')) by (vm_compute; reflexivity).
  split; [auto|].
  exact (window_capacity booted [poll_1; poll_2] poll_3 (inr tt) (inr tt) s s'
           H1 H2 H3 H4).
Defined.

(** With capacity 1 the list does reach 3 entries: the second call averages
    one value and takes its extremes from three. *)
Example window_of_capacity_1 :
  let s0 := mkLKHZ [] 1 (Some 100) 0 0 0 None None None None None None None
              None in
  let s2 := snd (_gv_each [poll_1; poll_2] s0) in
  map Qred (_hz s2) = [102; 100; 100]%Q /\
  option_map Qred (_avg s2) = Some 102%Q.
Proof. vm_compute. repeat split. Qed.

(** What one returning call reports. *)
Lemma _gv_reports (os : reads) (s0 s1 : LKHZ) :
  _gv os s0 = (inr tt, s1) ->
  exists m x d,
    _min s1 = Some m /\ _max s1 = Some x /\ _delta s1 = Some d /\
    (d == x - m)%Q /\ (0 <= d)%Q.
Proof.
  intro H1.
  destruct (_gv_ok os s0 s1 H1)
    as (h1 & m1 & x1 & _ & _ & _ & _ & Hm1 & Hx1 & Emin1 & Emax1 & Ed1 & _).
  exists (round m1 8), (round x1 8), (round x1 8 - round m1 8)%Q.
  repeat (split; [assumption || reflexivity|]).
  assert (L1 : (round m1 8 <= round x1 8)%Q)
    by (apply round_mono, (min_le_max _ _ _ Hm1 Hx1)).
  lra.
Qed.

(** Two consecutive returning calls: the second finds the extremes of the
    first in the list. *)
Lemma _gv_twice_extremes (os1 os2 : reads) (s0 s1 s2 : LKHZ)
      (m1 x1 m2 x2 : Q) :
  _gv os1 s0 = (inr tt, s1) ->
  _gv os2 s1 = (inr tt, s2) ->
  _min s1 = Some m1 -> _max s1 = Some x1 ->
  _min s2 = Some m2 -> _max s2 = Some x2 ->
  (m2 <= m1)%Q /\ (x1 <= x2)%Q.
Proof.
  intros H1 H2 Em1 Ex1 Em2 Ex2.
  destruct (_gv_ok os1 s0 s1 H1)
    as (h1 & a1 & b1 & _ & _ & _ & _ & _ & _ & Emin1 & Emax1 & _).
  destruct (_gv_ok os2 s1 s2 H2)
    as (h2 & a2 & b2 & _ & _ & _ & Hhz2 & Hm2 & Hx2 & Emin2 & Emax2 & _).
  unfold reinserted in Hhz2. rewrite Emin1, Emax1 in Hhz2.
  assert (m1 = round a1 8) by congruence.
  assert (x1 = round b1 8) by congruence.
  assert (m2 = round a2 8) by congruence.
  assert (x2 = round b2 8) by congruence.
  subst m1 x1 m2 x2. split.
  - rewrite <- (round_idem a1 8). apply round_mono.
    apply (proj2 (min_spec _ _ Hm2)). rewrite Hhz2.
    apply in_or_app. right. now left.
  - rewrite <- (round_idem b1 8). apply round_mono.
    apply (proj2 (max_spec _ _ Hx2)). rewrite Hhz2.
    apply in_or_app. right. right. now left.
Qed.

(** Every object of a run comes out of a returning call on the one before. *)
Lemma states_after_nth (oss : list reads) (s0 : LKHZ) (k : nat) (s : LKHZ) :
  nth_error (states_after oss s0) k = Some s ->
  exists prev os,
    _gv os prev = (inr tt, s) /\
    match k with
    | O => prev = s0
    | S k' => nth_error (states_after oss s0) k' = Some prev
    end.
Proof.
  revert s0 k. induction oss as [|os rest IH]; intros s0 k; cbn [states_after].
  - destruct k; discriminate.
  - destruct (_gv os s0) as [[e|[]] s1] eqn:E.
    + destruct k; discriminate.
    + destruct k as [|k]; cbn [nth_error].
      * intro H. injection H as <-. exists s0, os. auto.
      * intro H. destruct (IH s1 k H) as (prev & os' & Hstep & Hprev).
        exists prev, os'. split; [exact Hstep|].
        destruct k as [|k']; [subst prev; reflexivity | exact Hprev].
Qed.

(** C10.  In every run of [_gv], each call that returns reports a minimum,
    a maximum and their difference, which is not negative; and from one
    returning call to any later one of the run the minimum does not grow,
    the maximum does not shrink and the difference does not decrease. *)
Theorem extremes_are_permanent (oss : list reads) (s0 : LKHZ) (i j : nat)
        (si sj : LKHZ) :
  (i <= j)%nat ->
  nth_error (states_after oss s0) i = Some si ->
  nth_error (states_after oss s0) j = Some sj ->
  exists mi xi di mj xj dj,
    _min si = Some mi /\ _max si = Some xi /\ _delta si = Some di /\
    _min sj = Some mj /\ _max sj = Some xj /\ _delta sj = Some dj /\
    (di == xi - mi)%Q /\ (dj == xj - mj)%Q /\
    (mj <= mi)%Q /\ (xi <= xj)%Q /\
    (0 <= di)%Q /\ (0 <= dj)%Q /\ (di <= dj)%Q.
Proof.
  intros Hij Hi. revert sj.
  destruct (states_after_nth oss s0 i si Hi) as (pi & osi & Hstepi & _).
  destruct (_gv_reports osi pi si Hstepi) as (mi & xi & di & Emi & Exi & Edi & Di & Pi).
  induction Hij as [|j Hij IH]; intros sj Hj.
  - assert (sj = si) by congruence. subst sj.
    exists mi, xi, di, mi, xi, di.
    repeat (split; [assumption|]).
    repeat split; try assumption; apply Qle_refl.
  - destruct (states_after_nth oss s0 (S j) sj Hj) as (sk & osj & Hstepj & Hk).
    destruct (IH sk Hk)
      as (mi' & xi' & di' & mk & xk & dk & Emi' & Exi' & Edi' & Emk & Exk & Edk
          & _ & Dk & Lm & Lx & _ & Pk & Ld).
    assert (mi' = mi) by congruence. assert (xi' = xi) by congruence.
    assert (di' = di) by congruence. subst mi' xi' di'.
    destruct (states_after_nth oss s0 j sk Hk) as (pk & osk & Hstepk & _).
    destruct (_gv_reports osj sk sj Hstepj)
      as (mj & xj & dj & Emj & Exj & Edj & Dj & Pj).
    destruct (_gv_twice_extremes osk osj pk sk sj mk xk mj xj
                Hstepk Hstepj Emk Exk Emj Exj) as (Lm' & Lx').
    exists mi, xi, di, mj, xj, dj.
    repeat (split; [assumption|]).
    repeat split; try assumption; lra.
Qed.

Lemma extremes_are_permanent_witness :
  let states := states_after [poll_1; poll_2; poll_3] booted in
  let s1 := snd (_gv poll_1 booted) in
  let s3 := snd (_gv_each [poll_1; poll_2; poll_3] booted) in
  ((0 <= 2)%nat /\ nth_error states 0 = Some s1 /\ nth_error states 2 = Some s3) /\
  exists m1 x1 d1 m3 x3 d3,
    _min s1 = Some m1 /\ _max s1 = Some x1 /\ _delta s1 = Some d1 /\
    _min s3 = Some m3 /\ _max s3 = Some x3 /\ _delta s3 = Some d3 /\
    (d1 == x1 - m1)%Q /\ (d3 == x3 - m3)%Q /\
    (m3 <= m1)%Q /\ (x1 <= x3)%Q /\
    (0 <= d1)%Q /\ (0 <= d3)%Q /\ (d1 <= d3)%Q.
Proof.
  intros states s1 s3.
  assert (H0 : (0 <= 2)%nat) by (repeat constructor).
  assert (H1 : nth_error states 0 = Some s1) by (vm_compute; reflexivity).
  assert (H3 : nth_error states 2 = Some s3) by (vm_compute; reflexivity).
  split; [auto|].
  exact (extremes_are_permanent [poll_1; poll_2; poll_3] booted 0 2 s1 s3
           H0 H1 H3).
Defined.

(** C3, as the code has it.  There is one list.  A call that returns
    averages the at most [_count] last entries of that list after it
    appended the new value, and leaves the list with the previous minimum
    and maximum appended; so when a minimum [m] and a maximum [x] existed
    before the first of two consecutive calls and [_count] is at least 3,
    the entries the second call averages end with [m], [x] and its own
    new value. *)
Theorem average_over_the_shared_list (os1 os2 : reads) (s0 s1 s2 : LKHZ)
        (m x : Q) :
  3 <= _count s0 ->
  _min s0 = Some m -> _max s0 = Some x ->
  _gv os1 s0 = (inr tt, s1) ->
  _gv os2 s1 = (inr tt, s2) ->
  exists h2 w pre,
    HZ s2 = Some h2 /\
    w = slice_from (_hz s1 ++ [h2]) (-1 * _count s0) /\
    _avg s2 = Some (round (sum w / inject_Z (Z.of_nat (List.length w))) 8) /\
    Z.of_nat (List.length w) <= _count s0 /\
    w = (pre ++ [m; x; h2])%list.
Proof.
  intros Hc Hm Hx H1 H2.
  destruct (_gv_ok os1 s0 s1 H1)
    as (h1 & m1 & x1 & _ & _ & _ & Hhz1 & _ & _ & _ & _ & _ & C1).
  destruct (_gv_ok os2 s1 s2 H2)
    as (h2 & m2 & x2 & Hh2 & _ & Havg2 & _).
  rewrite C1 in Havg2.
  unfold reinserted in Hhz1. rewrite Hm, Hx in Hhz1.
  assert (E : (_hz s1 ++ [h2])%list =
              ((slice_from (_hz s0 ++ [h1]) (-1 * _count s0)) ++ [m; x; h2])%list).
  { rewrite Hhz1, <- app_assoc. reflexivity. }
  destruct (slice_from_keeps_last _
              (slice_from (_hz s0 ++ [h1]) (-1 * _count s0)) [m; x; h2]
              (_count s0)) as (pre & Hpre); [cbn; lia|].
  exists h2, (slice_from (_hz s1 ++ [h2]) (-1 * _count s0)), pre.
  split; [exact Hh2|]. split; [reflexivity|]. split; [exact Havg2|].
  split; [apply slice_from_length; lia|].
  rewrite E. exact Hpre.
Qed.

Lemma average_over_the_shared_list_witness :
  let s1 := snd (_gv poll_1 booted) in
  let s2 := snd (_gv poll_2 s1) in
  let s3 := snd (_gv poll_3 s2) in
  (3 <= _count s1 /\
   _min s1 = Some (round 100 8) /\ _max s1 = Some (round 100 8) /\
   _gv poll_2 s1 = (inr tt, s2) /\ _gv poll_3 s2 = (inr tt, s3)) /\
  exists h3 w pre,
    HZ s3 = Some h3 /\
    w = slice_from (_hz s2 ++ [h3]) (-1 * _count s1) /\
    _avg s3 = Some (round (sum w / inject_Z (Z.of_nat (List.length w))) 8) /\
    Z.of_nat (List.length w) <= _count s1 /\
    w = (pre ++ [round 100 8; round 100 8; h3])%list.
Proof.
  intros s1 s2 s3.
  assert (H0 : 3 <= _count s1) by (vm_compute; discriminate).
  assert (Hm : _min s1 = Some (round 100 8)) by (vm_compute; reflexivity).
  assert (Hx : _max s1 = Some (round 100 8)) by (vm_compute; reflexivity).
  assert (H1 : _gv poll_2 s1 = (inr tt, s2)) by (vm_compute; reflexivity).
  assert (H2 : _gv poll_3 s2 = (inr tt, s3)) by (vm_compute; reflexivity).
  split; [auto 6|].
  exact (average_over_the_shared_list poll_2 poll_3 s1 s2 s3
           (round 100 8) (round 100 8) H0 Hm Hx H1 H2).
Defined.

(** C3 as stated fails: the third average of the run [poll_1], [poll_2],
    [poll_3] (instantaneous values 100, 102 and 104) is 101.2, the mean of
    100, 102, 100, 100 and 104, where the mean of the three values is 102. *)
Lemma average_counts_reinserted_extremes :
  ~ (forall oss : list reads, averages_recent_values oss booted).
Proof.
  intro H.
  destruct (H [poll_1; poll_2; poll_3] 2%nat
              (snd (_gv_each [poll_1; poll_2; poll_3] booted)))
    as (a & Ha & E).
  - vm_compute. reflexivity.
  - vm_compute in Ha. injection Ha as <-.
    vm_compute in E. discriminate E.
Qed.

(** The run behind the counterexample: the three instantaneous values, the
    list after the third call, and its average next to the
    specification's. *)
Example three_polls :
  let states := states_after [poll_1; poll_2; poll_3] booted in
  map Qred (hz_values states) = [100; 102; 104]%Q /\
  map (fun s => map Qred (_hz s)) states =
  [ [100]; [100; 102; 100; 100]; [100; 102; 100; 100; 104; 100; 102] ]%Q /\
  map (fun s => option_map Qred (_avg s)) states =
  [Some 100; Some 101; Some (506 # 5)]%Q /\
  Qred (spec_average 100 (hz_values states)) = 102%Q.
Proof. vm_compute. repeat split. Qed.

(** ** The estimate of a whole call *)

(** The pieces together: a call of [_gv] that returns leaves the raw ticks
    [j] and the corrected elapsed seconds [e] it read, with [e] not 0, and
    the estimate [round(adj_jiffies / e, 8)]. *)
Lemma _gv_estimate (os : reads) (s s' : LKHZ) :
  _gv os s = (inr tt, s') ->
  exists j c e,
    jiffies s' = Some j /\ config_hz s' = Some c /\ since_boot s' = Some e /\
    ~ (e == 0)%Q /\
    HZ s' = Some (round (inject_Z (adj_jiffies j c e) / e) 8).
Proof.
  unfold _gv. intro H.
  apply bind_M_ok in H. destruct H as ([] & s1 & _ & H).
  apply bind_M_ok in H. destruct H as ([] & s2 & _ & H).
  apply bind_M_ok in H. destruct H as (adj & s3 & H3 & H).
  apply bind_M_ok in H. destruct H as ([] & s4 & H4 & H).
  apply bind_M_ok in H. destruct H as ([] & s5 & H5 & H).
  apply _gv_adj_jiffies_value in H3.
  destruct H3 as (-> & j & c & e & Ej & Ec & Ee & ->).
  apply _gv_HZ_value in H4. destruct H4 as (e' & q & Ee' & Eq & ->).
  assert (e' = e) by congruence. subst e'.
  unfold truediv in Eq.
  destruct (Qeq_bool e 0) eqn:Ez; [discriminate|].
  injection Eq as <-.
  assert (Ne : ~ (e == 0)%Q).
  { intro Z. apply Qeq_bool_iff in Z. congruence. }
  set (h := round (inject_Z (adj_jiffies j c e) / e) 8) in *.
  rewrite (_gv_avg_run (with_HZ h s2) h eq_refl) in H5. cbv zeta in H5.
  destruct (truediv _ _) as [err|a] in H5; [discriminate|].
  apply pair_equal_spec in H5. destruct H5 as [_ <-].
  rewrite _gv_minmax_run in H.
  exists j, c, e.
  match type of H with
  | match _min ?t with _ => _ end = _ =>
      destruct (_min t) as [m0|]; destruct (_max t) as [x0|]
  end;
    try discriminate H; cbv zeta in H;
    match type of H with
    | match min ?l with _ => _ end = _ =>
        destruct (min l) as [err|m]; [discriminate H|];
        destruct (max l) as [err|x]; [discriminate H|]
    end;
    apply pair_equal_spec in H; destruct H as [_ <-];
    cbn [jiffies config_hz since_boot HZ with_delta with_max with_min with_hz
         with_avg with_HZ]; auto.
Qed.

(** * Further properties of the methods *)

(** ** What each part of [_gv] leaves alone *)

Ltac unpair H := apply pair_equal_spec in H; destruct H as [? ?]; subst.

Lemma _gv_since_boot_keeps (os : reads) (s s' : LKHZ) (r : result unit) :
  _gv_since_boot os s = (r, s') ->
  same_setup s s' /\ same_statistics s s' /\ jiffies s' = jiffies s.
Proof.
  destruct (uptime os) as [e|u] eqn:Eu.
  { rewrite (_gv_since_boot_no_number _ _ _ Eu). intro H. unpair H.
    repeat split. }
  destruct (Qltb 1 (Qabs (u - offset s - last_since_boot s))) eqn:E.
  - rewrite (_gv_since_boot_resumed _ _ _ Eu E).
    destruct (cpu0_offset (timer_list os)); cbv zeta; intro H; unpair H;
      repeat split.
  - rewrite (_gv_since_boot_steady _ _ _ Eu E). intro H. unpair H.
    repeat split.
Qed.

Lemma _gv_jiffies_keeps (lines : list string) (s s' : LKHZ) (r : result unit) :
  _gv_jiffies lines s = (r, s') ->
  same_setup s s' /\ same_statistics s s' /\ same_clock s s'.
Proof.
  induction lines as [|ln rest IH]; cbn [_gv_jiffies].
  - run_M. intro H. unpair H. repeat split.
  - destruct (startswith ln "jiffies:"); [|exact IH].
    run_M. destruct (index (split ln ": ") 1) as [e|f].
    + intro H. unpair H. repeat split.
    + destruct (int f) as [e|j]; intro H; unpair H; repeat split.
Qed.

Lemma _gv_HZ_cases (adj : Z) (s s' : LKHZ) (r : result unit) :
  _gv_HZ adj s = (r, s') ->
  (exists e, r = inl e /\ s' = s) \/
  (exists sb, r = inr tt /\ since_boot s = Some sb /\ ~ (sb == 0)%Q /\
              s' = with_HZ (round (inject_Z adj / sb) 8) s).
Proof.
  unfold _gv_HZ, truediv. run_M.
  destruct (since_boot s) as [sb|].
  - destruct (Qeq_bool sb 0) eqn:E; intro H; unpair H.
    + left. eauto.
    + right. exists sb. repeat split. intro Z. apply Qeq_bool_iff in Z. congruence.
  - intro H. unpair H. left. eauto.
Qed.

Lemma _gv_avg_keeps (s s' : LKHZ) (r : result unit) :
  _gv_avg s = (r, s') ->
  same_setup s s' /\ same_clock s s' /\ jiffies s' = jiffies s /\
  HZ s' = HZ s /\ _min s' = _min s /\ _max s' = _max s /\
  _delta s' = _delta s.
Proof.
  destruct (HZ s) as [h|] eqn:Eh.
  - rewrite (_gv_avg_run _ _ Eh). cbv zeta.
    destruct (truediv _ _); intro H; unpair H; repeat split; exact Eh.
  - unfold _gv_avg. run_M. rewrite Eh. intro H. unpair H. repeat split.
    exact Eh.
Qed.

Lemma _gv_minmax_keeps (s s' : LKHZ) (r : result unit) :
  _gv_minmax s = (r, s') ->
  same_setup s s' /\ same_clock s s' /\ jiffies s' = jiffies s /\
  HZ s' = HZ s /\ _avg s' = _avg s.
Proof.
  rewrite _gv_minmax_run.
  destruct (_min s) as [m0|], (_max s) as [x0|]; cbv zeta;
    try (intro H; unpair H; repeat split);
    match goal with
    | |- match min ?l with _ => _ end = _ -> _ =>
        destruct (min l); [|destruct (max l)];
        intro H; unpair H; repeat split
    end.
Qed.

(** The window part of a call cannot raise on an object whose capacity is
    at least 1 and whose maximum exists when its minimum does. *)
Lemma _gv_avg_returns (s : LKHZ) (h : Q) :
  HZ s = Some h -> 1 <= _count s ->
  exists s', _gv_avg s = (inr tt, s').
Proof.
  intros Hh Hc. rewrite (_gv_avg_run _ _ Hh). cbv zeta.
  assert (N : slice_from (_hz s ++ [h]) (-1 * _count s) <> []).
  { destruct (slice_from_keeps_last _ (_hz s) [h] (_count s)) as (pre & E);
      [cbn; lia|].
    rewrite E. destruct pre; discriminate. }
  rewrite (truediv_length _ _ _ N). eauto.
Qed.

Lemma _gv_minmax_returns (s : LKHZ) :
  _hz s <> [] -> (_min s = None \/ _max s <> None) ->
  exists s', _gv_minmax s = (inr tt, s').
Proof.
  intros N W. rewrite _gv_minmax_run.
  assert (N' : (_hz s ++ reinserted s)%list <> []).
  { destruct (_hz s); [congruence | discriminate]. }
  destruct (_min s) as [m0|] eqn:Em, (_max s) as [x0|] eqn:Ex; cbv zeta;
    cbn [_hz with_hz];
    try (destruct W as [W|W]; congruence);
    destruct (_hz s ++ reinserted s)%list as [|a l] eqn:El;
    try congruence; cbn [min max]; eauto.
Qed.

Ltac gv_phase H Hp a s :=
  apply bind_M_inv in H;
  let e := fresh "e" in
  let E := fresh "E" in
  destruct H as [(e & Hp & E)|(a & s & Hp & H)].

Lemma same_setup_trans (a b c : LKHZ) :
  same_setup a b -> same_setup b c -> same_setup a c.
Proof.
  unfold same_setup. intros (A1 & A2 & A3 & A4) (B1 & B2 & B3 & B4).
  repeat split; congruence.
Qed.

Lemma same_clock_trans (a b c : LKHZ) :
  same_clock a b -> same_clock b c -> same_clock a c.
Proof.
  unfold same_clock. intros (A1 & A2 & A3) (B1 & B2 & B3).
  repeat split; congruence.
Qed.

Lemma same_statistics_trans (a b c : LKHZ) :
  same_statistics a b -> same_statistics b c -> same_statistics a c.
Proof.
  unfold same_statistics.
  intros (A1 & A2 & A3 & A4 & A5 & A6) (B1 & B2 & B3 & B4 & B5 & B6).
  repeat split; congruence.
Qed.

Lemma _gv_HZ_keeps (adj : Z) (s s' : LKHZ) (r : result unit) :
  _gv_HZ adj s = (r, s') ->
  same_setup s s' /\ same_clock s s' /\ jiffies s' = jiffies s /\
  _hz s' = _hz s /\ _avg s' = _avg s /\ _min s' = _min s /\
  _max s' = _max s /\ _delta s' = _delta s.
Proof.
  intro H. destruct (_gv_HZ_cases _ _ _ _ H)
    as [(e & _ & ->)|(sb & _ & _ & _ & ->)]; repeat split.
Qed.

(** The setup attributes through a whole call and a whole run. *)
Lemma _gv_keeps_setup (os : reads) (s s' : LKHZ) (r : result unit) :
  _gv os s = (r, s') -> same_setup s s'.
Proof.
  unfold _gv. intro H.
  gv_phase H H1 u1 s1; apply _gv_since_boot_keeps in H1; destruct H1 as (K1 & _);
    [exact K1|].
  gv_phase H H2 u2 s2; apply _gv_jiffies_keeps in H2; destruct H2 as (K2 & _);
    pose proof (same_setup_trans _ _ _ K1 K2) as K12; [exact K12|].
  gv_phase H H3 adj s3; apply _gv_adj_jiffies_frame in H3; subst; [exact K12|].
  gv_phase H H4 u4 s4; apply _gv_HZ_keeps in H4; destruct H4 as (K4 & _);
    pose proof (same_setup_trans _ _ _ K12 K4) as K14; [exact K14|].
  gv_phase H H5 u5 s5; apply _gv_avg_keeps in H5; destruct H5 as (K5 & _);
    pose proof (same_setup_trans _ _ _ K14 K5) as K15; [exact K15|].
  apply _gv_minmax_keeps in H. destruct H as (K6 & _).
  exact (same_setup_trans _ _ _ K15 K6).
Qed.

Lemma _gv_each_keeps_setup (oss : list reads) (s s' : LKHZ) (r : result unit) :
  _gv_each oss s = (r, s') -> same_setup s s'.
Proof.
  revert s. induction oss as [|os rest IH]; intro s; cbn [_gv_each].
  - run_M. intro H. unpair H. repeat split.
  - intro H. gv_phase H H1 u1 s1; apply _gv_keeps_setup in H1; [exact H1|].
    apply IH in H. exact (same_setup_trans _ _ _ H1 H).
Qed.

(** The offset tracker after the first part of a call. *)
Lemma _gv_keeps_clock (os : reads) (s s' : LKHZ) (r : result unit) :
  _gv os s = (r, s') ->
  exists r1 s1, _gv_since_boot os s = (r1, s1) /\ same_clock s1 s' /\
                (r = inr tt -> r1 = inr tt).
Proof.
  unfold _gv. intro H.
  gv_phase H H1 u1 s1.
  { exists (inl e), s'. subst r. split; [exact H1|].
    split; [repeat split | discriminate]. }
  destruct u1. exists (inr tt), s1. split; [exact H1|]. split; [|reflexivity].
  gv_phase H H2 u2 s2; apply _gv_jiffies_keeps in H2; destruct H2 as (_ & _ & K2);
    [exact K2|].
  gv_phase H H3 adj s3; apply _gv_adj_jiffies_frame in H3; subst; [exact K2|].
  gv_phase H H4 u4 s4; apply _gv_HZ_keeps in H4; destruct H4 as (_ & K4 & _);
    pose proof (same_clock_trans _ _ _ K2 K4) as K24; [exact K24|].
  gv_phase H H5 u5 s5; apply _gv_avg_keeps in H5; destruct H5 as (_ & K5 & _);
    pose proof (same_clock_trans _ _ _ K24 K5) as K25; [exact K25|].
  apply _gv_minmax_keeps in H. destruct H as (_ & K6 & _).
  exact (same_clock_trans _ _ _ K25 K6).
Qed.

(** ** Slices of the list *)

Lemma slice_from_ends_with (A : Type) (l : list A) (h : A) (start : Z) :
  slice_from (l ++ [h]) start <> [] ->
  exists pre, slice_from (l ++ [h]) start = (pre ++ [h])%list.
Proof.
  unfold slice_from.
  set (k := Z.to_nat _). clearbody k. intro N.
  destruct (Nat.le_gt_cases k (List.length l)) as [L|G].
  - rewrite skipn_app. replace (k - List.length l)%nat with 0%nat by lia.
    cbn [skipn]. eauto.
  - exfalso. apply N. apply skipn_all2. rewrite length_app. cbn. lia.
Qed.

(** The slice drops entries from the front only. *)
Lemma slice_from_drops_front (A : Type) (l : list A) (n : Z) :
  1 <= n ->
  exists dropped,
    l = (dropped ++ slice_from l (-1 * n))%list /\
    Z.of_nat (List.length dropped) = Z.max 0 (Z.of_nat (List.length l) - n).
Proof.
  intro H. unfold slice_from.
  assert (E : (-1 * n <? 0) = true) by (apply Z.ltb_lt; lia). rewrite E.
  set (k := Z.to_nat (Z.max 0 (-1 * n + Z.of_nat (List.length l)))).
  exists (firstn k l). split.
  - symmetry. apply firstn_skipn.
  - rewrite length_firstn. unfold k. lia.
Qed.

(** ** Invariants of [_gv] *)

Lemma _gv_avg_nonempty (s s' : LKHZ) :
  _gv_avg s = (inr tt, s') -> _hz s' <> [].
Proof.
  destruct (HZ s) as [h|] eqn:Eh.
  - rewrite (_gv_avg_run _ _ Eh). cbv zeta.
    set (w := slice_from (_hz s ++ [h]) (-1 * _count s)).
    destruct w as [|a w'] eqn:Ew.
    + rewrite truediv_length_nil. discriminate.
    + destruct (truediv _ _); [discriminate|].
      intro H. unpair H. cbn [_hz with_avg with_hz]. discriminate.
  - unfold _gv_avg. run_M. rewrite Eh. discriminate.
Qed.

(** X1.  No run of [_gv], however it ends, assigns the configured
    frequency, the capacity, the baseline average or the start time. *)
Theorem setup_survives_every_run (oss : list reads) (s : LKHZ) :
  let s' := snd (_gv_each oss s) in
  config_hz s' = config_hz s /\ _count s' = _count s /\
  _oavg s' = _oavg s /\ _start s' = _start s.
Proof.
  cbv zeta. destruct (_gv_each oss s) as [r s'] eqn:E.
  exact (_gv_each_keeps_setup oss s s' r E).
Qed.

(** X2.  A call that raises leaves the estimate and the rolling statistics
    as they were, on an object whose capacity is at least 1 and whose
    maximum exists when its minimum does (as in every object that
    [__init__] and [_gv] produce). *)
Theorem failed_call_keeps_statistics (os : reads) (s s' : LKHZ) (e : exn) :
  1 <= _count s ->
  _min s = None \/ _max s <> None ->
  _gv os s = (inl e, s') ->
  _hz s' = _hz s /\ HZ s' = HZ s /\ _avg s' = _avg s /\
  _min s' = _min s /\ _max s' = _max s /\ _delta s' = _delta s.
Proof.
  intros Hc Hw. unfold _gv. intro H.
  gv_phase H H1 u1 s1; apply _gv_since_boot_keeps in H1;
    destruct H1 as (S1 & K1 & _); [exact K1|].
  gv_phase H H2 u2 s2; apply _gv_jiffies_keeps in H2;
    destruct H2 as (S2 & K2 & _);
    pose proof (same_statistics_trans _ _ _ K1 K2) as K12; [exact K12|].
  pose proof (same_setup_trans _ _ _ S1 S2) as S12.
  gv_phase H H3 adj s3; apply _gv_adj_jiffies_frame in H3; subst; [exact K12|].
  gv_phase H H4 u4 s4.
  { destruct (_gv_HZ_cases _ _ _ _ H4) as [(e' & _ & ->)|(sb & D & _)];
      [exact K12 | discriminate D]. }
  exfalso.
  destruct (_gv_HZ_cases _ _ _ _ H4) as [(e' & D & _)|(sb & _ & _ & _ & ->)];
    [destruct u4; discriminate D|].
  destruct K12 as (Khz & _ & _ & Kmin & Kmax & _).
  destruct S12 as (_ & Sc & _).
  set (s4 := with_HZ (round (inject_Z adj / sb) 8) s2) in *.
  destruct (_gv_avg_returns s4 (round (inject_Z adj / sb) 8) eq_refl)
    as (s5 & R5); [cbn; lia|].
  gv_phase H H5 u5 s5'; [congruence|].
  assert (s5' = s5) by congruence. subst s5'.
  pose proof (_gv_avg_nonempty s4 s5 R5) as N5.
  apply _gv_avg_keeps in H5.
  destruct H5 as (_ & _ & _ & _ & Emin & Emax & _).
  destruct (_gv_minmax_returns s5 N5) as (s6 & R6).
  { cbn in Emin, Emax. rewrite Emin, Emax, Kmin, Kmax. exact Hw. }
  congruence.
Qed.

Lemma failed_call_keeps_statistics_witness :
  let s' := snd (_gv poll_at_boot booted) in
  (1 <= _count booted /\ (_min booted = None \/ _max booted <> None) /\
   _gv poll_at_boot booted = (inl ZeroDivisionError, s')) /\
  _hz s' = _hz booted /\ HZ s' = HZ booted /\ _avg s' = _avg booted /\
  _min s' = _min booted /\ _max s' = _max booted /\ _delta s' = _delta booted.
Proof.
  intro s'.
  assert (H1 : 1 <= _count booted) by (cbn; lia).
  assert (H2 : _min booted = None \/ _max booted <> None) by (left; reflexivity).
  assert (H3 : _gv poll_at_boot booted = (inl ZeroDivisionError, s'))
    by (vm_compute; reflexivity).
  split; [auto|].
  exact (failed_call_keeps_statistics poll_at_boot booted s' ZeroDivisionError
           H1 H2 H3).
Defined.

Lemma _gv_HZ_is_rounded (os : reads) (s s' : LKHZ) (h : Q) :
  _gv os s = (inr tt, s') -> HZ s' = Some h -> round h 8 = h.
Proof.
  intros H Hh. destruct (_gv_estimate os s s' H) as (j & c & e & _ & _ & _ & _ & E).
  assert (h = round (inject_Z (adj_jiffies j c e) / e) 8) by congruence.
  subst h. apply round_idem.
Qed.

Lemma _gv_ordered (os : reads) (s s' : LKHZ) :
  _gv os s = (inr tt, s') ->
  exists h m x d,
    HZ s' = Some h /\ _min s' = Some m /\
    _max s' = Some x /\ _delta s' = Some d /\
    (m <= h)%Q /\ (h <= x)%Q /\ (d == x - m)%Q.
Proof.
  intro H.
  destruct (_gv_ok os s s' H)
    as (h & m0 & x0 & Hh & Hne & Havg & Hhz & Hm & Hx & Emin & Emax & Ed & _).
  pose proof (_gv_HZ_is_rounded os s s' h H Hh) as Rh.
  set (w := slice_from (_hz s ++ [h]) (-1 * _count s)) in *.
  destruct (slice_from_ends_with _ (_hz s) h (-1 * _count s) Hne) as (pre & Ew).
  fold w in Ew.
  destruct (min_spec _ _ Hm) as (_ & Lo). destruct (max_spec _ _ Hx) as (_ & Hi).
  assert (Inw : forall y, In y w -> In y (_hz s')).
  { intros y Hy. rewrite Hhz. apply in_or_app. now left. }
  assert (Inh : In h w) by (rewrite Ew; apply in_or_app; right; now left).
  exists h, (round m0 8), (round x0 8), (round x0 8 - round m0 8)%Q.
  repeat (split; [assumption|]).
  split; [rewrite <- Rh; apply round_mono, Lo, Inw, Inh|].
  split; [rewrite <- Rh; apply round_mono, Hi, Inw, Inh | reflexivity].
Qed.

(** X3.  After every call that returns, the instantaneous estimate lies
    between the reported minimum and the reported maximum, and the
    reported variance is maximum minus minimum. *)
Theorem statistics_are_ordered (os : reads) (s s' : LKHZ) :
  _gv os s = (inr tt, s') ->
  exists h m x d,
    HZ s' = Some h /\ _min s' = Some m /\
    _max s' = Some x /\ _delta s' = Some d /\
    (m <= h)%Q /\ (h <= x)%Q /\ (d == x - m)%Q.
Proof. exact (_gv_ordered os s s'). Qed.

Lemma statistics_are_ordered_witness :
  let s2 := snd (_gv_each [poll_1; poll_2] booted) in
  let s3 := snd (_gv poll_3 s2) in
  _gv poll_3 s2 = (inr tt, s3) /\
  exists h m x d,
    HZ s3 = Some h /\ _min s3 = Some m /\
    _max s3 = Some x /\ _delta s3 = Some d /\
    (m <= h)%Q /\ (h <= x)%Q /\ (d == x - m)%Q.
Proof.
  intros s2 s3.
  assert (H : _gv poll_3 s2 = (inr tt, s3)) by (vm_compute; reflexivity).
  split; [exact H|].
  exact (statistics_are_ordered poll_3 s2 s3 H).
Defined.

(** ** The ticks of a call (lines 116-130) *)

Lemma _gv_jiffies_no_line (lines : list string) (s : LKHZ) :
  (forall ln, In ln lines -> startswith ln "jiffies:" = false) ->
  _gv_jiffies lines s = (inr tt, s).
Proof.
  induction lines as [|ln rest IH]; intro H; cbn [_gv_jiffies].
  - reflexivity.
  - rewrite (H ln (or_introl eq_refl)). apply IH.
    intros l Hl. apply H. now right.
Qed.

Lemma _gv_jiffies_first_line (pre : list string) (ln : string)
      (post : list string) (s : LKHZ) :
  (forall l, In l pre -> startswith l "jiffies:" = false) ->
  startswith ln "jiffies:" = true ->
  _gv_jiffies (pre ++ ln :: post) s = _gv_jiffies [ln] s.
Proof.
  intros Hpre Hln. induction pre as [|l pre IH]; cbn [app].
  - cbn [_gv_jiffies]. rewrite Hln. reflexivity.
  - change (_gv_jiffies (l :: pre ++ ln :: post) s) with
      ((if startswith l "jiffies:"
        then (field <- call (index (split l ": ") 1) ;;
              j <- call (int field) ;; modify (with_jiffies j))
        else _gv_jiffies (pre ++ ln :: post)) s).
    rewrite (Hpre l (or_introl eq_refl)).
    apply IH. intros l' Hl'. apply Hpre. now right.
Qed.

(** The tick count through the parts of a call other than lines 116-119. *)
Lemma _gv_jiffies_attribute (os : reads) (s s' : LKHZ) (r : result unit) :
  _gv os s = (r, s') ->
  exists r1 s1 r2 s2,
    _gv_since_boot os s = (r1, s1) /\ jiffies s1 = jiffies s /\
    (r1 = inr tt ->
     _gv_jiffies (cat_out os) s1 = (r2, s2) /\ jiffies s' = jiffies s2 /\
     (r2 = inr tt -> jiffies s2 = None -> exists e, r = inl e)) /\
    (forall e, r1 = inl e -> s' = s1).
Proof.
  unfold _gv. intro H.
  gv_phase H H1 u1 s1.
  { exists (inl e), s', (inr tt), s'. split; [exact H1|].
    apply _gv_since_boot_keeps in H1. destruct H1 as (_ & _ & J).
    split; [exact J|]. split; [discriminate | reflexivity]. }
  destruct u1.
  pose proof (_gv_since_boot_keeps _ _ _ _ H1) as (_ & _ & J1).
  gv_phase H H2 u2 s2.
  { exists (inr tt), s1, (inl e), s'. split; [exact H1|]. split; [exact J1|].
    split; [|discriminate]. intros _. split; [exact H2|].
    split; [reflexivity | discriminate]. }
  destruct u2.
  exists (inr tt), s1, (inr tt), s2. split; [exact H1|]. split; [exact J1|].
  split; [|discriminate]. intros _. split; [exact H2|].
  gv_phase H H3 adj s3.
  { apply _gv_adj_jiffies_frame in H3. subst s'.
    split; [reflexivity|]. intros _ _. eauto. }
  assert (s3 = s2) by (apply _gv_adj_jiffies_frame in H3; exact H3). subst s3.
  split.
  - gv_phase H H4 u4 s4; apply _gv_HZ_keeps in H4;
      destruct H4 as (_ & _ & J4 & _); [exact J4|].
    gv_phase H H5 u5 s5; apply _gv_avg_keeps in H5;
      destruct H5 as (_ & _ & J5 & _); [congruence|].
    apply _gv_minmax_keeps in H. destruct H as (_ & _ & J6 & _). congruence.
  - intros _ N. exfalso.
    destruct (_gv_adj_jiffies_value _ _ _ H3) as (_ & j & c & sb & Ej & _).
    congruence.
Qed.

(** X6.  When the output of [cat] has no line that starts with [jiffies:],
    the call keeps the tick count the object had, and computes with it; on
    an object that has none yet the call raises. *)
Theorem missing_jiffies_line (os : reads) (s : LKHZ) :
  (forall ln, In ln (cat_out os) -> startswith ln "jiffies:" = false) ->
  jiffies (snd (_gv os s)) = jiffies s /\
  (jiffies s = None -> exists e, fst (_gv os s) = inl e).
Proof.
  intro N. destruct (_gv os s) as [r s'] eqn:H. cbn [fst snd].
  destruct (_gv_jiffies_attribute os s s' r H)
    as (r1 & s1 & r2 & s2 & H1 & J1 & Ok & Ko).
  destruct r1 as [e|[]].
  - rewrite (Ko e eq_refl). split; [exact J1|]. intros _.
    unfold _gv in H. gv_phase H H1' u1 s1'; [eauto | congruence].
  - destruct (Ok eq_refl) as (H2 & J2 & F).
    rewrite (_gv_jiffies_no_line _ s1 N) in H2. unpair H2.
    split; [congruence|]. intro E. apply F; congruence.
Qed.

Lemma poll_without_jiffies_no_line (ln : string) :
  In ln (cat_out poll_without_jiffies) -> startswith ln "jiffies:" = false.
Proof.
  cbn [In cat_out poll_without_jiffies].
  intros [<-|[<-|[<-|[]]]]; reflexivity.
Qed.

Lemma missing_jiffies_line_witness :
  (forall ln, In ln (cat_out poll_without_jiffies) ->
              startswith ln "jiffies:" = false) /\
  jiffies (snd (_gv poll_without_jiffies booted)) = jiffies booted /\
  (jiffies booted = None ->
   exists e, fst (_gv poll_without_jiffies booted) = inl e).
Proof.
  split; [exact poll_without_jiffies_no_line|].
  exact (missing_jiffies_line poll_without_jiffies booted
           poll_without_jiffies_no_line).
Defined.

(** X7.  An object without a configured frequency ([config_hz] is [None],
    as after [__init__] on a configuration without a [CONFIG_HZ=] line)
    never gets an estimate: every call of [_gv] raises and leaves [HZ] and
    the list as they were. *)
Theorem no_estimate_without_config_hz (os : reads) (s : LKHZ) :
  config_hz s = None ->
  exists e s', _gv os s = (inl e, s') /\ HZ s' = HZ s /\ _hz s' = _hz s /\
               config_hz s' = None.
Proof.
  intro C. destruct (_gv os s) as [r s'] eqn:H.
  pose proof (_gv_keeps_setup os s s' r H) as (C' & _).
  rewrite C in C'.
  revert H. unfold _gv. intro H.
  gv_phase H H1 u1 s1; apply _gv_since_boot_keeps in H1;
    destruct H1 as (S1 & (K1 & K1' & _) & _).
  { subst r. exists e, s'. auto. }
  gv_phase H H2 u2 s2; apply _gv_jiffies_keeps in H2;
    destruct H2 as (S2 & (K2 & K2' & _) & _).
  { subst r. exists e, s'. repeat split; congruence. }
  assert (C2 : config_hz s2 = None).
  { destruct S1 as (A & _), S2 as (B & _). congruence. }
  gv_phase H H3 adj s3.
  { apply _gv_adj_jiffies_frame in H3. subst. exists e, s2.
    repeat split; congruence. }
  exfalso. destruct (_gv_adj_jiffies_value _ _ _ H3) as (_ & j & c & sb & _ & Ec & _).
  congruence.
Qed.

Example __init___unconfigured :
  __init__ config_without_hz timer_list_0 = inr unconfigured.
Proof. vm_compute. reflexivity. Qed.

Lemma no_estimate_without_config_hz_witness :
  config_hz unconfigured = None /\
  exists e s', _gv poll_1 unconfigured = (inl e, s') /\
               HZ s' = HZ unconfigured /\ _hz s' = _hz unconfigured /\
               config_hz s' = None.
Proof.
  split; [reflexivity|].
  exact (no_estimate_without_config_hz poll_1 unconfigured eq_refl).
Defined.

(** ** Texts with a numeral inside *)

Lemma no_char_numeral (c : ascii) (ds : list nat) :
  Forall (fun d => (d < 10)%nat) ds ->
  is_digit c = false ->
  no_char c (numeral ds) = true.
Proof.
  intros F Hc. induction F as [|d ds Hd F IH]; [reflexivity|].
  unfold no_char in *. cbn [numeral fold_right list_ascii_of_string forallb].
  fold (numeral ds). rewrite IH, andb_true_r.
  destruct (Ascii.eqb (digit_char d) c) eqn:E; [|reflexivity].
  apply Ascii.eqb_eq in E. subst c.
  destruct (digit_char_facts d Hd) as (D1 & _). congruence.
Qed.

(** A field without the first character of the separator is passed over. *)
Lemma split_scan_field (c : ascii) (sep' s t : string) :
  no_char c s = true ->
  split_scan (String c sep') 0 (s ++ t) =
  let (f, r) := split_scan (String c sep') 0 t in ((s ++ f)%string, r).
Proof.
  induction s as [|a s IH]; intro H.
  - cbn [String.append]. destruct (split_scan _ 0 t). reflexivity.
  - unfold no_char in H. cbn [list_ascii_of_string forallb] in H.
    apply andb_true_iff in H. destruct H as (Ha & Hs).
    cbn [String.append split_scan String.prefix].
    destruct (ascii_dec c a) as [E|_].
    + subst a. rewrite Ascii.eqb_refl in Ha. discriminate Ha.
    + rewrite (IH Hs). destruct (split_scan _ 0 t). reflexivity.
Qed.

Lemma split_scan_separator (c : ascii) (t : string) :
  split_scan (String c EmptyString) 0 (String c t) =
  let (f, r) := split_scan (String c EmptyString) 0 t in (EmptyString, f :: r).
Proof.
  cbn [split_scan String.prefix String.length Nat.sub].
  destruct (ascii_dec c c) as [_|N]; [|congruence].
  destruct t; reflexivity.
Qed.

Lemma append_empty (s : string) : (s ++ "")%string = s.
Proof. induction s as [|a s IH]; cbn; [reflexivity | now rewrite IH]. Qed.

Lemma append_assoc (a b c : string) :
  ((a ++ b) ++ c)%string = (a ++ (b ++ c))%string.
Proof. induction a as [|x a IH]; cbn; [reflexivity | now rewrite IH]. Qed.

Lemma rstrip_numeral (ds : list nat) :
  Forall (fun d => (d < 10)%nat) ds -> rstrip (numeral ds) = numeral ds.
Proof.
  induction 1 as [|d ds Hd F IH]; [reflexivity|].
  cbn [numeral fold_right rstrip]. fold (numeral ds). rewrite IH.
  destruct (digit_char_facts d Hd) as (_ & _ & D3 & _). rewrite D3.
  destruct (numeral ds); reflexivity.
Qed.

(** Stripping on the right does not reach past a text that does not end in
    whitespace. *)
Lemma rstrip_append (s t : string) :
  rstrip t <> EmptyString -> rstrip (s ++ t) = (s ++ rstrip t)%string.
Proof.
  intro N. induction s as [|a s IH]; [reflexivity|].
  cbn [String.append rstrip]. rewrite IH.
  destruct (s ++ rstrip t)%string eqn:E; [|reflexivity].
  destruct s; [cbn in E; congruence | discriminate E].
Qed.

Lemma int_numeral (ds : list nat) :
  Forall (fun d => (d < 10)%nat) ds -> ds <> [] ->
  int (numeral ds) = inr (numeral_value ds).
Proof.
  intros F N. unfold int.
  destruct ds as [|d ds]; [congruence|].
  pose proof (Forall_inv F) as Hd.
  destruct (digit_char_facts d Hd) as (D1 & D2 & D3 & D4 & D5 & D6).
  assert (L : lstrip_int (numeral (d :: ds)) = numeral (d :: ds)).
  { cbn [numeral fold_right lstrip_int]. rewrite (digit_char_isspace_int d Hd).
    reflexivity. }
  rewrite L, (rstrip_int_numeral _ F).
  assert (S : forall (r : string),
             match String (digit_char d) r with
             | String "-" r' => (true, r')
             | String "+" r' => (false, r')
             | _ => (false, String (digit_char d) r)
             end = (false, String (digit_char d) r)).
  { intro r. clear - Hd.
    do 10 (destruct d as [|d]; [reflexivity|]). lia. }
  cbn [numeral fold_right]. fold (numeral ds).
  rewrite S.
  change (String (digit_char d) (numeral ds)) with (numeral (d :: ds)).
  rewrite (parse_digits_numeral (d :: ds) 0 false F (or_introl N)).
  reflexivity.
Qed.

Lemma split_jiffies_numeral (ds : list nat) :
  Forall (fun d => (d < 10)%nat) ds ->
  split ("jiffies: " ++ numeral ds) ": " = ["jiffies"; numeral ds].
Proof.
  intro F. unfold split.
  change ("jiffies: " ++ numeral ds)%string
    with ("jiffies" ++ String ":" (String " " (numeral ds)))%string.
  rewrite (split_scan_field ":" " " "jiffies" _ eq_refl).
  cbn [split_scan String.prefix String.length Nat.sub].
  destruct (ascii_dec ":" ":") as [_|N]; [|congruence].
  destruct (ascii_dec " " " ") as [_|N]; [|congruence].
  assert (P : String.prefix "" (numeral ds) = true)
    by (destruct (numeral ds); reflexivity).
  rewrite P.
  rewrite <- (append_empty (numeral ds)) at 1.
  rewrite (split_scan_field ":" " " (numeral ds) "" (no_char_numeral ":"%char ds F eq_refl)).
  cbn [split_scan]. rewrite !append_empty. reflexivity.
Qed.

Lemma startswith_jiffies (t : string) :
  startswith ("jiffies: " ++ t) "jiffies:" = true.
Proof.
  unfold startswith. cbn [String.append String.prefix].
  repeat match goal with
         | |- context [ascii_dec ?a ?b] =>
             let E := fresh in
             destruct (ascii_dec a b) as [E|E]; [|congruence]
         end.
  reflexivity.
Qed.

(** X8.  The tick count of a call that returns is the numeral of the first
    line of the output that starts with [jiffies:], whatever the later
    lines hold. *)
Theorem first_jiffies_line_is_read (os : reads) (s s' : LKHZ)
        (pre post : list string) (ds : list nat) :
  cat_out os = (pre ++ ("jiffies: " ++ numeral ds)%string :: post)%list ->
  (forall l, In l pre -> startswith l "jiffies:" = false) ->
  Forall (fun d => (d < 10)%nat) ds -> ds <> [] ->
  _gv os s = (inr tt, s') ->
  jiffies s' = Some (numeral_value ds).
Proof.
  intros Hout Hpre F N H.
  destruct (_gv_keeps_clock os s s' (inr tt) H) as (r1' & s1' & P1 & _ & R).
  rewrite (R eq_refl) in P1.
  destruct (_gv_jiffies_attribute os s s' (inr tt) H)
    as (r1 & s1 & r2 & s2 & H1 & _ & Ok & _).
  assert (r1 = inr tt) by congruence. subst r1.
  destruct (Ok eq_refl) as (H2 & J & _).
  rewrite Hout, (_gv_jiffies_first_line pre _ post s1 Hpre (startswith_jiffies _))
    in H2.
  cbn [_gv_jiffies] in H2.
  rewrite (startswith_jiffies (numeral ds)), (split_jiffies_numeral ds F) in H2.
  change (index ["jiffies"; numeral ds] 1) with (@inr exn string (numeral ds)) in H2.
  revert H2. run_M. rewrite (int_numeral ds F N). intro H2. unpair H2.
  rewrite J. reflexivity.
Qed.

Lemma first_jiffies_line_is_read_witness :
  let os := mkReads (inr 400%Q)
              ["400.00 1200.00"; "now at 0 nsecs";
               "jiffies: " ++ numeral [4; 2; 9; 4; 9; 7; 7; 2; 9; 6]%nat;
               "jiffies: 1"]
              timer_list_0 in
  let s' := snd (_gv os booted) in
  _gv os booted = (inr tt, s') /\ jiffies s' = Some 4294977296.
Proof.
  intros os s'.
  assert (H : _gv os booted = (inr tt, s')) by (vm_compute; reflexivity).
  split; [exact H|].
  apply (first_jiffies_line_is_read os booted s'
           ["400.00 1200.00"; "now at 0 nsecs"] ["jiffies: 1"]
           [4; 2; 9; 4; 9; 7; 7; 2; 9; 6]%nat).
  - reflexivity.
  - cbn [In]. intros l [<-|[<-|[]]]; reflexivity.
  - repeat constructor.
  - discriminate.
  - exact H.
Defined.

(** ** The reference offset when the clock is listed (lines 50-73) *)

Lemma cpu0_offset_loop_first (pre : list string) (l : string)
      (rest : list string) (offset : Z) :
  (forall line, In line pre ->
                endswith line ("ktime_get_boottime" ++ nl) = false) ->
  endswith l ("ktime_get_boottime" ++ nl) = true ->
  cpu0_offset_loop 2 offset (pre ++ l :: rest) = cpu0_offset_loop 1 offset rest.
Proof.
  intros Hpre Hl. induction pre as [|p pre IH]; cbn [app cpu0_offset_loop].
  - change (2 =? 2) with true. cbv iota. rewrite Hl.
    change (2 - 1 =? 0) with false. reflexivity.
  - change (2 =? 2) with true. cbv iota.
    rewrite (Hpre p (or_introl eq_refl)).
    change (2 =? 0) with false. cbv iota.
    apply IH. intros x Hx. apply Hpre. now right.
Qed.

(** X9.  [cpu0_offset] reads the line after the first line that ends with
    [ktime_get_boottime] and nothing else: the lines before it and the
    lines after the two, among them the clocks of the other CPUs, do not
    change what it returns or raises.  When the listing ends with that
    first line, it returns 0. *)
Theorem cpu0_offset_first_instance (pre : list string) (l : string) :
  (forall line, In line pre ->
                endswith line ("ktime_get_boottime" ++ nl) = false) ->
  endswith l ("ktime_get_boottime" ++ nl) = true ->
  (forall (next : string) (post : list string),
      cpu0_offset (pre ++ l :: next :: post) = cpu0_offset [l; next]) /\
  (exists o, cpu0_offset (pre ++ [l]) = inr o /\ (o == 0)%Q).
Proof.
  intros Hpre Hl. split.
  - intros next post. unfold cpu0_offset.
    rewrite (cpu0_offset_loop_first pre l (next :: post) 0 Hpre Hl).
    change [l; next] with ([] ++ l :: [next])%list.
    rewrite (cpu0_offset_loop_first [] l [next] 0 (fun _ F => match F with end) Hl).
    reflexivity.
  - unfold cpu0_offset.
    rewrite (cpu0_offset_loop_first pre l [] 0 Hpre Hl).
    eexists. split; reflexivity.
Qed.

Lemma cpu0_offset_first_instance_witness :
  let pre := ["cpu: 0" ++ nl; " clock 2:" ++ nl] in
  let l := "  .get_time:   ktime_get_boottime" ++ nl in
  ((forall line, In line pre ->
                 endswith line ("ktime_get_boottime" ++ nl) = false) /\
   endswith l ("ktime_get_boottime" ++ nl) = true) /\
  cpu0_offset timer_list_resumed =
  cpu0_offset [l; "  .offset:     16967908000000 nsecs" ++ nl] /\
  (exists o, cpu0_offset (pre ++ [l]) = inr o /\ (o == 0)%Q).
Proof.
  intros pre l.
  assert (Hpre : forall line, In line pre ->
                   endswith line ("ktime_get_boottime" ++ nl) = false).
  { cbn [In pre]. intros line [<-|[<-|[]]]; reflexivity. }
  assert (Hl : endswith l ("ktime_get_boottime" ++ nl) = true) by reflexivity.
  split; [auto|].
  destruct (cpu0_offset_first_instance pre l Hpre Hl) as (A & B).
  split; [|exact B].
  exact (A ("  .offset:     16967908000000 nsecs" ++ nl)
           (skipn 4 timer_list_resumed)).
Defined.

Lemma strip_offset_line (ds : list nat) :
  Forall (fun d => (d < 10)%nat) ds ->
  strip ("  .offset:     " ++ numeral ds ++ " nsecs" ++ nl) =
  (".offset:     " ++ numeral ds ++ " nsecs")%string.
Proof.
  intro F. unfold strip.
  change (lstrip ("  .offset:     " ++ numeral ds ++ " nsecs" ++ nl))
    with (".offset:     " ++ (numeral ds ++ " nsecs" ++ nl))%string.
  assert (T : rstrip (numeral ds ++ " nsecs" ++ nl) =
              (numeral ds ++ " nsecs")%string).
  { rewrite rstrip_append; [reflexivity | discriminate]. }
  rewrite rstrip_append; rewrite T; [reflexivity|].
  destruct (numeral ds); discriminate.
Qed.

Lemma split_offset_numeral (ds : list nat) :
  Forall (fun d => (d < 10)%nat) ds ->
  split (".offset:     " ++ numeral ds ++ " nsecs") " " =
  [".offset:"; ""; ""; ""; ""; numeral ds; "nsecs"].
Proof.
  intro F. unfold split.
  change (".offset:     " ++ numeral ds ++ " nsecs")%string
    with (".offset:" ++
          String " " (String " " (String " " (String " " (String " "
            (numeral ds ++ String " " ("nsecs" ++ "")))))))%string.
  rewrite (split_scan_field " " "" ".offset:" _ eq_refl).
  rewrite !split_scan_separator.
  rewrite (split_scan_field " " "" (numeral ds) _
             (no_char_numeral " "%char ds F eq_refl)).
  rewrite split_scan_separator.
  rewrite (split_scan_field " " "" "nsecs" "" eq_refl).
  cbn [split_scan]. rewrite !append_empty. reflexivity.
Qed.

(** X10.  For the line the kernel prints after the clock's name,
    [  .offset:     <n> nsecs], [cpu0_offset] returns [n] nanoseconds as
    seconds, [n / 10^9], for every decimal numeral [n]. *)
Theorem cpu0_offset_of_kernel_line (pre : list string) (l : string)
        (ds : list nat) (post : list string) :
  (forall line, In line pre ->
                endswith line ("ktime_get_boottime" ++ nl) = false) ->
  endswith l ("ktime_get_boottime" ++ nl) = true ->
  Forall (fun d => (d < 10)%nat) ds -> ds <> [] ->
  cpu0_offset
    (pre ++ l :: ("  .offset:     " ++ numeral ds ++ " nsecs" ++ nl)%string :: post) =
  inr (inject_Z (numeral_value ds) / inject_Z 1000000000)%Q.
Proof.
  intros Hpre Hl F N. unfold cpu0_offset.
  rewrite (cpu0_offset_loop_first pre l _ 0 Hpre Hl).
  cbn [cpu0_offset_loop]. change (1 =? 2) with false. change (1 =? 1) with true.
  cbv iota.
  rewrite (strip_offset_line ds F), (split_offset_numeral ds F).
  change (index [".offset:"; ""; ""; ""; ""; numeral ds; "nsecs"] (-2))
    with (@inr exn string (numeral ds)).
  cbn [bind ret Monad_result]. rewrite (int_numeral ds F N).
  reflexivity.
Qed.

Lemma cpu0_offset_of_kernel_line_witness :
  let pre := ["cpu: 0" ++ nl; " clock 2:" ++ nl] in
  let l := "  .get_time:   ktime_get_boottime" ++ nl in
  let ds := [1; 6; 9; 6; 7; 9; 0; 8; 0; 0; 0; 0; 0; 0]%nat in
  ((forall line, In line pre ->
                 endswith line ("ktime_get_boottime" ++ nl) = false) /\
   endswith l ("ktime_get_boottime" ++ nl) = true /\
   Forall (fun d => (d < 10)%nat) ds /\ ds <> []) /\
  cpu0_offset timer_list_resumed =
  inr (inject_Z 16967908000000 / inject_Z 1000000000)%Q.
Proof.
  intros pre l ds.
  assert (Hpre : forall line, In line pre ->
                   endswith line ("ktime_get_boottime" ++ nl) = false).
  { cbn [In pre]. intros line [<-|[<-|[]]]; reflexivity. }
  assert (Hl : endswith l ("ktime_get_boottime" ++ nl) = true) by reflexivity.
  assert (F : Forall (fun d => (d < 10)%nat) ds) by (repeat constructor).
  assert (N : ds <> []) by discriminate.
  split; [auto|].
  exact (cpu0_offset_of_kernel_line pre l ds (skipn 4 timer_list_resumed)
           Hpre Hl F N).
Defined.

(** ** The field lookup of [_read_kernel_config_gz] (lines 29-33) *)

Lemma prefix_append (p s : string) :
  String.prefix p s = true -> exists rest, s = (p ++ rest)%string.
Proof.
  revert s. induction p as [|a p IH]; intros s H.
  - exists s. reflexivity.
  - destruct s as [|b s]; [discriminate H|]. cbn [String.prefix] in H.
    destruct (ascii_dec a b) as [<-|_]; [|discriminate H].
    destruct (IH s H) as (rest & ->). exists rest. reflexivity.
Qed.

Lemma index_1 (A : Type) (a b : A) (r : list A) : index (a :: b :: r) 1 = inr b.
Proof.
  unfold index. cbn [List.length].
  change (1 <? 0) with false. cbv iota.
  destruct (Z.leb_spec (Z.of_nat (S (S (List.length r)))) 1) as [L|_]; [lia|].
  reflexivity.
Qed.

Lemma split_CONFIG_HZ_fields (rest : string) :
  exists f r, split ("CONFIG_HZ=" ++ rest) "=" = "CONFIG_HZ" :: f :: r.
Proof.
  unfold split.
  change ("CONFIG_HZ=" ++ rest)%string with ("CONFIG_HZ" ++ String "=" rest)%string.
  rewrite (split_scan_field "=" "" "CONFIG_HZ" _ eq_refl).
  rewrite split_scan_separator.
  destruct (split_scan "=" 0 rest) as [f r]. exists f, r. reflexivity.
Qed.

Lemma int_outcome (s : string) :
  int s = inl ValueError \/ exists v, int s = inr v.
Proof.
  unfold int.
  match goal with
  | |- context [let (n, b) := ?m in _] => destruct m as [neg body]
  end.
  destruct (parse_digits 0 false body); eauto.
Qed.

(** On the lines read, the scan raises nothing but the ValueError of
    [int]. *)
Lemma _read_kernel_config_gz_raises (f : list string) (e : exn) :
  _read_kernel_config_gz f = inl e -> e = ValueError.
Proof.
  induction f as [|ln rest IH]; cbn [_read_kernel_config_gz].
  - discriminate.
  - destruct (startswith ln "CONFIG_HZ=") eqn:S; [|exact IH].
    unfold startswith in S. destruct (prefix_append _ _ S) as (t & ->).
    unfold decode. destruct (split_CONFIG_HZ_fields t) as (fld & r & ->).
    rewrite index_1. cbn [bind ret Monad_result].
    destruct (int_outcome fld) as [-> | (v & ->)]; intro H;
      [injection H as <-; reflexivity | discriminate H].
Qed.

(** X11.  Whatever lines the configuration holds, the scan of lines 29-33
    never raises IndexError: a line that starts with [CONFIG_HZ=] always
    has a field after its first [=], so the lookup [[1]] of line 31 cannot
    fail.  (Opening and decompressing the file, line 28, is outside this
    statement.) *)
Theorem read_kernel_config_never_raises_IndexError (f : list string) :
  _read_kernel_config_gz f <> inl IndexError.
Proof.
  intro H. pose proof (_read_kernel_config_gz_raises f IndexError H) as E.
  discriminate E.
Qed.

(** X12.  The first line that starts with [CONFIG_HZ=] decides alone: what
    the method returns or raises on the whole configuration is what it
    returns or raises on that line, so a first line without an integer
    raises ValueError even when a later line is well-formed. *)
Theorem read_kernel_config_first_line_decides (pre : list string) (ln : string)
        (post : list string) :
  (forall l, In l pre -> startswith l "CONFIG_HZ=" = false) ->
  startswith ln "CONFIG_HZ=" = true ->
  _read_kernel_config_gz (pre ++ ln :: post) = _read_kernel_config_gz [ln].
Proof.
  intros Hpre Hln.
  rewrite (_read_kernel_config_gz_first_match pre ln post Hpre Hln).
  cbn [_read_kernel_config_gz]. rewrite Hln. reflexivity.
Qed.

Lemma read_kernel_config_first_line_decides_witness :
  ((forall l, In l config_without_hz -> startswith l "CONFIG_HZ=" = false) /\
   startswith ("CONFIG_HZ=y" ++ nl) "CONFIG_HZ=" = true) /\
  _read_kernel_config_gz
    (config_without_hz ++ ("CONFIG_HZ=y" ++ nl)%string :: ["CONFIG_HZ=250" ++ nl]) =
  _read_kernel_config_gz ["CONFIG_HZ=y" ++ nl] /\
  _read_kernel_config_gz ["CONFIG_HZ=y" ++ nl] = inl ValueError.
Proof.
  assert (S : startswith ("CONFIG_HZ=y" ++ nl) "CONFIG_HZ=" = true) by reflexivity.
  split; [split; [exact config_without_hz_no_match | exact S]|].
  split; [|reflexivity].
  exact (read_kernel_config_first_line_decides config_without_hz
           ("CONFIG_HZ=y" ++ nl) ["CONFIG_HZ=250" ++ nl]
           config_without_hz_no_match S).
Defined.

(** ** [jiffies_to_datetime] (lines 75-93) *)

(** How a conversion ends: the object is kept; a timestamp comes out of
    the estimate [h], the corrected seconds [e], the offset [o], the
    configured frequency [c] and the boot time [b]. *)
Lemma jiffies_to_datetime_cases (j : Z) (tl stat : list string) (s s' : LKHZ)
      (r : result Q) :
  jiffies_to_datetime j tl stat s = (r, s') ->
  s' = s /\
  (forall t, r = inr t ->
     exists h e o c b,
       HZ s = Some h /\ since_boot s = Some e /\ cpu0_offset tl = inr o /\
       config_hz s = Some c /\ c <> 0 /\
       btime_loop None stat = inr (Some b) /\
       t = (inject_Z ((j + 300 * int_of_float h)
                      - (if Qltb 300 (e + o) then Z.shiftl 1 32 else 0))
            / inject_Z c + inject_Z b)%Q) /\
  (HZ s = None -> r = inl AttributeError) /\
  (forall h e o c,
     HZ s = Some h -> since_boot s = Some e -> cpu0_offset tl = inr o ->
     config_hz s = Some c -> c <> 0 ->
     btime_loop None stat = inr None -> r = inl UnboundLocalError).
Proof.
  unfold jiffies_to_datetime, jiffies_to_datetime_adj.
  cbv beta iota delta [bind Monad_M].
  destruct (HZ s) as [h|] eqn:Eh.
  2:{ unfold user_hz. run_M. rewrite Eh. intro H. unpair H.
      split; [reflexivity|]. split; [discriminate|]. split; [reflexivity|].
      intros; discriminate. }
  rewrite (user_hz_run s h Eh). run_M.
  destruct (since_boot s) as [e|] eqn:Ee.
  2:{ intro H. unpair H. split; [reflexivity|]. split; [discriminate|].
      split; [discriminate|]. intros; discriminate. }
  destruct (cpu0_offset tl) as [err|o] eqn:Eo.
  { intro H. unpair H. split; [reflexivity|]. split; [discriminate|].
    split; [discriminate|]. intros; discriminate. }
  destruct (config_hz s) as [c|] eqn:Ec; run_M.
  2:{ intro H. unpair H. split; [reflexivity|]. split; [discriminate|].
      split; [discriminate|]. intros; discriminate. }
  unfold truediv.
  destruct (Qeq_bool (inject_Z c) 0) eqn:Ez.
  { apply Qeq_bool_iff in Ez. unfold Qeq, inject_Z in Ez. cbn in Ez.
    intro H. unpair H. split; [reflexivity|]. split; [discriminate|].
    split; [discriminate|]. intros h' e' o' c' _ _ _ Hc N.
    injection Hc as <-. lia. }
  assert (Nc : c <> 0).
  { intro Z. subst c. discriminate Ez. }
  destruct (btime_loop None stat) as [err|[b|]] eqn:Eb; intro H; unpair H;
    (split; [reflexivity|]); (split; [|split; [discriminate|]]);
    try discriminate; try (intros; discriminate); try (intros; reflexivity).
  intros t Ht. injection Ht as <-.
  exists h, e, o, c, b. repeat split; try assumption.
  destruct (Qltb 300 (e + o)); rewrite ?Z.sub_0_r; reflexivity.
Qed.

(** X13.  [jiffies_to_datetime] only reads: however it ends, the object is
    as it was. *)
Theorem jiffies_to_datetime_keeps_object (j : Z) (tl stat : list string)
        (s : LKHZ) :
  snd (jiffies_to_datetime j tl stat s) = s.
Proof.
  destruct (jiffies_to_datetime j tl stat s) as [r s'] eqn:H.
  exact (proj1 (jiffies_to_datetime_cases j tl stat s s' r H)).
Qed.



Lemma btime_loop_no_line (lines : list string) (b : option Z) :
  (forall line, In line lines -> startswith line "btime" = false) ->
  btime_loop b lines = inr b.
Proof.
  induction lines as [|line rest IH]; intro H; cbn [btime_loop].
  - reflexivity.
  - rewrite (H line (or_introl eq_refl)). apply IH.
    intros l Hl. apply H. now right.
Qed.

(** X15.  When no line of /proc/stat starts with [btime], the conversion
    never returns a timestamp; with everything else in place the exception
    is the UnboundLocalError of the unassigned [btime]. *)
Theorem jiffies_to_datetime_without_btime (j : Z) (tl stat : list string)
        (s : LKHZ) :
  (forall line, In line stat -> startswith line "btime" = false) ->
  (exists e, fst (jiffies_to_datetime j tl stat s) = inl e) /\
  (forall h e o c,
     HZ s = Some h -> since_boot s = Some e -> cpu0_offset tl = inr o ->
     config_hz s = Some c -> c <> 0 ->
     fst (jiffies_to_datetime j tl stat s) = inl UnboundLocalError).
Proof.
  intro N. pose proof (btime_loop_no_line stat None N) as B.
  destruct (jiffies_to_datetime j tl stat s) as [r s'] eqn:H. cbn [fst].
  destruct (jiffies_to_datetime_cases j tl stat s s' r H) as (_ & Ok & _ & U).
  split.
  - destruct r as [e|t]; [eauto|]. exfalso.
    destruct (Ok t eq_refl) as (h & e & o & c & b & _ & _ & _ & _ & _ & Hb & _).
    congruence.
  - intros h e o c Hh He Ho Hc Nc. exact (U h e o c Hh He Ho Hc Nc B).
Qed.

Lemma stat_without_btime_no_line (line : string) :
  In line stat_without_btime -> startswith line "btime" = false.
Proof.
  unfold stat_without_btime. cbn [In].
  intros [<-|[<-|[<-|[]]]]; reflexivity.
Qed.

Lemma jiffies_to_datetime_without_btime_witness :
  (forall line, In line stat_without_btime -> startswith line "btime" = false) /\
  fst (jiffies_to_datetime 1000000 timer_list_0 stat_without_btime
         at_4100_seconds) = inl UnboundLocalError.
Proof.
  split; [exact stat_without_btime_no_line|].
  apply (proj2 (jiffies_to_datetime_without_btime 1000000 timer_list_0
                  stat_without_btime at_4100_seconds stat_without_btime_no_line)
           250%Q 4100%Q (inject_Z 0 / inject_Z 1000000000)%Q 250);
    solve [reflexivity | discriminate].
Defined.

Lemma btime_loop_app (l1 l2 : list string) (b : option Z) :
  btime_loop b (l1 ++ l2) =
  match btime_loop b l1 with
  | inl e => inl e
  | inr b' => btime_loop b' l2
  end.
Proof.
  revert b. induction l1 as [|line rest IH]; intro b; cbn [app btime_loop].
  - reflexivity.
  - destruct (startswith line "btime"); [|apply IH].
    destruct (index (split (strip line) " ") 1) as [e|f];
      cbn [bind ret Monad_result]; [reflexivity|].
    destruct (int f) as [e|v]; cbn [bind ret Monad_result]; [reflexivity|].
    apply IH.
Qed.

Lemma btime_line (ds : list nat) (b : option Z) (rest : list string) :
  Forall (fun d => (d < 10)%nat) ds -> ds <> [] ->
  btime_loop b (("btime " ++ numeral ds ++ nl)%string :: rest) =
  btime_loop (Some (numeral_value ds)) rest.
Proof.
  intros F N. cbn [btime_loop].
  assert (S : startswith ("btime " ++ numeral ds ++ nl) "btime" = true).
  { unfold startswith. cbn [String.append String.prefix].
    repeat match goal with
           | |- context [ascii_dec ?a ?b] =>
               let E := fresh in
               destruct (ascii_dec a b) as [E|E]; [|congruence]
           end.
    reflexivity. }
  rewrite S.
  assert (T : strip ("btime " ++ numeral ds ++ nl) = ("btime " ++ numeral ds)%string).
  { unfold strip.
    change (lstrip ("btime " ++ numeral ds ++ nl))
      with ("btime " ++ (numeral ds ++ nl))%string.
    rewrite rstrip_append; rewrite (rstrip_numeral_nl ds F); [reflexivity|].
    destruct ds as [|d ds]; [congruence | discriminate]. }
  rewrite T.
  assert (P : split ("btime " ++ numeral ds) " " = ["btime"; numeral ds]).
  { unfold split.
    change ("btime " ++ numeral ds)%string
      with ("btime" ++ String " " (numeral ds))%string.
    rewrite (split_scan_field " " "" "btime" _ eq_refl).
    rewrite split_scan_separator.
    rewrite <- (append_empty (numeral ds)) at 1.
    rewrite (split_scan_field " " "" (numeral ds) "" 
               (no_char_numeral " "%char ds F eq_refl)).
    cbn [split_scan]. rewrite !append_empty. reflexivity. }
  rewrite P, index_1. cbn [bind ret Monad_result].
  rewrite (int_numeral ds F N). reflexivity.
Qed.

(** X16.  Of several [btime] lines the last one counts: the loop over
    /proc/stat does not stop at the first match, unlike the loops over the
    configuration and the timer list. *)
Theorem last_btime_line_wins (pre post : list string) (ds : list nat)
        (b0 : option Z) :
  btime_loop None pre = inr b0 ->
  (forall line, In line post -> startswith line "btime" = false) ->
  Forall (fun d => (d < 10)%nat) ds -> ds <> [] ->
  btime_loop None (pre ++ ("btime " ++ numeral ds ++ nl)%string :: post) =
  inr (Some (numeral_value ds)).
Proof.
  intros Hpre Hpost F N.
  rewrite btime_loop_app, Hpre, (btime_line ds b0 post F N).
  apply btime_loop_no_line. exact Hpost.
Qed.

Lemma last_btime_line_wins_witness :
  let pre := ["btime 1600000000" ++ nl; "ctxt 1990473" ++ nl] in
  let post := ["processes 2915" ++ nl] in
  let ds := [1; 7; 0; 0; 0; 0; 0; 0; 0; 0]%nat in
  (btime_loop None pre = inr (Some 1600000000) /\
   (forall line, In line post -> startswith line "btime" = false) /\
   Forall (fun d => (d < 10)%nat) ds /\ ds <> []) /\
  btime_loop None stat_with_two_btimes = inr (Some 1700000000).
Proof.
  intros pre post ds.
  assert (H1 : btime_loop None pre = inr (Some 1600000000)) by reflexivity.
  assert (H2 : forall line, In line post -> startswith line "btime" = false).
  { cbn [In post]. intros line [<-|[]]. reflexivity. }
  assert (F : Forall (fun d => (d < 10)%nat) ds) by (repeat constructor).
  assert (N : ds <> []) by discriminate.
  split; [auto|].
  exact (last_btime_line_wins pre post ds (Some 1600000000) H1 H2 F N).
Defined.

(** ** [calibrate] (lines 37-42) *)

(** X17.  [calibrate] polls [_count] times.  When it returns, the baseline
    [_oavg] is the average of the last poll (so the drift starts at 0),
    [_start] is the time read, and nothing else of the last poll's object
    changed; when it raises, the baseline and the start time are
    untouched. *)
Theorem calibrate_sets_the_baseline (os : nat -> reads) (now : Z)
        (s s' : LKHZ) (r : result unit) :
  calibrate os now s = (r, s') ->
  (r = inr tt ->
   exists sk a,
     _gv_each (map os (seq 0 (Z.to_nat (_count s)))) s = (inr tt, sk) /\
     _avg sk = Some a /\ s' = with_start now (with_oavg a sk) /\
     _avg s' = Some a /\ _oavg s' = a /\ _start s' = Some now) /\
  (forall e, r = inl e -> _oavg s' = _oavg s /\ _start s' = _start s).
Proof.
  unfold calibrate. run_M.
  destruct (_gv_each (map os (seq 0 (Z.to_nat (_count s)))) s) as [[e|[]] sk] eqn:E;
    pose proof (_gv_each_keeps_setup _ _ _ _ E) as (_ & _ & Ko & Ks).
  - intro H. unpair H. split; [discriminate|]. intros e' _. auto.
  - destruct (_avg sk) as [a|] eqn:Ea; intro H; unpair H.
    + split; [|discriminate]. intros _. exists sk, a. repeat split; assumption.
    + split; [discriminate|]. intros e _. auto.
Qed.

Lemma calibrate_sets_the_baseline_witness :
  let os := fun i : nat => poll_1 in
  let s' := snd (calibrate os 1700004100 booted) in
  calibrate os 1700004100 booted = (inr tt, s') /\
  exists sk a,
    _gv_each (map os (seq 0 (Z.to_nat (_count booted)))) booted = (inr tt, sk) /\
    _avg sk = Some a /\ s' = with_start 1700004100 (with_oavg a sk) /\
    _avg s' = Some a /\ _oavg s' = a /\ _start s' = Some 1700004100.
Proof.
  intros os s'.
  assert (H : calibrate os 1700004100 booted = (inr tt, s'))
    by (vm_compute; reflexivity).
  split; [exact H|].
  exact (proj1 (calibrate_sets_the_baseline os 1700004100 booted s' (inr tt) H)
           eq_refl).
Defined.

(** ** [analyze] and the main program (lines 142-171) *)

Lemma analyze_turn_ok (os : reads) (now : Z) (s s' : LKHZ) (r : row) :
  analyze_turn os now s = (inr r, s') ->
  _gv os s = (inr tt, s') /\
  exists start,
    _start s' = Some start /\ row_age r = now - start /\
    jiffies s' = Some (row_jiffies r) /\
    since_boot s' = Some (row_since_boot r) /\
    HZ s' = Some (row_HZ r) /\ _min s' = Some (row_min r) /\
    _avg s' = Some (row_avg r) /\ _max s' = Some (row_max r) /\
    _delta s' = Some (row_delta r) /\
    row_drift r = (row_avg r - _oavg s')%Q /\ row_offset r = offset s'.
Proof.
  unfold analyze_turn. cbv beta iota delta [bind Monad_M].
  destruct (_gv os s) as [[e|[]] s1] eqn:E; [discriminate|].
  run_M.
  destruct (_avg s1) as [a|] eqn:Ea; run_M; [|discriminate].
  destruct (_start s1) as [st|] eqn:Es; run_M; [|discriminate].
  destruct (jiffies s1) as [j|] eqn:Ej; run_M; [|discriminate].
  destruct (since_boot s1) as [sb|] eqn:Eb; run_M; [|discriminate].
  destruct (HZ s1) as [h|] eqn:Eh; run_M; [|discriminate].
  destruct (_min s1) as [m|] eqn:Em; run_M; [|discriminate].
  rewrite Ea; run_M.
  destruct (_max s1) as [x|] eqn:Ex; run_M; [|discriminate].
  destruct (_delta s1) as [d|] eqn:Ed; run_M; [|discriminate].
  intro H. apply pair_equal_spec in H. destruct H as [Hr <-].
  injection Hr as <-. split; [reflexivity|].
  exists st. cbn. repeat split; first [assumption | reflexivity].
Qed.

Lemma analyze_turn_uncalibrated (os : reads) (now : Z) (s : LKHZ) :
  _start s = None ->
  exists e s', analyze_turn os now s = (inl e, s') /\ _start s' = None.
Proof.
  intro N. unfold analyze_turn. cbv beta iota delta [bind Monad_M].
  destruct (_gv os s) as [[e|[]] s1] eqn:E;
    pose proof (_gv_keeps_setup _ _ _ _ E) as (_ & _ & _ & Ks);
    rewrite N in Ks.
  - exists e, s1. auto.
  - run_M. destruct (_avg s1) as [a|]; run_M; [|eauto].
    rewrite Ks. eauto.
Qed.

(** X18.  The program as it is started, [LKHZ().analyze()], prints no
    estimate: [__init__] does not create [_start] and only [calibrate]
    does, so the first turn of the loop raises (AttributeError at line 156
    when [_gv] returned).  What is printed is at most the heading. *)
Theorem main_prints_no_estimate (config_gz timer_list : list string)
        (polls : list (reads * Z)) :
  polls <> [] ->
  (exists e, snd (main config_gz timer_list polls) = inl e) /\
  (fst (main config_gz timer_list polls) = [] \/
   exists c, fst (main config_gz timer_list polls) = [Heading c 100]).
Proof.
  intro N. unfold main.
  destruct (__init__ config_gz timer_list) as [e|hz] eqn:E.
  { cbn. split; [eauto | now left]. }
  assert (I : _start hz = None /\ _count hz = 100).
  { unfold __init__ in E.
    destruct (_read_kernel_config_gz config_gz) as [e|c]; [discriminate E|].
    cbn [bind ret Monad_result] in E.
    destruct (cpu0_offset timer_list) as [e|o]; [discriminate E|].
    cbn [bind ret Monad_result] in E. injection E as <-. split; reflexivity. }
  destruct I as (Is & Ic).
  destruct polls as [|[os now] rest]; [congruence|].
  unfold analyze. cbn [analyze_loop].
  destruct (analyze_turn_uncalibrated os now hz Is) as (e & s' & T & _).
  rewrite T. cbn. rewrite Ic. split; [eauto | right; eauto].
Qed.

Lemma main_prints_no_estimate_witness :
  [(poll_1, 1700000400)] <> [] /\
  (exists e, snd (main config_100 timer_list_0 [(poll_1, 1700000400)]) = inl e) /\
  (fst (main config_100 timer_list_0 [(poll_1, 1700000400)]) = [] \/
   exists c, fst (main config_100 timer_list_0 [(poll_1, 1700000400)]) =
             [Heading c 100]).
Proof.
  assert (N : [(poll_1, 1700000400)] <> []) by discriminate.
  split; [exact N|].
  exact (main_prints_no_estimate config_100 timer_list_0 [(poll_1, 1700000400)] N).
Defined.

(** X19.  Every row [analyze] prints is consistent: the estimate lies
    between the minimum and the maximum, the variance is maximum minus
    minimum, and the drift is the average minus the baseline the object
    had when [analyze] started. *)
Theorem analyze_rows_are_consistent (polls : list (reads * Z)) (s : LKHZ)
        (r : row) :
  In r (fst (analyze_loop polls s)) ->
  (row_min r <= row_HZ r)%Q /\ (row_HZ r <= row_max r)%Q /\
  (row_delta r == row_max r - row_min r)%Q /\
  row_drift r = (row_avg r - _oavg s)%Q.
Proof.
  revert s. induction polls as [|[os now] rest IH]; intros s; cbn [analyze_loop].
  - intros [].
  - destruct (analyze_turn os now s) as [[e|r1] s1] eqn:T; [intros []|].
    destruct (analyze_loop rest s1) as [rows out] eqn:L. cbn [fst].
    destruct (analyze_turn_ok _ _ _ _ _ T)
      as (G & st & _ & _ & _ & _ & Hh & Hm & Ha & Hx & Hd & Dr & _).
    pose proof (_gv_keeps_setup _ _ _ _ G) as (_ & _ & Ko & _).
    intros [<-|Hin].
    + destruct (_gv_ordered os s s1 G)
        as (h & m & x & d & Hh' & Hm' & Hx' & Hd' & O1 & O2 & O5).
      assert (h = row_HZ r1) by congruence.
      assert (m = row_min r1) by congruence.
      assert (x = row_max r1) by congruence.
      assert (d = row_delta r1) by congruence.
      subst h m x d. rewrite Dr, Ko. repeat split; assumption.
    + specialize (IH s1). rewrite L in IH. cbn [fst] in IH.
      rewrite <- Ko. apply IH. exact Hin.
Qed.

Lemma analyze_rows_are_consistent_witness :
  let s := snd (calibrate (fun _ : nat => poll_1) 1700004100 booted) in
  let rows := fst (analyze_loop [(poll_2, 1700004200)] s) in
  exists r,
    In r rows /\
    (row_min r <= row_HZ r)%Q /\ (row_HZ r <= row_max r)%Q /\
    (row_delta r == row_max r - row_min r)%Q /\
    row_drift r = (row_avg r - _oavg s)%Q.
Proof.
  intros s rows.
  assert (E : exists r l, rows = r :: l) by (vm_compute; eauto).
  destruct E as (r & l & E).
  assert (I : In r rows) by (rewrite E; now left).
  exists r. split; [exact I|].
  exact (analyze_rows_are_consistent [(poll_2, 1700004200)] s r I).
Defined.

(** ** The first call, the eviction and the estimate *)

Lemma round_compat (x y : Q) (n : nat) : (x == y)%Q -> round x n = round y n.
Proof.
  intro H. unfold round. f_equal. apply round_half_even_compat.
  rewrite H. reflexivity.
Qed.

(** X20.  After [__init__], the first call of [_gv] that returns leaves one
    entry in the list, the estimate, and reports it as average, minimum and
    maximum, with variance 0. *)
Theorem first_call_statistics (config_gz timer_list : list string)
        (os : reads) (s s' : LKHZ) :
  __init__ config_gz timer_list = inr s ->
  _gv os s = (inr tt, s') ->
  exists h d,
    HZ s' = Some h /\ _hz s' = [h] /\ _avg s' = Some h /\
    _min s' = Some h /\ _max s' = Some h /\
    _delta s' = Some d /\ (d == 0)%Q.
Proof.
  intros I H.
  assert (I' : _hz s = [] /\ _count s = 100 /\ _min s = None).
  { unfold __init__ in I.
    destruct (_read_kernel_config_gz config_gz) as [e|c]; [discriminate I|].
    cbn [bind ret Monad_result] in I.
    destruct (cpu0_offset timer_list) as [e|o]; [discriminate I|].
    cbn [bind ret Monad_result] in I. injection I as <-. repeat split. }
  destruct I' as (Ihz & Ic & Im).
  destruct (_gv_ok os s s' H)
    as (h & m & x & Hh & _ & Havg & Hhz & Hm & Hx & Emin & Emax & Ed & _).
  pose proof (_gv_HZ_is_rounded os s s' h H Hh) as Rh.
  unfold reinserted in Hhz. rewrite Im, Ihz, Ic in *.
  change (slice_from ([] ++ [h]) (-1 * 100)) with [h] in *.
  cbn [app] in Hhz. rewrite Hhz in Hm, Hx.
  cbn [min max fold_left] in Hm, Hx.
  injection Hm as <-. injection Hx as <-.
  rewrite Rh in Emin, Emax, Ed.
  exists h, (h - h)%Q. repeat split; try assumption.
  - rewrite Havg. f_equal. transitivity (round h 8); [|exact Rh].
    apply round_compat.
    unfold sum. cbn [fold_left List.length].
    change (inject_Z (Z.of_nat 1)) with 1%Q. field.
  - ring.
Qed.

Lemma first_call_statistics_witness :
  let s' := snd (_gv poll_1 booted) in
  (__init__ config_100 timer_list_0 = inr booted /\
   _gv poll_1 booted = (inr tt, s')) /\
  exists h d,
    HZ s' = Some h /\ _hz s' = [h] /\ _avg s' = Some h /\
    _min s' = Some h /\ _max s' = Some h /\
    _delta s' = Some d /\ (d == 0)%Q.
Proof.
  intro s'.
  assert (I : __init__ config_100 timer_list_0 = inr booted)
    by (vm_compute; reflexivity).
  assert (H : _gv poll_1 booted = (inr tt, s')) by (vm_compute; reflexivity).
  split; [auto|].
  exact (first_call_statistics config_100 timer_list_0 poll_1 booted s' I H).
Defined.

(** X21.  The slice evicts from the front only, and only what exceeds the
    capacity: the entries a returning call averages are the list with the
    new estimate appended, without its first
    [max(0, len + 1 - _count)] entries. *)
Theorem eviction_drops_the_oldest (os : reads) (s s' : LKHZ) :
  1 <= _count s ->
  _gv os s = (inr tt, s') ->
  exists h dropped w,
    HZ s' = Some h /\
    (_hz s ++ [h])%list = (dropped ++ w)%list /\
    _hz s' = (w ++ reinserted s)%list /\
    Z.of_nat (List.length dropped) =
    Z.max 0 (Z.of_nat (List.length (_hz s)) + 1 - _count s).
Proof.
  intros Hc H.
  destruct (_gv_ok os s s' H) as (h & m & x & Hh & _ & _ & Hhz & _).
  destruct (slice_from_drops_front _ (_hz s ++ [h]) (_count s) Hc)
    as (dropped & E & L).
  exists h, dropped, (slice_from (_hz s ++ [h]) (-1 * _count s)).
  split; [exact Hh|]. split; [exact E|]. split; [exact Hhz|].
  rewrite L, length_app. cbn [List.length]. lia.
Qed.

Lemma eviction_drops_the_oldest_witness :
  let s := mkLKHZ [100; 102]%Q 2 (Some 100) 0 500 0 None (Some 500%Q)
             (Some 4294988296) (Some 102%Q) (Some 101%Q) (Some 100%Q)
             (Some 102%Q) (Some 2%Q) in
  let s' := snd (_gv poll_3 s) in
  (1 <= _count s /\ _gv poll_3 s = (inr tt, s')) /\
  exists h dropped w,
    HZ s' = Some h /\
    (_hz s ++ [h])%list = (dropped ++ w)%list /\
    _hz s' = (w ++ reinserted s)%list /\
    Z.of_nat (List.length dropped) =
    Z.max 0 (Z.of_nat (List.length (_hz s)) + 1 - _count s).
Proof.
  intros s s'.
  assert (Hc : 1 <= _count s) by (cbn; lia).
  assert (H : _gv poll_3 s = (inr tt, s')) by (vm_compute; reflexivity).
  split; [auto|].
  exact (eviction_drops_the_oldest poll_3 s s' Hc H).
Defined.



(** ** [user_hz] as it computes (lines 44-48) *)

(** X23.  [user_hz] returns the integer part of the estimate, truncated
    towards zero, and leaves the object alone; before the first estimate it
    raises AttributeError. *)
Theorem user_hz_is_the_integer_part (s : LKHZ) :
  (HZ s = None -> user_hz s = (inl AttributeError, s)) /\
  (forall h, HZ s = Some h ->
     exists u, user_hz s = (inr u, s) /\
               ((0 <= h)%Q -> (inject_Z u <= h)%Q /\ (h < inject_Z u + 1)%Q) /\
               ((h <= 0)%Q -> (h <= inject_Z u)%Q /\ (inject_Z u - 1 < h)%Q)).
Proof.
  split.
  - intro N. unfold user_hz. run_M. rewrite N. reflexivity.
  - intros h Hh. exists (int_of_float h). split; [exact (user_hz_run s h Hh)|].
    destruct h as [n d]. unfold int_of_float. cbn [Qnum Qden].
    pose proof (Z.quot_rem' n (Z.pos d)) as E.
    assert (Bp : 0 <= n -> 0 <= Z.rem n (Z.pos d) < Z.pos d).
    { intro Pn. apply Z.rem_bound_pos; lia. }
    assert (Bn : n <= 0 -> - Z.pos d < Z.rem n (Z.pos d) <= 0).
    { intro Pn.
      pose proof (Z.rem_bound_pos (- n) (Z.pos d) ltac:(lia) ltac:(lia)) as B.
      rewrite Z.rem_opp_l in B by lia. lia. }
    set (q := Z.quot n (Z.pos d)) in *. set (m := Z.rem n (Z.pos d)) in *.
    clearbody q m.
    unfold Qminus. unfold Qle, Qlt, Qplus, Qopp, inject_Z. cbn [Qnum Qden].
    rewrite ?Pos.mul_1_r.
    split; intro P; [assert (Pn : 0 <= n) by lia; specialize (Bp Pn)
                    | assert (Pn : n <= 0) by lia; specialize (Bn Pn)];
      split; nia.
Qed.

Lemma user_hz_is_the_integer_part_witness :
  let s := with_HZ (24999999999 # 100000000) booted in
  HZ s = Some (24999999999 # 100000000)%Q /\
  (0 <= 24999999999 # 100000000)%Q /\
  exists u, user_hz s = (inr u, s) /\
            (inject_Z u <= 24999999999 # 100000000)%Q /\
            (24999999999 # 100000000 < inject_Z u + 1)%Q.
Proof.
  intro s.
  assert (Hh : HZ s = Some (24999999999 # 100000000)%Q) by reflexivity.
  assert (P : (0 <= 24999999999 # 100000000)%Q) by (vm_compute; discriminate).
  split; [exact Hh|]. split; [exact P|].
  destruct (proj2 (user_hz_is_the_integer_part s) _ Hh) as (u & Hu & Pos & _).
  exists u. split; [exact Hu|]. exact (Pos P).
Defined.
